(** * telsh: the command registry and the telnet session, embedded in Rocq

    The development follows [include/telsh/command_registry.hpp] and
    [include/telsh/telnet_session.hpp].

    Conventions of the embedding.
    - A [char] or [uint8_t] is the [Z] of its bit pattern (0..255).  Every
      comparison the code makes on a [char] is against a constant below 128,
      so the signedness of [char] never matters.
    - A [char] array is a [list Z]; a [const char*] is the list of bytes from
      the address on, or [None] for [nullptr].  The C string it designates is
      [c_str]: the bytes before the first NUL.
    - Array reads are [rd] (stdpp lookup), array writes are stdpp's list
      insert.  Sizes and cursors that the code keeps in [uint32_t] stay far
      below the wrap-around and are [nat]; [int] values are [Z]. *)

From Stdlib Require Import ZArith String Ascii Lia.
From stdpp Require Import base tactics option list numbers.

Local Open Scope nat_scope.

(* ===================================================================== *)
(** ** C strings and the libc calls the code uses *)
(* ===================================================================== *)

(** ['\0']. *)
Abbreviation NUL := (0%Z) (only parsing).

(** The bytes of a string literal. *)
Definition chars (s : string) : list Z :=
  (λ a, Z.of_nat (nat_of_ascii a)) <$> list_ascii_of_string s.

Definition CRLF : list Z := [13%Z; 10%Z].

(** The C string starting at the head of [m]: everything before the first
    NUL. *)
Fixpoint c_str (m : list Z) : list Z :=
  match m with
  | [] => []
  | c :: m' => if (c =? 0)%Z then [] else c :: c_str m'
  end.

(** [*p] for [p = m + i].  All buffers end with their terminator, so a read
    never leaves the list; the default only makes the function total. *)
Definition rd (m : list Z) (i : nat) : Z := default NUL (m !! i).

Definition strlen (m : list Z) : nat := length (c_str m).

(** [strcmp(a, b) == 0]. *)
Definition streq (a b : list Z) : bool := bool_decide (c_str a = c_str b).

(** [strncpy(dst, src, n)]: at most [n] bytes of the string, NUL padded up
    to [n]; the rest of [dst] is kept. *)
Definition strncpy (dst src : list Z) (n : nat) : list Z :=
  let s := take n (c_str src) in
  s ++ replicate (n - length s) NUL ++ drop n dst.

(** [memcpy(dst, src, n)]. *)
Definition memcpy (dst src : list Z) (n : nat) : list Z :=
  take n src ++ drop n dst.

(** [memset(a, 0, sizeof a)] on an array of [n] bytes. *)
Definition zeros (n : nat) : list Z := replicate n NUL.

(** [snprintf(buf, size, ...)] where the formatted text is [s]: the array
    receives at most [size - 1] bytes and a terminator, the return value is
    the length of the whole text. *)
Definition snprintf (size : nat) (s : list Z) : list Z * Z :=
  (take (size - 1) s ++ [NUL], Z.of_nat (length s)).

(** [needle] occurs in [hay] as a contiguous block ([strstr]). *)
Definition contains (needle hay : list Z) : Prop :=
  ∃ l r, hay = l ++ needle ++ r.

Fixpoint is_prefix (needle hay : list Z) : bool :=
  match needle, hay with
  | [], _ => true
  | _ :: _, [] => false
  | a :: n', b :: h' => (a =? b)%Z && is_prefix n' h'
  end.

Fixpoint containsb (needle hay : list Z) : bool :=
  is_prefix needle hay ||
  match hay with
  | [] => false
  | _ :: h' => containsb needle h'
  end.

(* ===================================================================== *)
(** ** Telnet protocol constants ([namespace tel]) *)
(* ===================================================================== *)

Definition kSE : Z := 240.
Definition kSB : Z := 250.
Definition kWILL : Z := 251.
Definition kWONT : Z := 252.
Definition kDO : Z := 253.
Definition kDONT : Z := 254.
Definition kIAC : Z := 255.

Definition kOptEcho : Z := 1.
Definition kOptSGA : Z := 3.
Definition kOptNAWS : Z := 31.

(* ===================================================================== *)
(** ** The IAC filter ([TelnetSession::FilterIac]) *)
(* ===================================================================== *)

Inductive IacPhase := kNormal | kIac | kNego | kSub.

Record IacState := { phase : IacPhase; prev_byte : Z }.

(** [iac_ = {}]. *)
Definition iac_init : IacState := {| phase := kNormal; prev_byte := 0 |}.

(** One call of [FilterIac]: the new decoder state and the returned [char];
    ['\0'] is the "consumed" answer. *)
Definition FilterIac (iac : IacState) (byte : Z) : IacState * Z :=
  match phase iac with
  | kNormal =>
      if (byte =? kIAC)%Z
      then ({| phase := kIac; prev_byte := prev_byte iac |}, NUL)
      else (iac, byte)
  | kIac =>
      if (byte =? kIAC)%Z
      then ({| phase := kNormal; prev_byte := prev_byte iac |}, byte)
      else if (kWILL <=? byte)%Z && (byte <=? kDONT)%Z
      then ({| phase := kNego; prev_byte := prev_byte iac |}, NUL)
      else if (byte =? kSB)%Z
      then ({| phase := kSub; prev_byte := 0 |}, NUL)
      else ({| phase := kNormal; prev_byte := prev_byte iac |}, NUL)
  | kNego => ({| phase := kNormal; prev_byte := prev_byte iac |}, NUL)
  | kSub =>
      ({| phase := if (prev_byte iac =? kIAC)%Z && (byte =? kSE)%Z
                   then kNormal else kSub;
          prev_byte := byte |}, NUL)
  end.

(** The decoder run over a byte sequence as the read loop of [Run] runs it:
    a ['\0'] answer is skipped, any other answer is a visible character. *)
Fixpoint iac_feed (iac : IacState) (bytes : list Z) : IacState * list Z :=
  match bytes with
  | [] => (iac, [])
  | b :: bs =>
      let '(iac', c) := FilterIac iac b in
      let '(iac'', out) := iac_feed iac' bs in
      (iac'', if (c =? 0)%Z then out else c :: out)
  end.

(** The byte seen last: the last of [bytes], or [prev] when there is none. *)
Fixpoint last_of (prev : Z) (bytes : list Z) : Z :=
  match bytes with
  | [] => prev
  | b :: bs => last_of b bs
  end.

(** No IAC byte of the list is immediately followed by SE. *)
Fixpoint no_iac_se (prev : Z) (bytes : list Z) : Prop :=
  match bytes with
  | [] => True
  | b :: bs => ¬ (prev = kIAC ∧ b = kSE) ∧ no_iac_se b bs
  end.

(* ===================================================================== *)
(** ** The tokenizer ([ShellSplit]) *)
(* ===================================================================== *)

Definition is_ws (c : Z) : bool :=
  (c =? 32)%Z || (c =? 9)%Z || (c =? 13)%Z || (c =? 10)%Z.

Definition SQUOTE : Z := 39.
Definition DQUOTE : Z := 34.

(** "Remove quote by shifting left":
    [while ( *src != '\0') { *dst++ = *src++; }  *dst = '\0';] *)
Fixpoint shift_loop (fuel : nat) (buf : list Z) (dst src : nat) : list Z :=
  match fuel with
  | O => buf
  | S fuel' =>
      if (rd buf src =? 0)%Z then <[dst := NUL]> buf
      else shift_loop fuel' (<[dst := rd buf src]> buf) (S dst) (S src)
  end.

Definition shift_left (buf : list Z) (p : nat) : list Z :=
  shift_loop (length buf) buf p (S p).

(** The locals of [ShellSplit].  [argv[argc++] = p] appends the offset [p]
    to [sp_argv], so [argc] is the length of [sp_argv]. *)
Record SplitState := {
  sp_buf : list Z;
  sp_p : nat;
  sp_argv : list nat;
  in_sq : bool;
  in_dq : bool;
  in_arg : bool
}.

Definition sp_argc (s : SplitState) : Z := Z.of_nat (length (sp_argv s)).

(** What [ShellSplit] leaves behind: the returned [int], the line buffer as
    mutated and the offsets stored in [argv]. *)
Record SplitResult := {
  sr_ret : Z;
  sr_buf : list Z;
  sr_argv : list nat
}.

Definition sp_return (r : Z) (s : SplitState) : SplitResult :=
  {| sr_ret := r; sr_buf := sp_buf s; sr_argv := sp_argv s |}.

(** [if (!in_arg) { if (argc >= max_args) return -1; argv[argc++] = p;
    in_arg = true; }] followed by the continuation [k]. *)
Definition begin_arg (max_args : Z) (s : SplitState)
    (k : SplitState → option SplitResult) : option SplitResult :=
  if in_arg s then k s
  else if (max_args <=? sp_argc s)%Z then Some (sp_return (-1) s)
  else k {| sp_buf := sp_buf s; sp_p := sp_p s;
            sp_argv := sp_argv s ++ [sp_p s];
            in_sq := in_sq s; in_dq := in_dq s; in_arg := true |}.

Definition sp_advance (s : SplitState) : SplitState :=
  {| sp_buf := sp_buf s; sp_p := S (sp_p s); sp_argv := sp_argv s;
     in_sq := in_sq s; in_dq := in_dq s; in_arg := in_arg s |}.

(** The [while ( *p != '\0')] loop.  [None] only when [fuel] runs out. *)
Fixpoint split_loop (fuel : nat) (max_args : Z) (s : SplitState)
    : option SplitResult :=
  match fuel with
  | O => None
  | S fuel' =>
      let c := rd (sp_buf s) (sp_p s) in
      if (c =? 0)%Z then Some (sp_return (sp_argc s) s)
      else if is_ws c && negb (in_sq s) && negb (in_dq s) then
        split_loop fuel' max_args
          (sp_advance
             (if in_arg s
              then {| sp_buf := <[sp_p s := NUL]> (sp_buf s);
                      sp_p := sp_p s; sp_argv := sp_argv s;
                      in_sq := in_sq s; in_dq := in_dq s; in_arg := false |}
              else s))
      else if (c =? SQUOTE)%Z && negb (in_dq s) then
        begin_arg max_args
          {| sp_buf := shift_left (sp_buf s) (sp_p s);
             sp_p := sp_p s; sp_argv := sp_argv s;
             in_sq := negb (in_sq s); in_dq := in_dq s; in_arg := in_arg s |}
          (split_loop fuel' max_args)
      else if (c =? DQUOTE)%Z && negb (in_sq s) then
        begin_arg max_args
          {| sp_buf := shift_left (sp_buf s) (sp_p s);
             sp_p := sp_p s; sp_argv := sp_argv s;
             in_sq := in_sq s; in_dq := negb (in_dq s); in_arg := in_arg s |}
          (split_loop fuel' max_args)
      else
        begin_arg max_args s (λ s', split_loop fuel' max_args (sp_advance s'))
  end.

Definition split_init (buf : list Z) : SplitState :=
  {| sp_buf := buf; sp_p := 0; sp_argv := []; in_sq := false; in_dq := false;
     in_arg := false |}.

(** Every iteration either advances [p] or removes one byte of the string,
    so the loop body runs at most [strlen(cmdline) + 1] times. *)
Definition split_fuel (buf : list Z) : nat := S (length buf).

(** [ShellSplit(cmdline, argv, max_args)].  [cmdline] is the line buffer or
    [None] for [nullptr]; [argv_given] tells whether [argv] is non-null.
    The last case is never taken ([ShellSplit_total]). *)
Definition ShellSplit (cmdline : option (list Z)) (argv_given : bool)
    (max_args : Z) : SplitResult :=
  match cmdline with
  | None => {| sr_ret := -1; sr_buf := []; sr_argv := [] |}
  | Some buf =>
      if negb argv_given then {| sr_ret := -1; sr_buf := buf; sr_argv := [] |}
      else match split_loop (split_fuel buf) max_args (split_init buf) with
           | Some r => r
           | None => {| sr_ret := -1; sr_buf := buf; sr_argv := [] |}
           end
  end.

(** The string [argv[i]] points to once [ShellSplit] has returned. *)
Definition arg_at (buf : list Z) (off : nat) : list Z := c_str (drop off buf).

Definition sr_args (r : SplitResult) : list (list Z) :=
  arg_at (sr_buf r) <$> sr_argv r.

(** *** The tokenizer as the specification words it

    Whitespace outside quotes separates tokens; a quote character toggles its
    own quoting state unless the other quote is open, and is dropped; a token
    begins at the first position that is not separating whitespace, whether
    that position holds a quote or not.  [cur] is the token being read. *)
Fixpoint tok_loop (rest : list Z) (sq dq : bool) (cur : option (list Z))
    : list (list Z) :=
  match rest with
  | [] => match cur with Some t => [t] | None => [] end
  | c :: r =>
      if is_ws c && negb sq && negb dq then
        match cur with
        | Some t => t :: tok_loop r sq dq None
        | None => tok_loop r sq dq None
        end
      else if (c =? SQUOTE)%Z && negb dq then
        tok_loop r (negb sq) dq (Some (default [] cur))
      else if (c =? DQUOTE)%Z && negb sq then
        tok_loop r sq (negb dq) (Some (default [] cur))
      else tok_loop r sq dq (Some (default [] cur ++ [c]))
  end.

Definition tokenize (line : list Z) : list (list Z) :=
  tok_loop (c_str line) false false None.

(** *** Lines built from tokens

    A token is written as a sequence of pieces: bare text, text between
    single quotes, text between double quotes. *)
Inductive piece :=
| Bare (s : list Z)
| InSingle (s : list Z)
| InDouble (s : list Z).

Definition piece_ok (pc : piece) : Prop :=
  match pc with
  | Bare s =>
      Forall (λ c, c ≠ 0%Z ∧ is_ws c = false ∧ c ≠ SQUOTE ∧ c ≠ DQUOTE) s
  | InSingle s => Forall (λ c, c ≠ 0%Z ∧ c ≠ SQUOTE) s
  | InDouble s => Forall (λ c, c ≠ 0%Z ∧ c ≠ DQUOTE) s
  end.

(** How a piece is written in the line, and what it contributes to the
    argument. *)
Definition piece_text (pc : piece) : list Z :=
  match pc with
  | Bare s => s
  | InSingle s => SQUOTE :: s ++ [SQUOTE]
  | InDouble s => DQUOTE :: s ++ [DQUOTE]
  end.

Definition piece_value (pc : piece) : list Z :=
  match pc with Bare s | InSingle s | InDouble s => s end.

Definition token := list piece.

Definition token_text (t : token) : list Z := concat (piece_text <$> t).
Definition token_value (t : token) : list Z := concat (piece_value <$> t).

Definition token_ok (t : token) : Prop :=
  Forall piece_ok t ∧ token_text t ≠ [].

Definition blank (sep : list Z) : Prop := Forall (λ c, is_ws c = true) sep.

(** A line: leading blanks, then each token followed by its separator.  The
    separator after a token that is not the last one is not empty. *)
Fixpoint line_body (toks : list (token * list Z)) : list Z :=
  match toks with
  | [] => []
  | (t, sep) :: rest => token_text t ++ sep ++ line_body rest
  end.

Fixpoint seps_ok (toks : list (token * list Z)) : Prop :=
  match toks with
  | [] => True
  | (t, sep) :: rest =>
      token_ok t ∧ blank sep ∧ (rest ≠ [] → sep ≠ []) ∧ seps_ok rest
  end.

Definition line_of (lead : list Z) (toks : list (token * list Z)) : list Z :=
  lead ++ line_body toks.

(* ===================================================================== *)
(** ** The command registry ([CommandRegistry]) *)
(* ===================================================================== *)

(** [CmdFn]: a handler maps [argc], the strings of [argv] and the context
    pointer to its status code. *)
Definition CmdFn : Type := Z → list (list Z) → Z → Z.

(** [struct CmdEntry]; [None] is [nullptr]. *)
Record CmdEntry := {
  name : option (list Z);
  desc : option (list Z);
  fn : option CmdFn;
  ctx : Z
}.

(** A value-initialised entry ([entries_[kMaxCommands] = {}]). *)
Definition entry_zero : CmdEntry :=
  {| name := None; desc := None; fn := None; ctx := 0 |}.

Definition kMaxCommands : nat := 64.
Definition kMaxArgs : Z := 32.

Record CommandRegistry := {
  entries_ : list CmdEntry;
  count_ : nat
}.

(** A default-constructed registry. *)
Definition registry_init : CommandRegistry :=
  {| entries_ := replicate kMaxCommands entry_zero; count_ := 0 |}.

(** [strcmp(e.name, nm) == 0].  Entries below [count_] always carry a name;
    the [None] case only makes the function total. *)
Definition name_is (nm : list Z) (e : CmdEntry) : bool :=
  match name e with
  | Some n => streq n nm
  | None => false
  end.

(** [for (i = 0; i < count_; ++i) if (strcmp(entries_[i].name, nm) == 0) ...]:
    the first index below [count_] whose name matches, with its entry. *)
Definition find_entry (r : CommandRegistry) (nm : list Z)
    : option (nat * CmdEntry) :=
  list_find (λ e, name_is nm e = true) (take (count_ r) (entries_ r)).

(** [Register(name, desc, fn, ctx)]: the returned [bool] and the registry
    afterwards. *)
Definition Register (nm : option (list Z)) (ds : option (list Z))
    (f : option CmdFn) (cx : Z) (r : CommandRegistry)
    : bool * CommandRegistry :=
  match nm, f with
  | Some n, Some _ =>
      if bool_decide (kMaxCommands ≤ count_ r) then (false, r)
      else if bool_decide (is_Some (find_entry r n)) then (false, r)
      else (true,
            {| entries_ :=
                 <[count_ r := {| name := nm; desc := ds; fn := f; ctx := cx |}]>
                   (entries_ r);
               count_ := S (count_ r) |})
  | _, _ => (false, r)
  end.

(** [FindByName(name)]. *)
Definition FindByName (r : CommandRegistry) (nm : option (list Z))
    : option CmdEntry :=
  match nm with
  | None => None
  | Some n => snd <$> find_entry r n
  end.

Definition Count (r : CommandRegistry) : nat := count_ r.

(** One call of the output callback: the buffer handed over and the length
    argument. *)
Definition OutCall : Type := list Z * Z.

(** One call of a handler. *)
Record HandlerCall := {
  hc_index : nat;
  hc_argc : Z;
  hc_argv : list (list Z);
  hc_ctx : Z;
  hc_ret : Z
}.

Definition help_header : list Z := chars "Available commands:" ++ CRLF.

(** [%-16s]: left justified in a field of at least 16. *)
Definition pad16 (s : list Z) : list Z := s ++ replicate (16 - length s) 32%Z.

(** The text ["  %-16s - %s\r\n"] formats for an entry. *)
Definition help_line (e : CmdEntry) : list Z :=
  chars "  " ++ pad16 (c_str (default [] (name e))) ++ chars " - "
  ++ c_str (default [] (desc e)) ++ CRLF.

(** [n = snprintf(buf, sizeof(buf), ...); if (n > 0) output_fn(buf, n, ctx)]
    with a 128 byte [buf]. *)
Definition emit128 (text : list Z) : list OutCall :=
  let '(buf, n) := snprintf 128 text in
  if (0 <? n)%Z then [(buf, n)] else [].

(** [PrintHelp(output_fn, output_ctx)]: the calls of [output_fn]. *)
Definition PrintHelp (r : CommandRegistry) (output_given : bool)
    : list OutCall :=
  if negb output_given then []
  else (help_header ++ [NUL], Z.of_nat (strlen help_header))
       :: (take (count_ r) (entries_ r) ≫= λ e, emit128 (help_line e)).

Definition unknown_line (arg0 : list Z) : list Z :=
  chars "Unknown command: " ++ arg0 ++ CRLF.

(** What a call of [Execute] does: the returned [int], the calls of
    [output_fn] in order and the handler call, if one was made. *)
Record ExecResult := {
  ex_ret : Z;
  ex_out : list OutCall;
  ex_call : option HandlerCall
}.

(** [Execute(cmdline, output_fn, output_ctx)].  In the handler call the
    [None] case for [fn] is never taken on a registry filled by [Register]. *)
Definition Execute (r : CommandRegistry) (cmdline : option (list Z))
    (output_given : bool) : ExecResult :=
  match cmdline with
  | None => {| ex_ret := -2; ex_out := []; ex_call := None |}
  | Some buf =>
      let sr := ShellSplit (Some buf) true kMaxArgs in
      let argc := sr_ret sr in
      if (argc <? 0)%Z then {| ex_ret := -2; ex_out := []; ex_call := None |}
      else if (argc =? 0)%Z then {| ex_ret := 0; ex_out := []; ex_call := None |}
      else
        let argv := sr_args sr in
        let arg0 := default [] (argv !! 0) in
        if streq arg0 (chars "help") then
          {| ex_ret := 0; ex_out := PrintHelp r output_given;
             ex_call := None |}
        else
          match find_entry r arg0 with
          | Some (i, e) =>
              let rc := match fn e with
                        | Some f => f argc argv (ctx e)
                        | None => 0%Z
                        end in
              {| ex_ret := rc; ex_out := [];
                 ex_call := Some {| hc_index := i; hc_argc := argc;
                                    hc_argv := argv; hc_ctx := ctx e;
                                    hc_ret := rc |} |}
          | None =>
              {| ex_ret := -1;
                 ex_out := if output_given then emit128 (unknown_line arg0)
                           else [];
                 ex_call := None |}
          end
  end.

(* ===================================================================== *)
(** ** The session ([TelnetSession]) *)
(* ===================================================================== *)

Record SessionConfig := {
  username : option (list Z);
  password : option (list Z);
  prompt : option (list Z);
  banner : option (list Z)
}.

Inductive Auth := kNeedUser | kNeedPass | kAuthorized.
Inductive ArrowPhase := kNone | kEsc | kBracket.

Definition kMaxCmdLen : nat := 256.
Definition kHistorySize : nat := 16.
Definition kUserBufLen : nat := 64.

(** The member data.  [registry_] records whether the pointer is non-null;
    the registry it points to is passed to the functions that use it.
    [sent_] is not a member: it collects the bytes handed to [::send]. *)
Record TelnetSession := {
  sock_fd_ : Z;
  running_ : bool;
  registry_ : bool;
  config_ : SessionConfig;
  iac_ : IacState;
  auth_ : Auth;
  user_buf_ : list Z;
  arrow_ : ArrowPhase;
  cmd_buf_ : list Z;
  cmd_len_ : nat;
  history_ : list (list Z);
  history_count_ : nat;
  history_write_ : nat;
  history_nav_ : Z;
  output_paused_ : bool;
  sent_ : list Z
}.

Definition set_sock_fd (v : Z) (s : TelnetSession) : TelnetSession :=
  {| sock_fd_ := v; running_ := running_ s; registry_ := registry_ s;
     config_ := config_ s; iac_ := iac_ s; auth_ := auth_ s;
     user_buf_ := user_buf_ s; arrow_ := arrow_ s; cmd_buf_ := cmd_buf_ s;
     cmd_len_ := cmd_len_ s; history_ := history_ s;
     history_count_ := history_count_ s; history_write_ := history_write_ s;
     history_nav_ := history_nav_ s; output_paused_ := output_paused_ s;
     sent_ := sent_ s |}.

Definition set_running (v : bool) (s : TelnetSession) : TelnetSession :=
  {| sock_fd_ := sock_fd_ s; running_ := v; registry_ := registry_ s;
     config_ := config_ s; iac_ := iac_ s; auth_ := auth_ s;
     user_buf_ := user_buf_ s; arrow_ := arrow_ s; cmd_buf_ := cmd_buf_ s;
     cmd_len_ := cmd_len_ s; history_ := history_ s;
     history_count_ := history_count_ s; history_write_ := history_write_ s;
     history_nav_ := history_nav_ s; output_paused_ := output_paused_ s;
     sent_ := sent_ s |}.

Definition set_iac (v : IacState) (s : TelnetSession) : TelnetSession :=
  {| sock_fd_ := sock_fd_ s; running_ := running_ s; registry_ := registry_ s;
     config_ := config_ s; iac_ := v; auth_ := auth_ s;
     user_buf_ := user_buf_ s; arrow_ := arrow_ s; cmd_buf_ := cmd_buf_ s;
     cmd_len_ := cmd_len_ s; history_ := history_ s;
     history_count_ := history_count_ s; history_write_ := history_write_ s;
     history_nav_ := history_nav_ s; output_paused_ := output_paused_ s;
     sent_ := sent_ s |}.

Definition set_auth (v : Auth) (s : TelnetSession) : TelnetSession :=
  {| sock_fd_ := sock_fd_ s; running_ := running_ s; registry_ := registry_ s;
     config_ := config_ s; iac_ := iac_ s; auth_ := v;
     user_buf_ := user_buf_ s; arrow_ := arrow_ s; cmd_buf_ := cmd_buf_ s;
     cmd_len_ := cmd_len_ s; history_ := history_ s;
     history_count_ := history_count_ s; history_write_ := history_write_ s;
     history_nav_ := history_nav_ s; output_paused_ := output_paused_ s;
     sent_ := sent_ s |}.

Definition set_user_buf (v : list Z) (s : TelnetSession) : TelnetSession :=
  {| sock_fd_ := sock_fd_ s; running_ := running_ s; registry_ := registry_ s;
     config_ := config_ s; iac_ := iac_ s; auth_ := auth_ s;
     user_buf_ := v; arrow_ := arrow_ s; cmd_buf_ := cmd_buf_ s;
     cmd_len_ := cmd_len_ s; history_ := history_ s;
     history_count_ := history_count_ s; history_write_ := history_write_ s;
     history_nav_ := history_nav_ s; output_paused_ := output_paused_ s;
     sent_ := sent_ s |}.

Definition set_arrow (v : ArrowPhase) (s : TelnetSession) : TelnetSession :=
  {| sock_fd_ := sock_fd_ s; running_ := running_ s; registry_ := registry_ s;
     config_ := config_ s; iac_ := iac_ s; auth_ := auth_ s;
     user_buf_ := user_buf_ s; arrow_ := v; cmd_buf_ := cmd_buf_ s;
     cmd_len_ := cmd_len_ s; history_ := history_ s;
     history_count_ := history_count_ s; history_write_ := history_write_ s;
     history_nav_ := history_nav_ s; output_paused_ := output_paused_ s;
     sent_ := sent_ s |}.

Definition set_cmd_buf (v : list Z) (s : TelnetSession) : TelnetSession :=
  {| sock_fd_ := sock_fd_ s; running_ := running_ s; registry_ := registry_ s;
     config_ := config_ s; iac_ := iac_ s; auth_ := auth_ s;
     user_buf_ := user_buf_ s; arrow_ := arrow_ s; cmd_buf_ := v;
     cmd_len_ := cmd_len_ s; history_ := history_ s;
     history_count_ := history_count_ s; history_write_ := history_write_ s;
     history_nav_ := history_nav_ s; output_paused_ := output_paused_ s;
     sent_ := sent_ s |}.

Definition set_cmd_len (v : nat) (s : TelnetSession) : TelnetSession :=
  {| sock_fd_ := sock_fd_ s; running_ := running_ s; registry_ := registry_ s;
     config_ := config_ s; iac_ := iac_ s; auth_ := auth_ s;
     user_buf_ := user_buf_ s; arrow_ := arrow_ s; cmd_buf_ := cmd_buf_ s;
     cmd_len_ := v; history_ := history_ s;
     history_count_ := history_count_ s; history_write_ := history_write_ s;
     history_nav_ := history_nav_ s; output_paused_ := output_paused_ s;
     sent_ := sent_ s |}.

Definition set_history (v : list (list Z)) (s : TelnetSession) : TelnetSession :=
  {| sock_fd_ := sock_fd_ s; running_ := running_ s; registry_ := registry_ s;
     config_ := config_ s; iac_ := iac_ s; auth_ := auth_ s;
     user_buf_ := user_buf_ s; arrow_ := arrow_ s; cmd_buf_ := cmd_buf_ s;
     cmd_len_ := cmd_len_ s; history_ := v;
     history_count_ := history_count_ s; history_write_ := history_write_ s;
     history_nav_ := history_nav_ s; output_paused_ := output_paused_ s;
     sent_ := sent_ s |}.

Definition set_history_count (v : nat) (s : TelnetSession) : TelnetSession :=
  {| sock_fd_ := sock_fd_ s; running_ := running_ s; registry_ := registry_ s;
     config_ := config_ s; iac_ := iac_ s; auth_ := auth_ s;
     user_buf_ := user_buf_ s; arrow_ := arrow_ s; cmd_buf_ := cmd_buf_ s;
     cmd_len_ := cmd_len_ s; history_ := history_ s;
     history_count_ := v; history_write_ := history_write_ s;
     history_nav_ := history_nav_ s; output_paused_ := output_paused_ s;
     sent_ := sent_ s |}.

Definition set_history_write (v : nat) (s : TelnetSession) : TelnetSession :=
  {| sock_fd_ := sock_fd_ s; running_ := running_ s; registry_ := registry_ s;
     config_ := config_ s; iac_ := iac_ s; auth_ := auth_ s;
     user_buf_ := user_buf_ s; arrow_ := arrow_ s; cmd_buf_ := cmd_buf_ s;
     cmd_len_ := cmd_len_ s; history_ := history_ s;
     history_count_ := history_count_ s; history_write_ := v;
     history_nav_ := history_nav_ s; output_paused_ := output_paused_ s;
     sent_ := sent_ s |}.

Definition set_history_nav (v : Z) (s : TelnetSession) : TelnetSession :=
  {| sock_fd_ := sock_fd_ s; running_ := running_ s; registry_ := registry_ s;
     config_ := config_ s; iac_ := iac_ s; auth_ := auth_ s;
     user_buf_ := user_buf_ s; arrow_ := arrow_ s; cmd_buf_ := cmd_buf_ s;
     cmd_len_ := cmd_len_ s; history_ := history_ s;
     history_count_ := history_count_ s; history_write_ := history_write_ s;
     history_nav_ := v; output_paused_ := output_paused_ s;
     sent_ := sent_ s |}.

Definition set_output_paused (v : bool) (s : TelnetSession) : TelnetSession :=
  {| sock_fd_ := sock_fd_ s; running_ := running_ s; registry_ := registry_ s;
     config_ := config_ s; iac_ := iac_ s; auth_ := auth_ s;
     user_buf_ := user_buf_ s; arrow_ := arrow_ s; cmd_buf_ := cmd_buf_ s;
     cmd_len_ := cmd_len_ s; history_ := history_ s;
     history_count_ := history_count_ s; history_write_ := history_write_ s;
     history_nav_ := history_nav_ s; output_paused_ := v;
     sent_ := sent_ s |}.

Definition set_sent (v : list Z) (s : TelnetSession) : TelnetSession :=
  {| sock_fd_ := sock_fd_ s; running_ := running_ s; registry_ := registry_ s;
     config_ := config_ s; iac_ := iac_ s; auth_ := auth_ s;
     user_buf_ := user_buf_ s; arrow_ := arrow_ s; cmd_buf_ := cmd_buf_ s;
     cmd_len_ := cmd_len_ s; history_ := history_ s;
     history_count_ := history_count_ s; history_write_ := history_write_ s;
     history_nav_ := history_nav_ s; output_paused_ := output_paused_ s;
     sent_ := v |}.

(** [Init(fd, registry, cfg)].  Every member is overwritten; only the record
    of what was sent so far survives. *)
Definition Init (fd : Z) (cfg : SessionConfig) (s : TelnetSession)
    : TelnetSession :=
  {| sock_fd_ := fd; running_ := true; registry_ := true; config_ := cfg;
     iac_ := iac_init;
     auth_ := match username cfg, password cfg with
              | Some _, Some _ => kNeedUser
              | _, _ => kAuthorized
              end;
     user_buf_ := zeros kUserBufLen;
     arrow_ := kNone;
     cmd_buf_ := zeros kMaxCmdLen; cmd_len_ := 0;
     history_ := replicate kHistorySize (zeros kMaxCmdLen);
     history_count_ := 0; history_write_ := 0; history_nav_ := -1;
     output_paused_ := false;
     sent_ := sent_ s |}.

Definition banner_rule : list Z :=
  chars "*===========================================================*".

(** The default of [SessionConfig::banner]. *)
Definition default_banner : list Z :=
  banner_rule ++ CRLF ++ chars "  telsh v1.0 -- Embedded Debug Shell" ++ CRLF
  ++ banner_rule ++ CRLF ++ [NUL].

(** A default-constructed session (the member initialisers). *)
Definition session_new : TelnetSession :=
  {| sock_fd_ := -1; running_ := false; registry_ := false;
     config_ := {| username := None; password := None;
                   prompt := Some (chars "telsh> " ++ [NUL]);
                   banner := Some default_banner |};
     iac_ := iac_init; auth_ := kAuthorized;
     user_buf_ := zeros kUserBufLen; arrow_ := kNone;
     cmd_buf_ := zeros kMaxCmdLen; cmd_len_ := 0;
     history_ := replicate kHistorySize (zeros kMaxCmdLen);
     history_count_ := 0; history_write_ := 0; history_nav_ := -1;
     output_paused_ := false; sent_ := [] |}.

(** [Send(data, len)].  [::send] is given [len] bytes from [data]; what
    lies behind the end of the array [data] points to is not modelled, so
    no more than the array is recorded. *)
Definition Send (data : option (list Z)) (len : nat) (s : TelnetSession)
    : TelnetSession :=
  match data with
  | None => s
  | Some d =>
      if (len =? 0) || (sock_fd_ s <? 0)%Z then s
      else if output_paused_ s then s
      else set_sent (sent_ s ++ take len d) s
  end.

(** [SendStr(str)]. *)
Definition SendStr (str : option (list Z)) (s : TelnetSession)
    : TelnetSession :=
  match str with
  | None => s
  | Some d => Send (Some d) (strlen d) s
  end.

(** [SendIac(cmd, opt)]. *)
Definition SendIac (cmd opt : Z) (s : TelnetSession) : TelnetSession :=
  Send (Some [kIAC; cmd; opt]) 3 s.

(** [Stop()]; the socket shutdown itself is outside the model. *)
Definition Stop (s : TelnetSession) : TelnetSession := set_running false s.

(** [Close()]. *)
Definition Close (s : TelnetSession) : TelnetSession :=
  if (0 <=? sock_fd_ s)%Z then set_sock_fd (-1) s else s.

Definition msg_user_prompt : list Z := chars "username: ".
Definition msg_pass_prompt : list Z := chars "password: ".
Definition msg_login_ok : list Z := chars "Login OK." ++ CRLF.
Definition msg_login_failed : list Z := chars "Login failed." ++ CRLF.
Definition msg_bye : list Z := chars "Bye." ++ CRLF.
Definition msg_erase : list Z := [8%Z; 32%Z; 8%Z].

(** [ShowPrompt()]. *)
Definition ShowPrompt (s : TelnetSession) : TelnetSession :=
  match auth_ s with
  | kNeedUser => SendStr (Some msg_user_prompt) s
  | kNeedPass => SendStr (Some msg_pass_prompt) s
  | kAuthorized => SendStr (prompt (config_ s)) s
  end.

(** [PushHistory(cmd)]. *)
Definition PushHistory (cmd : option (list Z)) (s : TelnetSession)
    : TelnetSession :=
  match cmd with
  | None => s
  | Some c =>
      if (rd c 0 =? 0)%Z then s
      else
        let prev := (history_write_ s + kHistorySize - 1) mod kHistorySize in
        if (0 <? history_count_ s)
           && streq (default [] (history_ s !! prev)) c
        then s
        else
          let w := history_write_ s in
          let row := <[kMaxCmdLen - 1 := NUL]>
                       (strncpy (default [] (history_ s !! w)) c
                                (kMaxCmdLen - 1)) in
          let s1 := set_history (<[w := row]> (history_ s)) s in
          let s2 := set_history_write ((w + 1) mod kHistorySize) s1 in
          if history_count_ s2 <? kHistorySize
          then set_history_count (S (history_count_ s2)) s2
          else s2
  end.

(** [GetHistory(index)]: the row the returned pointer designates. *)
Definition GetHistory (index : Z) (s : TelnetSession) : option (list Z) :=
  if (index <? 0)%Z || (Z.of_nat (history_count_ s) <=? index)%Z then None
  else
    let pos := (history_write_ s + kHistorySize - 1 - Z.to_nat index)
                 mod kHistorySize in
    Some (default [] (history_ s !! pos)).

(** [strcmp(a, b) == 0] where [b] may be a null pointer; the code only
    compares against the configured credentials once both are set. *)
Definition streq_opt (a : list Z) (b : option (list Z)) : bool :=
  match b with
  | Some b' => streq a b'
  | None => false
  end.

(** [CheckAuth()]. *)
Definition CheckAuth (s : TelnetSession) : TelnetSession :=
  match auth_ s with
  | kNeedUser =>
      let ub := <[kUserBufLen - 1 := NUL]>
                  (strncpy (user_buf_ s) (cmd_buf_ s) (kUserBufLen - 1)) in
      set_auth kNeedPass (set_user_buf ub s)
  | kNeedPass =>
      if streq_opt (user_buf_ s) (username (config_ s))
         && streq_opt (cmd_buf_ s) (password (config_ s))
      then SendStr (Some msg_login_ok) (set_auth kAuthorized s)
      else set_user_buf (zeros kUserBufLen)
             (set_auth kNeedUser (SendStr (Some msg_login_failed) s))
  | kAuthorized => s
  end.

(** [SessionOutput(str, len, this)] for one call of the output callback. *)
Definition SessionOutput (call : OutCall) (s : TelnetSession)
    : TelnetSession :=
  Send (Some (fst call)) (Z.to_nat (snd call)) s.

(** [ExecuteCommand()].  What a handler does besides returning its status is
    outside the session. *)
Definition ExecuteCommand (reg : CommandRegistry) (s : TelnetSession)
    : TelnetSession :=
  let s1 := PushHistory (Some (cmd_buf_ s)) s in
  if streq (cmd_buf_ s1) (chars "exit") || streq (cmd_buf_ s1) (chars "quit")
  then Stop (SendStr (Some msg_bye) s1)
  else
    let exec_buf := <[kMaxCmdLen - 1 := NUL]>
                      (strncpy (zeros kMaxCmdLen) (cmd_buf_ s1)
                               (kMaxCmdLen - 1)) in
    foldl (λ acc call, SessionOutput call acc) s1
          (ex_out (Execute reg (Some exec_buf) true)).

(** The erasing loop of [ReplaceLineWith]:
    [while (cmd_len_ > 0) { --cmd_len_; Send("\b \b", 3); }] *)
Fixpoint erase_line (n : nat) (s : TelnetSession) : TelnetSession :=
  match n with
  | O => s
  | S n' => erase_line n' (Send (Some msg_erase) 3 (set_cmd_len n' s))
  end.

(** [ReplaceLineWith(text)]. *)
Definition ReplaceLineWith (text : option (list Z)) (s : TelnetSession)
    : TelnetSession :=
  let s1 := erase_line (cmd_len_ s) s in
  match text with
  | None => s1
  | Some t =>
      let len := if kMaxCmdLen <=? strlen t then kMaxCmdLen - 1
                 else strlen t in
      let buf := <[len := NUL]> (memcpy (cmd_buf_ s1) t len) in
      let s2 := set_cmd_len len (set_cmd_buf buf s1) in
      Send (Some (cmd_buf_ s2)) (cmd_len_ s2) s2
  end.

(** [HandleArrow(c)]. *)
Definition HandleArrow (c : Z) (s : TelnetSession) : TelnetSession :=
  match arrow_ s with
  | kEsc => set_arrow (if (c =? 91)%Z then kBracket else kNone) s
  | _ =>
      let s1 := set_arrow kNone s in
      if (c =? 65)%Z then
        let next := (history_nav_ s1 + 1)%Z in
        if (next <? Z.of_nat (history_count_ s1))%Z then
          let s2 := set_history_nav next s1 in
          ReplaceLineWith (GetHistory (history_nav_ s2) s2) s2
        else s1
      else if (c =? 66)%Z then
        if (0 <? history_nav_ s1)%Z then
          let s2 := set_history_nav (history_nav_ s1 - 1) s1 in
          ReplaceLineWith (GetHistory (history_nav_ s2) s2) s2
        else if (history_nav_ s1 =? 0)%Z then
          ReplaceLineWith (Some [NUL]) (set_history_nav (-1) s1)
        else s1
      else s1
  end.

(** [ProcessChar(c)]. *)
Definition ProcessChar (reg : CommandRegistry) (c : Z) (s : TelnetSession)
    : TelnetSession :=
  match arrow_ s with
  | kEsc | kBracket => HandleArrow c s
  | kNone =>
      if (c =? 27)%Z then set_arrow kEsc s
      else if (c =? 19)%Z then set_output_paused true s
      else if (c =? 17)%Z then set_output_paused false s
      else if (c =? 8)%Z || (c =? 127)%Z then
        if 0 <? cmd_len_ s then
          let s1 := set_cmd_len (cmd_len_ s - 1) s in
          let s2 := set_cmd_buf (<[cmd_len_ s1 := NUL]> (cmd_buf_ s1)) s1 in
          match auth_ s2 with
          | kNeedPass => s2
          | _ => Send (Some msg_erase) 3 s2
          end
        else s
      else if (c =? 13)%Z then
        let s1 := Send (Some CRLF) 2 s in
        let s2 := set_cmd_buf (<[cmd_len_ s1 := NUL]> (cmd_buf_ s1)) s1 in
        let s3 := match auth_ s2 with
                  | kAuthorized =>
                      if 0 <? cmd_len_ s2 then ExecuteCommand reg s2 else s2
                  | _ => CheckAuth s2
                  end in
        let s4 := set_cmd_buf (zeros kMaxCmdLen) (set_cmd_len 0 s3) in
        ShowPrompt (set_history_nav (-1) s4)
      else if (c =? 10)%Z then s
      else if cmd_len_ s <? kMaxCmdLen - 1 then
        let s1 := set_cmd_len (S (cmd_len_ s))
                    (set_cmd_buf (<[cmd_len_ s := c]> (cmd_buf_ s)) s) in
        let s2 := set_cmd_buf (<[cmd_len_ s1 := NUL]> (cmd_buf_ s1)) s1 in
        match auth_ s2 with
        | kNeedPass => Send (Some (chars "*")) 1 s2
        | _ => Send (Some [c]) 1 s2
        end
      else s
  end.

(** One iteration of the read loop of [Run] for a received [byte]. *)
Definition RunStep (reg : CommandRegistry) (byte : Z) (s : TelnetSession)
    : TelnetSession :=
  let '(iac', c) := FilterIac (iac_ s) byte in
  let s1 := set_iac iac' s in
  if (c =? 0)%Z then s1 else ProcessChar reg c s1.

(** The read loop over the bytes [recv] delivers before the peer closes. *)
Fixpoint RunLoop (reg : CommandRegistry) (input : list Z) (s : TelnetSession)
    : TelnetSession :=
  match input with
  | [] => s
  | b :: bs => if running_ s then RunLoop reg bs (RunStep reg b s) else s
  end.

(** [Run()]. *)
Definition Run (reg : CommandRegistry) (input : list Z) (s : TelnetSession)
    : TelnetSession :=
  if (sock_fd_ s <? 0)%Z || negb (registry_ s) then s
  else
    let s1 := SendIac kDO kOptSGA s in
    let s2 := SendIac kDO kOptNAWS s1 in
    let s3 := SendIac kWILL kOptEcho s2 in
    let s4 := SendIac kWILL kOptSGA s3 in
    let s5 := SendStr (banner (config_ s4)) s4 in
    Close (RunLoop reg input (ShowPrompt s5)).

(** *** The history as the specification words it

    The list of stored lines, most recent first: an empty line and a repeat
    of the most recent entry change nothing, anything else goes in front and
    the list is cut at the capacity.  An entry holds at most
    [kMaxCmdLen - 1] characters. *)
Definition history_push (line : list Z) (h : list (list Z))
    : list (list Z) :=
  if bool_decide (c_str line = []) then h
  else if bool_decide (head h = Some (c_str line)) then h
  else take kHistorySize (take (kMaxCmdLen - 1) (c_str line) :: h).

Definition history_log (lines : list (list Z)) : list (list Z) :=
  foldl (λ h l, history_push l h) [] lines.

Definition push_all (lines : list (list Z)) (s : TelnetSession)
    : TelnetSession :=
  foldl (λ acc l, PushHistory (Some l) acc) s lines.


(* ===================================================================== *)
(** ** Notions used to state the invariants *)
(* ===================================================================== *)

(** No NUL among the bytes. *)
Definition nonzero (l : list Z) : Prop := Forall (λ c, c ≠ 0%Z) l.

(** What follows a C string in memory: nothing the model knows of, or its
    terminator and whatever lies behind. *)
Definition ends (tl : list Z) : Prop := tl = [] ∨ ∃ tl', tl = 0%Z :: tl'.

(** The finished argument [t] sits at offset [o] of the processed part
    [pre] of the line, terminator included. *)
Definition closed_at (pre : list Z) (o : nat) (t : list Z) : Prop :=
  ∃ x, drop o pre = t ++ 0%Z :: x ∧ nonzero t.

(** The state of [ShellSplit] after the prefix [pre] of the buffer has
    been dealt with: [closed] are the arguments already terminated and
    [cur] is the one being read, which reaches up to the end of [pre]. *)
Definition split_inv (pre : list Z) (argv : list nat) (ia : bool)
    (closed : list (list Z)) (cur : option (list Z)) : Prop :=
  ∃ offs, Forall2 (closed_at pre) offs closed ∧
    match cur with
    | Some t => ia = true ∧ ∃ o, argv = offs ++ [o] ∧ o ≤ length pre ∧
                                 drop o pre = t ∧ nonzero t
    | None => ia = false ∧ argv = offs
    end.

(** What [ShellSplit] owes when [all] are the tokens of the line and it
    started with [argc0] of them already in [argv]: the count and the
    strings if they fit (or nothing was left to add), the overflow error if
    one more argument had to be added beyond [max_args]. *)
Definition split_post (max_args : Z) (argc0 : nat) (all : list (list Z))
    (r : SplitResult) : Prop :=
  ((Z.of_nat (length all) ≤ max_args)%Z ∨ argc0 = length all →
     sr_ret r = Z.of_nat (length all) ∧ sr_args r = all) ∧
  ((max_args < Z.of_nat (length all))%Z → argc0 < length all →
     sr_ret r = (-1)%Z).

(** The registered entries, in registration order. *)
Definition live (r : CommandRegistry) : list CmdEntry :=
  take (count_ r) (entries_ r).

(** The representation invariant of the registry: the array has its 64
    slots, the count stays within it, and every registered entry has a name
    and a handler. *)
Definition registry_wf (r : CommandRegistry) : Prop :=
  length (entries_ r) = kMaxCommands ∧ count_ r ≤ kMaxCommands ∧
  Forall (λ e, is_Some (name e) ∧ is_Some (fn e)) (live r).

(** [Execute] read off the tokens of the line. *)
Definition Execute_tokens (r : CommandRegistry) (toks : list (list Z))
    (output_given : bool) : ExecResult :=
  match toks with
  | [] => {| ex_ret := 0; ex_out := []; ex_call := None |}
  | arg0 :: _ =>
      if bool_decide (Z.of_nat (length toks) ≤ kMaxArgs)%Z then
        if streq arg0 (chars "help") then
          {| ex_ret := 0; ex_out := PrintHelp r output_given;
             ex_call := None |}
        else
          match find_entry r arg0 with
          | Some (i, e) =>
              let rc := match fn e with
                        | Some f => f (Z.of_nat (length toks)) toks (ctx e)
                        | None => 0%Z
                        end in
              {| ex_ret := rc; ex_out := [];
                 ex_call := Some {| hc_index := i;
                                    hc_argc := Z.of_nat (length toks);
                                    hc_argv := toks; hc_ctx := ctx e;
                                    hc_ret := rc |} |}
          | None =>
              {| ex_ret := -1;
                 ex_out := if output_given then emit128 (unknown_line arg0)
                           else [];
                 ex_call := None |}
          end
      else {| ex_ret := -2; ex_out := []; ex_call := None |}
  end.

(** The help line of an entry fits the 128 byte buffer of [PrintHelp]. *)
Definition help_fits (e : CmdEntry) : Prop :=
  length (help_line e) ≤ 127.

(* ===================================================================== *)
(** ** Registries and lines used in the examples *)
(* ===================================================================== *)



(** A description of 120 characters. *)
Definition long_desc : list Z := replicate 120 100%Z.

(** A registry holding one command, "x", with that description. *)
Definition long_desc_registry : CommandRegistry :=
  snd (Register (Some (chars "x" ++ [NUL])) (Some (long_desc ++ [NUL]))
                (Some (λ _ _ _, 0%Z)) 0%Z registry_init).

(** The registry of the test "execute command": "ok" returns 0 and "fail"
    returns 42. *)
Definition test_registry : CommandRegistry :=
  snd (Register (Some (chars "fail" ++ [NUL]))
                (Some (chars "returns 42" ++ [NUL])) (Some (λ _ _ _, 42%Z)) 0%Z
         (snd (Register (Some (chars "ok" ++ [NUL]))
                        (Some (chars "returns 0" ++ [NUL]))
                        (Some (λ _ _ _, 0%Z)) 0%Z registry_init))).

(* ===================================================================== *)
(** ** Invariants of the session *)
(* ===================================================================== *)

(** The line buffer has its 256 bytes, holds at most 255 characters and is
    terminated at its length. *)
Definition line_wf (s : TelnetSession) : Prop :=
  length (cmd_buf_ s) = kMaxCmdLen ∧ cmd_len_ s ≤ kMaxCmdLen - 1 ∧
  cmd_buf_ s !! cmd_len_ s = Some 0%Z.

(** The history cursor is -1 or designates a stored entry. *)
Definition nav_wf (s : TelnetSession) : Prop :=
  (-1 ≤ history_nav_ s < Z.of_nat (history_count_ s))%Z.

Definition editor_wf (s : TelnetSession) : Prop := line_wf s ∧ nav_wf s.

(** The bytes [ProcessChar] treats as ordinary text outside an escape
    sequence: all but ESC, Ctrl+S, Ctrl+Q, backspace, DEL, CR and LF. *)
Definition plain_byte (c : Z) : bool :=
  negb ((c =? 27)%Z || (c =? 19)%Z || (c =? 17)%Z || (c =? 8)%Z
        || (c =? 127)%Z || (c =? 13)%Z || (c =? 10)%Z).

(** The byte echoed for a typed [c]. *)
Definition echo_of (s : TelnetSession) (c : Z) : Z :=
  match auth_ s with
  | kNeedPass => 42%Z
  | _ => c
  end.

(** The line buffer after [c] is appended. *)
Definition line_append (c : Z) (s : TelnetSession) : TelnetSession :=
  set_cmd_buf (<[S (cmd_len_ s) := 0%Z]> (<[cmd_len_ s := c]> (cmd_buf_ s)))
    (set_cmd_len (S (cmd_len_ s)) s).

(** The history array has its 16 rows of 256 bytes and its cursors are in
    range. *)
Definition history_wf (s : TelnetSession) : Prop :=
  length (history_ s) = kHistorySize ∧
  Forall (λ row, length row = kMaxCmdLen) (history_ s) ∧
  history_count_ s ≤ kHistorySize ∧ history_write_ s < kHistorySize.

(** The ring buffer of [s] stores the lines [h], most recent first. *)
Definition history_rep (s : TelnetSession) (h : list (list Z)) : Prop :=
  history_wf s ∧ length h = history_count_ s ∧
  ∀ i : nat, c_str <$> GetHistory (Z.of_nat i) s = h !! i.

(** A session configured with the credentials "admin" / "secret". *)
Definition auth_config : SessionConfig :=
  {| username := Some (chars "admin" ++ [NUL]);
     password := Some (chars "secret" ++ [NUL]);
     prompt := Some (chars "> " ++ [NUL]); banner := None |}.

Definition open_config : SessionConfig :=
  {| username := None; password := None;
     prompt := Some (chars "> " ++ [NUL]); banner := None |}.

(** Typing [text] and pressing Enter. *)
Definition typed (text : string) : list Z := chars text ++ [13%Z].

(** No line of the list repeats the one before it. *)
Definition no_adjacent_dup (lines : list (list Z)) : Prop :=
  ∀ i a b, lines !! i = Some a → lines !! S i = Some b → a ≠ b.

(** A line as the line editor hands it to the history: a non-empty C string
    of at most 255 characters. *)
Definition history_line (l : list Z) : Prop :=
  nonzero l ∧ l ≠ [] ∧ length l ≤ kMaxCmdLen - 1.

(** The members the line editor invariant speaks about. *)
Definition editor_fields (s : TelnetSession) : list Z * nat * Z * nat :=
  (cmd_buf_ s, cmd_len_ s, history_nav_ s, history_count_ s).

(** The line editor fed characters one after the other. *)
Definition process_all (reg : CommandRegistry) (cs : list Z)
    (s : TelnetSession) : TelnetSession :=
  foldl (λ acc c, ProcessChar reg c acc) s cs.

(* ===================================================================== *)
(** ** Further functions of the registry *)
(* ===================================================================== *)

(** [ForEach(visitor)]: the visitor is called on the registered entries in
    registration order; [acc] stands for what the visitor captures. *)
Definition ForEach {A : Type} (visitor : A → CmdEntry → A) (acc : A)
    (r : CommandRegistry) : A :=
  foldl visitor acc (take (count_ r) (entries_ r)).

(** [CmdAutoReg(name, desc, fn, ctx)]: the constructor registers the command
    and drops the answer of [Register]. *)
Definition CmdAutoReg (nm : option (list Z)) (ds : option (list Z))
    (f : option CmdFn) (cx : Z) (r : CommandRegistry) : CommandRegistry :=
  snd (Register nm ds f cx r).

(** The arguments of one [Register] call. *)
Record RegCall := {
  rc_name : option (list Z);
  rc_desc : option (list Z);
  rc_fn : option CmdFn;
  rc_ctx : Z
}.

(** A run of static registrations, in order. *)
Definition auto_register (calls : list RegCall) (r : CommandRegistry)
    : CommandRegistry :=
  foldl (λ acc q, CmdAutoReg (rc_name q) (rc_desc q) (rc_fn q) (rc_ctx q) acc)
        r calls.

(** No two registered entries carry the same name. *)
Definition names_unique (r : CommandRegistry) : Prop :=
  ∀ i j ei ej ni nj,
    live r !! i = Some ei → live r !! j = Some ej →
    name ei = Some ni → name ej = Some nj →
    c_str ni = c_str nj → i = j.


(* ===================================================================== *)
(** ** Notions used in the further properties *)
(* ===================================================================== *)

(** A well-formed call of the output callback: a positive length argument,
    a buffer of at most 128 bytes with the terminator of its string inside,
    a length argument that is not below the length of the string and equals
    it when it fits the buffer. *)
Definition out_call_ok (call : OutCall) : Prop :=
  (0 < snd call)%Z ∧ length (fst call) ≤ 128 ∧
  strlen (fst call) < length (fst call) ∧
  (Z.of_nat (strlen (fst call)) ≤ snd call)%Z ∧
  ((snd call ≤ 127)%Z → Z.of_nat (strlen (fst call)) = snd call).

(** The offsets are strictly increasing. *)
Definition increasing (l : list nat) : Prop :=
  ∀ i j a b, l !! i = Some a → l !! j = Some b → i < j → a < b.

(** What [ShellSplit] leaves of a buffer whose string has [n] bytes and is
    followed by [tl] (from the terminator on), when [argv] has room for [m]
    pointers: the buffer keeps its size and its tail, at most [m] pointers
    are stored, they increase and point into the string, and the returned
    count is the number of pointers stored unless it is the error code. *)
Definition split_safe (n : nat) (tl : list Z) (m : Z) (r : SplitResult)
    : Prop :=
  (∃ body, sr_buf r = body ++ tl ∧ length body = n) ∧
  (Z.of_nat (length (sr_argv r)) ≤ m)%Z ∧
  Forall (λ o, o < n) (sr_argv r) ∧
  increasing (sr_argv r) ∧
  (sr_ret r = (-1)%Z ∨ sr_ret r = Z.of_nat (length (sr_argv r))).

(** How a telnet peer writes data bytes: an IAC byte is doubled. *)
Definition iac_escape (data : list Z) : list Z :=
  data ≫= λ b, if (b =? kIAC)%Z then [kIAC; kIAC] else [b].

(** Two decoder states that [FilterIac] cannot tell apart: the same phase,
    and the same previous byte where the phase reads it. *)
Definition iac_same (a b : IacState) : Prop :=
  phase a = phase b ∧ (phase a = kSub → prev_byte a = prev_byte b).

(** The characters of the line being edited. *)
Definition line_text (s : TelnetSession) : list Z :=
  take (cmd_len_ s) (cmd_buf_ s).

(** [TelnetSession::Printf(fmt, ...)], where [text] is what the format
    produces and [None] is a null [fmt].  The text goes through a 512 byte
    buffer. *)
Definition Printf (text : option (list Z)) (s : TelnetSession)
    : TelnetSession :=
  match text with
  | None => s
  | Some t =>
      if (sock_fd_ s <? 0)%Z then s
      else
        let '(buf, len) := snprintf 512 t in
        if (0 <? len)%Z then Send (Some buf) (Z.to_nat len) s else s
  end.

(** The text [ShowPrompt] sends. *)
Definition prompt_text (s : TelnetSession) : list Z :=
  match auth_ s with
  | kNeedUser => msg_user_prompt
  | kNeedPass => msg_pass_prompt
  | kAuthorized => c_str (default [] (prompt (config_ s)))
  end.

(** The session transmits: the socket is open and the output is not
    paused. *)
Definition sending (s : TelnetSession) : Prop :=
  (0 ≤ sock_fd_ s)%Z ∧ output_paused_ s = false.

(** What goes on the wire for the help line of an entry: the line, or its
    first 127 characters and the terminator of the buffer when it does not
    fit. *)
Definition help_sent (e : CmdEntry) : list Z :=
  if decide (length (help_line e) ≤ 127) then help_line e
  else take 127 (help_line e) ++ [NUL].

(* ===================================================================== *)
(** ** The server ([TelnetServer], include/telsh/telnet_server.hpp) *)
(* ===================================================================== *)

(** [struct ServerConfig].  The members that [SessionConfig] also has carry
    the prefix [srv_]. *)
Record ServerConfig := {
  port : Z;
  srv_username : option (list Z);
  srv_password : option (list Z);
  srv_prompt : option (list Z);
  srv_banner : option (list Z);
  max_sessions : nat
}.

Definition kMaxSessions : nat := 8.

(** [struct SessionSlot].  [thread] records whether the [std::thread] member
    is joinable. *)
Record SessionSlot := {
  session : TelnetSession;
  thread : bool;
  active : bool
}.

(** The member data of [TelnetServer]; [running_] and [config_] carry the
    prefix [srv_] to keep them apart from the members of the session.  The
    registry the server points to is passed to the functions that use it. *)
Record TelnetServer := {
  listen_fd_ : Z;
  srv_running_ : bool;
  srv_config_ : ServerConfig;
  slots_ : list SessionSlot
}.

Definition set_slots (v : list SessionSlot) (sv : TelnetServer)
    : TelnetServer :=
  {| listen_fd_ := listen_fd_ sv; srv_running_ := srv_running_ sv;
     srv_config_ := srv_config_ sv; slots_ := v |}.

(** A constructed server: no listening socket, every slot unused. *)
Definition server_new (config : ServerConfig) : TelnetServer :=
  {| listen_fd_ := -1; srv_running_ := false; srv_config_ := config;
     slots_ := replicate kMaxSessions
                 {| session := session_new; thread := false;
                    active := false |} |}.

(** The bound of the loop of [FindFreeSlot]:
    [i < config_.max_sessions && i < kMaxSessions]. *)
Definition slot_limit (sv : TelnetServer) : nat :=
  min (max_sessions (srv_config_ sv)) kMaxSessions.

(** [FindFreeSlot()]: the returned [int32_t] and the server afterwards.
    The thread of the slot found is joined if it is joinable, so it is not
    joinable afterwards. *)
Definition FindFreeSlot (sv : TelnetServer) : Z * TelnetServer :=
  match list_find (λ sl, active sl = false)
                  (take (slot_limit sv) (slots_ sv)) with
  | Some (i, sl) =>
      (Z.of_nat i,
       set_slots (<[i := {| session := session sl; thread := false;
                            active := active sl |}]> (slots_ sv)) sv)
  | None => ((-1)%Z, sv)
  end.

Definition msg_server_full : list Z := chars "Server full." ++ CRLF.

(** The session configuration [AcceptLoop] builds: the default banner stays
    unless the server has one. *)
Definition session_config (c : ServerConfig) : SessionConfig :=
  {| username := srv_username c; password := srv_password c;
     prompt := srv_prompt c;
     banner := match srv_banner c with
               | Some b => Some b
               | None => Some default_banner
               end |}.

(** What one turn of [AcceptLoop] does with an accepted connection: it is
    turned away with a message, a session is started in a slot, or the
    process is terminated because a joinable [std::thread] is assigned
    to. *)
Inductive AcceptResult :=
| Rejected (sent : list Z)
| Started (idx : nat)
| Terminated.

(** The body of the loop of [AcceptLoop] for the accepted descriptor [fd]. *)
Definition AcceptOne (fd : Z) (sv : TelnetServer)
    : AcceptResult * TelnetServer :=
  let '(slot, sv1) := FindFreeSlot sv in
  if (slot <? 0)%Z then (Rejected msg_server_full, sv1)
  else
    let idx := Z.to_nat slot in
    match slots_ sv1 !! idx with
    | None => (Terminated, sv1)
    | Some sl =>
        if thread sl then (Terminated, sv1)
        else
          (Started idx,
           set_slots
             (<[idx := {| session := Init fd (session_config (srv_config_ sv1))
                                       (session sl);
                          thread := true; active := true |}]> (slots_ sv1))
             sv1)
    end.

(** [SessionLoop(idx)], where [input] is what the peer sends until it
    closes. *)
Definition SessionLoop (reg : CommandRegistry) (input : list Z) (idx : nat)
    (sv : TelnetServer) : TelnetServer :=
  match slots_ sv !! idx with
  | None => sv
  | Some sl =>
      set_slots (<[idx := {| session := Run reg input (session sl);
                             thread := thread sl; active := false |}]>
                   (slots_ sv)) sv
  end.

(** [Broadcast(data, len)]. *)
Definition Broadcast (data : option (list Z)) (len : nat) (sv : TelnetServer)
    : TelnetServer :=
  match data with
  | None => sv
  | Some d =>
      if len =? 0 then sv
      else set_slots
             ((λ sl, if active sl
                     then {| session := Send (Some d) len (session sl);
                             thread := thread sl; active := active sl |}
                     else sl) <$> slots_ sv) sv
  end.

(** What happens to a server, one thing at a time: a connection is
    accepted, the session thread of a slot runs to its end, a text is
    broadcast. *)
Inductive ServerEvent :=
| Connect (fd : Z)
| SessionEnds (idx : nat) (input : list Z)
| Broadcasts (data : option (list Z)) (len : nat).

(** One event.  [None] is the terminated process.  A session thread exists
    only for an active slot. *)
Definition server_step (reg : CommandRegistry) (ev : ServerEvent)
    (sv : TelnetServer) : option TelnetServer :=
  match ev with
  | Connect fd =>
      if (fd <? 0)%Z then Some sv
      else match AcceptOne fd sv with
           | (Terminated, _) => None
           | (_, sv') => Some sv'
           end
  | SessionEnds idx input =>
      match slots_ sv !! idx with
      | Some sl => if active sl then Some (SessionLoop reg input idx sv)
                   else Some sv
      | None => Some sv
      end
  | Broadcasts data len => Some (Broadcast data len sv)
  end.

Fixpoint server_run (reg : CommandRegistry) (evs : list ServerEvent)
    (sv : TelnetServer) : option TelnetServer :=
  match evs with
  | [] => Some sv
  | ev :: evs' =>
      match server_step reg ev sv with
      | Some sv' => server_run reg evs' sv'
      | None => None
      end
  end.

(** The invariant of the session pool: eight slots; an active slot lies
    below the limit, has a running thread and an open socket; a slot that is
    not active has its socket closed. *)
Definition slot_ok (limit : nat) (i : nat) (sl : SessionSlot) : Prop :=
  (active sl = true →
     i < limit ∧ thread sl = true ∧ (0 ≤ sock_fd_ (session sl))%Z ∧
     registry_ (session sl) = true) ∧
  (active sl = false → sock_fd_ (session sl) = (-1)%Z).

Definition server_wf (sv : TelnetServer) : Prop :=
  length (slots_ sv) = kMaxSessions ∧
  ∀ i sl, slots_ sv !! i = Some sl → slot_ok (slot_limit sv) i sl.

(** The number of active sessions. *)
Definition active_count (sv : TelnetServer) : nat :=
  length (filter (λ sl, active sl = true) (slots_ sv)).

(** A server of which the first [n] slots are busy. *)
Definition busy_server (n : nat) : TelnetServer :=
  {| listen_fd_ := 5; srv_running_ := true;
     srv_config_ := {| port := 2500; srv_username := None;
                       srv_password := None;
                       srv_prompt := Some (chars "> " ++ [NUL]);
                       srv_banner := None; max_sessions := 2 |};
     slots_ := replicate n {| session := Init 7 open_config session_new;
                              thread := true; active := true |}
               ++ replicate (kMaxSessions - n)
                    {| session := session_new; thread := false;
                       active := false |} |}.

(* ===================================================================== *)
(** * Properties *)
(* ===================================================================== *)

(** ** The IAC filter *)

Lemma iac_feed_app iac xs ys :
  iac_feed iac (xs ++ ys) =
  (fst (iac_feed (fst (iac_feed iac xs)) ys),
   snd (iac_feed iac xs) ++ snd (iac_feed (fst (iac_feed iac xs)) ys)).
Proof.
  revert iac. induction xs as [|x xs IH]; intros iac; simpl.
  - by destruct (iac_feed iac ys).
  - destruct (FilterIac iac x) as [iac1 c].
    rewrite IH.
    destruct (iac_feed iac1 xs) as [iac2 o2]; simpl.
    destruct (iac_feed iac2 ys) as [iac3 o3]; simpl.
    by destruct (c =? 0)%Z.
Qed.

(** Inside a subnegotiation nothing is emitted, and the decoder stays there
    as long as no IAC is immediately followed by SE. *)
Lemma iac_feed_sub payload pb :
  no_iac_se pb payload →
  iac_feed {| phase := kSub; prev_byte := pb |} payload =
  ({| phase := kSub; prev_byte := last_of pb payload |}, []).
Proof.
  revert pb. induction payload as [|b bs IH]; intros pb Hno; [done|].
  destruct Hno as [Hne Hno].
  cbn [iac_feed]. unfold FilterIac; cbn [phase prev_byte].
  assert (((pb =? kIAC)%Z && (b =? kSE)%Z) = false) as ->.
  { apply andb_false_iff.
    destruct (Z.eqb_spec pb kIAC), (Z.eqb_spec b kSE); auto.
    exfalso; auto. }
  rewrite (IH b Hno). done.
Qed.



(** ** The tokenizer *)

Lemma c_str_app_nonzero a b : nonzero a → c_str (a ++ b) = a ++ c_str b.
Proof.
  induction 1 as [|c a Hc _ IH]; [done|]. simpl.
  destruct (Z.eqb_spec c 0); [done|]. by rewrite IH.
Qed.

Lemma c_str_nonzero m : nonzero (c_str m).
Proof.
  induction m as [|c m IH]; simpl; [constructor|].
  destruct (Z.eqb_spec c 0); by constructor.
Qed.

Lemma c_str_ends tl : ends tl → c_str tl = [].
Proof. by intros [->|[tl' ->]]. Qed.

Lemma c_str_split m : ∃ tl, m = c_str m ++ tl ∧ ends tl.
Proof.
  induction m as [|c m (tl & IH & Htl)]; simpl.
  - exists []. split; [done|by left].
  - destruct (Z.eqb_spec c 0) as [->|Hc].
    + exists (0%Z :: m). split; [done|right; eauto].
    + exists tl. split; [simpl; by f_equal|done].
Qed.

Lemma c_str_id t : nonzero t → c_str t = t.
Proof. intros H. rewrite <- (app_nil_r t) at 1. rewrite c_str_app_nonzero by done. simpl. apply app_nil_r. Qed.

Lemma rd_mid (pre : list Z) c x : rd (pre ++ c :: x) (length pre) = c.
Proof. unfold rd. by rewrite list_lookup_middle. Qed.

Lemma rd_end pre tl : ends tl → rd (pre ++ tl) (length pre) = 0%Z.
Proof.
  intros [->|[tl' ->]]; unfold rd.
  - rewrite app_nil_r, lookup_ge_None_2; [done|lia].
  - by rewrite list_lookup_middle.
Qed.

Lemma insert_mid (pre : list Z) c d x :
  <[length pre := d]> (pre ++ c :: x) = pre ++ d :: x.
Proof. rewrite insert_app_r_alt by lia. by rewrite Nat.sub_diag. Qed.

Lemma rd_app (pre x : list Z) n k : n = length pre + k → rd (pre ++ x) n = rd x k.
Proof. intros ->. unfold rd. rewrite lookup_app_r by lia. do 2 f_equal. lia. Qed.

Lemma insert_app_at (pre x : list Z) n d : n = length pre →
  <[n := d]> (pre ++ x) = pre ++ <[0 := d]> x.
Proof. intros ->. rewrite insert_app_r_alt by lia. by rewrite Nat.sub_diag. Qed.

Lemma shift_loop_spec r : ∀ fuel pre q tl n,
  nonzero r → ends tl → length r < fuel → n = length pre →
  shift_loop fuel (pre ++ q :: r ++ tl) n (S n) = pre ++ r ++ 0%Z :: tl.
Proof.
  induction r as [|c r IH]; intros fuel pre q tl n Hr Htl Hf Hn;
    (destruct fuel as [|fuel]; [simpl in Hf; lia|]); cbn [shift_loop].
  - rewrite (rd_app pre _ (S n) 1) by lia.
    assert (rd (q :: [] ++ tl) 1 = 0%Z) as ->.
    { destruct Htl as [->|[tl' ->]]; done. }
    simpl. by rewrite (insert_app_at pre _ n).
  - inversion Hr as [|? ? Hc Hr']; subst.
    rewrite (rd_app pre _ (S (length pre)) 1) by lia.
    change (rd (q :: (c :: r) ++ tl) 1) with c.
    destruct (Z.eqb_spec c 0); [done|].
    rewrite (insert_app_at pre _ (length pre)) by done.
    change (<[0:=c]> (q :: (c :: r) ++ tl)) with ([c] ++ c :: r ++ tl).
    rewrite app_assoc.
    rewrite (IH fuel (pre ++ [c]) c tl (S (length pre)));
      [by rewrite <- app_assoc|done|done|simpl in Hf; lia|].
    rewrite length_app. simpl. lia.
Qed.

Lemma shift_left_spec pre q r tl :
  nonzero r → ends tl →
  shift_left (pre ++ q :: r ++ tl) (length pre) = pre ++ r ++ 0%Z :: tl.
Proof.
  intros. unfold shift_left. apply shift_loop_spec; [done..| |done].
  rewrite length_app. simpl. rewrite length_app. lia.
Qed.

Lemma closed_at_app pre y o t : closed_at pre o t → closed_at (pre ++ y) o t.
Proof.
  intros (x & Hd & Ht). exists (x ++ y). split; [|done].
  assert (o ≤ length pre).
  { destruct (decide (o ≤ length pre)); [done|].
    rewrite drop_ge in Hd by lia. by destruct t. }
  rewrite drop_app_le by done. rewrite Hd. by rewrite <- app_assoc.
Qed.

Lemma closed_at_arg pre tl o t : closed_at pre o t → arg_at (pre ++ tl) o = t.
Proof.
  intros H. apply (closed_at_app _ tl) in H as (x & Hd & Ht).
  unfold arg_at. rewrite Hd, c_str_app_nonzero by done. simpl. apply app_nil_r.
Qed.

Lemma open_arg pre tl o t :
  o ≤ length pre → drop o pre = t → nonzero t → ends tl →
  arg_at (pre ++ tl) o = t.
Proof.
  intros Ho Hd Ht Htl. unfold arg_at.
  rewrite drop_app_le, Hd, c_str_app_nonzero, c_str_ends by done.
  apply app_nil_r.
Qed.

Lemma split_inv_length pre argv ia closed cur :
  split_inv pre argv ia closed cur →
  length argv = length closed + (if cur is Some _ then 1 else 0).
Proof.
  intros (offs & Hcl & Hcur). apply Forall2_length in Hcl.
  destruct cur as [t|].
  - destruct Hcur as (_ & o & -> & _). rewrite length_app. simpl. lia.
  - destruct Hcur as (_ & ->). lia.
Qed.

Lemma split_inv_args pre tl argv ia closed cur :
  split_inv pre argv ia closed cur → ends tl →
  arg_at (pre ++ tl) <$> argv = closed ++ (if cur is Some t then [t] else []).
Proof.
  intros (offs & Hcl & Hcur) Htl.
  assert (arg_at (pre ++ tl) <$> offs = closed) as Hoffs.
  { clear Hcur. induction Hcl as [|o t offs closed Ho _ IH]; [done|].
    rewrite fmap_cons, IH. f_equal. by apply closed_at_arg. }
  destruct cur as [t|].
  - destruct Hcur as (_ & o & -> & Ho & Hd & Ht).
    rewrite fmap_app, Hoffs. f_equal. rewrite list_fmap_singleton.
    f_equal. by apply open_arg.
  - destruct Hcur as (_ & ->). by rewrite app_nil_r.
Qed.

Lemma tok_loop_some_length r : ∀ sq dq t,
  1 ≤ length (tok_loop r sq dq (Some t)).
Proof.
  induction r as [|c r IH]; intros sq dq t; simpl; [lia|].
  repeat case_match; simpl; try apply IH; lia.
Qed.

Lemma closed_all_app pre y offs closed :
  Forall2 (closed_at pre) offs closed →
  Forall2 (closed_at (pre ++ y)) offs closed.
Proof. induction 1; constructor; [by apply closed_at_app|done]. Qed.

Lemma split_inv_close pre argv ia closed t :
  split_inv pre argv ia closed (Some t) →
  split_inv (pre ++ [0%Z]) argv false (closed ++ [t]) None.
Proof.
  intros (offs & Hcl & _ & o & -> & Ho & Hd & Ht).
  exists (offs ++ [o]). split; [|done].
  apply Forall2_app.
  - by apply closed_all_app.
  - constructor; [|constructor]. exists []. split; [|done].
    by rewrite drop_app_le, Hd.
Qed.

Lemma split_inv_skip pre argv ia closed c :
  split_inv pre argv ia closed None →
  split_inv (pre ++ [c]) argv false closed None.
Proof.
  intros (offs & Hcl & _ & ->). exists offs. split; [|done].
  by apply closed_all_app.
Qed.

Lemma split_inv_open pre argv ia closed :
  split_inv pre argv ia closed None →
  split_inv pre (argv ++ [length pre]) true closed (Some []).
Proof.
  intros (offs & Hcl & _ & ->). exists offs. split; [done|].
  split; [done|]. exists (length pre).
  repeat split; [done|by rewrite drop_all|constructor].
Qed.

Lemma split_inv_push pre argv ia closed t c :
  c ≠ 0%Z →
  split_inv pre argv ia closed (Some t) →
  split_inv (pre ++ [c]) argv true closed (Some (t ++ [c])).
Proof.
  intros Hc (offs & Hcl & _ & o & -> & Ho & Hd & Ht).
  exists offs. split.
  - by apply closed_all_app.
  - split; [done|]. exists o. repeat split; [|by rewrite drop_app_le, Hd|].
    + rewrite length_app. simpl. lia.
    + apply Forall_app. split; [done|by constructor].
Qed.

Lemma split_inv_in_arg pre argv ia closed cur :
  split_inv pre argv ia closed cur → ia = bool_decide (is_Some cur).
Proof. intros (offs & _ & Hcur). by destruct cur; destruct Hcur as [-> _]. Qed.

(** Opening a new argument: either the overflow return, which is right
    because at least one more token is to come, or the continuation. *)
Lemma begin_arg_new max s k all :
  in_arg s = false → length (sp_argv s) < length all →
  ((sp_argc s < max)%Z →
   ∃ r, k {| sp_buf := sp_buf s; sp_p := sp_p s;
             sp_argv := sp_argv s ++ [sp_p s];
             in_sq := in_sq s; in_dq := in_dq s; in_arg := true |} = Some r ∧
        split_post max (S (length (sp_argv s))) all r) →
  ∃ r, begin_arg max s k = Some r ∧ split_post max (length (sp_argv s)) all r.
Proof.
  intros Hia Hlt Hk. unfold begin_arg. rewrite Hia.
  destruct (Z.leb_spec max (sp_argc s)) as [Hle|Hgt].
  - eexists; split; [done|]. unfold sp_argc in Hle. split.
    + intros [?|?]; lia.
    + done.
  - destruct (Hk Hgt) as (r & Hr & Hp1 & Hp2). exists r. split; [done|].
    unfold sp_argc in Hgt. split.
    + intros [?|?]; [apply Hp1; by left|lia].
    + intros ? ?. apply Hp2; lia.
Qed.

(** Reading on from a state that satisfies the invariant: the loop returns,
    and what it returns is what the specification's tokenizer says. *)
Lemma split_loop_spec rest : ∀ fuel max pre tl argv sq dq ia closed cur,
  nonzero rest → ends tl → length rest < fuel →
  split_inv pre argv ia closed cur →
  ∃ r, split_loop fuel max
         {| sp_buf := pre ++ rest ++ tl; sp_p := length pre; sp_argv := argv;
            in_sq := sq; in_dq := dq; in_arg := ia |} = Some r ∧
    split_post max (length argv) (closed ++ tok_loop rest sq dq cur) r.
Proof.
  induction rest as [|c rest IH];
    intros fuel max pre tl argv sq dq ia closed cur Hr Htl Hf Hinv;
    (destruct fuel as [|fuel]; [simpl in Hf; lia|]); cbn [split_loop].
  - cbn [sp_buf sp_p app]. rewrite rd_end by done. cbn [Z.eqb].
    eexists; split; [done|].
    pose proof (split_inv_length _ _ _ _ _ Hinv) as Hlen.
    pose proof (split_inv_args _ tl _ _ _ _ Hinv Htl) as Hargs.
    assert (tok_loop [] sq dq cur = if cur is Some t then [t] else []) as ->
      by done.
    assert (length (closed ++ (if cur is Some t then [t] else []))
            = length argv) as Hl.
    { rewrite length_app, Hlen. by destruct cur. }
    unfold split_post. rewrite Hl. split.
    + intros _. split; [done|]. unfold sr_args, sp_return. by cbn.
    + lia.
  - inversion Hr as [|? ? Hc Hr']; subst.
    assert (Hf' : length rest < fuel) by (simpl in Hf; lia).
    pose proof (split_inv_in_arg _ _ _ _ _ Hinv) as Hia.
    pose proof (split_inv_length _ _ _ _ _ Hinv) as Hlen.
    cbn [sp_buf sp_p sp_argv in_sq in_dq in_arg].
    change ((c :: rest) ++ tl) with (c :: rest ++ tl).
    rewrite rd_mid. destruct (Z.eqb_spec c 0) as [|_]; [done|].
    assert (Hpre : ∀ d, pre ++ d :: rest ++ tl = (pre ++ [d]) ++ rest ++ tl)
      by (intros; by rewrite <- app_assoc).
    assert (Hplen : ∀ d, S (length pre) = length (pre ++ [d]))
      by (intros; rewrite length_app; simpl; lia).
    cbn [tok_loop].
    destruct (is_ws c && negb sq && negb dq) eqn:Hws.
    { (* separating whitespace *)
      destruct cur as [t|]; simpl in Hia; subst ia.
      - unfold sp_advance; cbn [sp_buf sp_p sp_argv in_sq in_dq in_arg].
        rewrite insert_mid, (Hpre 0%Z), (Hplen 0%Z).
        replace (closed ++ t :: tok_loop rest sq dq None)
          with ((closed ++ [t]) ++ tok_loop rest sq dq None)
          by (by rewrite <- app_assoc).
        apply IH; [done..|]. by eapply split_inv_close.
      - unfold sp_advance; cbn [sp_buf sp_p sp_argv in_sq in_dq in_arg].
        rewrite (Hpre c), (Hplen c).
        apply IH; [done..|]. by eapply split_inv_skip. }
    rewrite shift_left_spec by done.
    assert (Hends : ends (0%Z :: tl)) by (right; eauto).
    assert (Hquote : ∀ sq' dq',
      ∃ r, begin_arg max
             {| sp_buf := pre ++ rest ++ 0%Z :: tl; sp_p := length pre;
                sp_argv := argv; in_sq := sq'; in_dq := dq'; in_arg := ia |}
             (split_loop fuel max) = Some r ∧
           split_post max (length argv)
             (closed ++ tok_loop rest sq' dq' (Some (default [] cur))) r).
    { intros sq' dq'. destruct cur as [t|]; simpl in Hia; subst ia.
      - unfold begin_arg; cbn [in_arg]. by apply IH.
      - apply begin_arg_new; cbn [sp_buf sp_p sp_argv in_sq in_dq in_arg].
        + done.
        + pose proof (tok_loop_some_length rest sq' dq' []).
          rewrite length_app. simpl in *. lia.
        + intros _.
          replace (S (length argv)) with (length (argv ++ [length pre]))
            by (rewrite length_app; simpl; lia).
          apply IH; [done..|]. by eapply split_inv_open. }
    destruct ((c =? SQUOTE)%Z && negb dq); [apply Hquote|].
    destruct ((c =? DQUOTE)%Z && negb sq); [apply Hquote|].
    clear Hquote.
    destruct cur as [t|]; simpl in Hia; subst ia.
    + unfold begin_arg, sp_advance;
        cbn [sp_buf sp_p sp_argv in_sq in_dq in_arg default].
      rewrite (Hpre c), (Hplen c).
      apply IH; [done..|]. by eapply split_inv_push.
    + apply begin_arg_new; cbn [sp_buf sp_p sp_argv in_sq in_dq in_arg].
      * done.
      * pose proof (tok_loop_some_length rest sq dq (default [] None ++ [c])).
        rewrite length_app. simpl in *. lia.
      * intros _. unfold sp_advance;
          cbn [sp_buf sp_p sp_argv in_sq in_dq in_arg default].
        rewrite (Hpre c), (Hplen c).
        replace (S (length argv)) with (length (argv ++ [length pre]))
          by (rewrite length_app; simpl; lia).
        apply IH; [done..|].
        apply (split_inv_push _ _ true _ [] c); [done|].
        by eapply split_inv_open.
Qed.

(** The loop of [ShellSplit] returns within its fuel, for every buffer. *)
Lemma ShellSplit_total buf max :
  ∃ r, split_loop (split_fuel buf) max (split_init buf) = Some r ∧
       split_post max 0 (tokenize buf) r.
Proof.
  destruct (c_str_split buf) as (tl & Hb & Htl).
  destruct (split_loop_spec (c_str buf) (split_fuel buf) max [] tl []
              false false false [] None) as (r & Hr & Hpost).
  - apply c_str_nonzero.
  - done.
  - unfold split_fuel. rewrite Hb at 2. rewrite length_app. lia.
  - exists []. split; [constructor|done].
  - exists r. split; [|exact Hpost].
    rewrite <- Hr. unfold split_init. cbn [app length]. by rewrite <- Hb.
Qed.

Lemma ShellSplit_spec buf max :
  split_post max 0 (tokenize buf) (ShellSplit (Some buf) true max).
Proof.
  destruct (ShellSplit_total buf max) as (r & Hr & Hpost).
  unfold ShellSplit. cbn [negb]. by rewrite Hr.
Qed.

Lemma ShellSplit_fits buf max :
  (Z.of_nat (length (tokenize buf)) ≤ max)%Z →
  sr_ret (ShellSplit (Some buf) true max) = Z.of_nat (length (tokenize buf)) ∧
  sr_args (ShellSplit (Some buf) true max) = tokenize buf.
Proof. intros H. apply ShellSplit_spec. by left. Qed.

Lemma ShellSplit_no_token buf max :
  tokenize buf = [] →
  sr_ret (ShellSplit (Some buf) true max) = 0%Z ∧
  sr_args (ShellSplit (Some buf) true max) = [].
Proof.
  intros H. destruct (ShellSplit_spec buf max) as [Hp _].
  rewrite H in Hp. apply Hp. by right.
Qed.

Lemma ShellSplit_overflow buf max :
  tokenize buf ≠ [] → (max < Z.of_nat (length (tokenize buf)))%Z →
  sr_ret (ShellSplit (Some buf) true max) = (-1)%Z.
Proof.
  intros Hne H. apply ShellSplit_spec; [done|].
  destruct (tokenize buf); [done|simpl; lia].
Qed.

(** The returned value is never below -1, and it is -1 exactly on
    overflow. *)
Lemma ShellSplit_ret buf max :
  sr_ret (ShellSplit (Some buf) true max) =
  if bool_decide (tokenize buf = [] ∨
                  (Z.of_nat (length (tokenize buf)) ≤ max)%Z)
  then Z.of_nat (length (tokenize buf)) else (-1)%Z.
Proof.
  case_bool_decide as H.
  - destruct H as [H|H].
    + rewrite H. by apply ShellSplit_no_token.
    + by apply ShellSplit_fits.
  - apply ShellSplit_overflow; [naive_solver|].
    destruct (Z.le_gt_cases (Z.of_nat (length (tokenize buf))) max);
      [naive_solver|lia].
Qed.

(** *** Lines written token by token *)

Lemma blank_nonws_step c : is_ws c = true → c ≠ 0%Z.
Proof. intros H ->. done. Qed.

Lemma tok_loop_blank sep : ∀ rest,
  blank sep →
  tok_loop (sep ++ rest) false false None = tok_loop rest false false None.
Proof.
  induction sep as [|c sep IH]; intros rest Hb; [done|].
  inversion Hb as [|? ? Hc Hb']; subst. cbn [app tok_loop].
  rewrite Hc. cbn [negb andb]. by apply IH.
Qed.

(** A separator after a token closes it. *)
Lemma tok_loop_sep sep : ∀ rest t,
  blank sep → sep ≠ [] →
  tok_loop (sep ++ rest) false false (Some t)
  = t :: tok_loop rest false false None.
Proof.
  intros rest t Hb Hne. destruct sep as [|c sep]; [done|].
  inversion Hb as [|? ? Hc Hb']; subst. cbn [app tok_loop].
  rewrite Hc. cbn [negb andb]. f_equal. by apply tok_loop_blank.
Qed.

Lemma tok_loop_bare s : ∀ rest cur,
  piece_ok (Bare s) → s ≠ [] ∨ is_Some cur →
  tok_loop (s ++ rest) false false cur
  = tok_loop rest false false (Some (default [] cur ++ s)).
Proof.
  induction s as [|c s IH]; intros rest cur Hok Hne.
  - destruct Hne as [|[t ->]]; [done|]. simpl. by rewrite app_nil_r.
  - inversion Hok as [|? ? (Hc0 & Hws & Hsq & Hdq) Hok']; subst.
    cbn [app tok_loop]. rewrite Hws. cbn [andb].
    destruct (Z.eqb_spec c SQUOTE); [done|].
    destruct (Z.eqb_spec c DQUOTE); [done|]. cbn [andb].
    rewrite IH; [|done|right; eauto].
    simpl. by rewrite <- app_assoc.
Qed.

(** Between single quotes every byte but the quote itself is kept. *)
Lemma tok_loop_in_single s : ∀ rest t,
  Forall (λ c, c ≠ 0%Z ∧ c ≠ SQUOTE) s →
  tok_loop (s ++ SQUOTE :: rest) true false (Some t)
  = tok_loop rest false false (Some (t ++ s)).
Proof.
  induction s as [|c s IH]; intros rest t Hok.
  - simpl. by rewrite app_nil_r.
  - inversion Hok as [|? ? (Hc0 & Hsq) Hok']; subst.
    cbn [app tok_loop]. rewrite andb_false_r. cbn [negb andb].
    destruct (Z.eqb_spec c SQUOTE); [done|]. cbn [andb].
    rewrite andb_false_r. change (default [] (Some t)) with t.
    rewrite IH by done. by rewrite <- app_assoc.
Qed.

(** Between double quotes every byte but the quote itself is kept. *)
Lemma tok_loop_in_double s : ∀ rest t,
  Forall (λ c, c ≠ 0%Z ∧ c ≠ DQUOTE) s →
  tok_loop (s ++ DQUOTE :: rest) false true (Some t)
  = tok_loop rest false false (Some (t ++ s)).
Proof.
  induction s as [|c s IH]; intros rest t Hok.
  - simpl. by rewrite app_nil_r.
  - inversion Hok as [|? ? (Hc0 & Hdq) Hok']; subst.
    cbn [app tok_loop]. rewrite andb_false_r. cbn [negb andb].
    rewrite andb_false_r.
    destruct (Z.eqb_spec c DQUOTE); [done|]. cbn [andb].
    change (default [] (Some t)) with t.
    rewrite IH by done. by rewrite <- app_assoc.
Qed.

Lemma tok_loop_piece pc rest cur :
  piece_ok pc → piece_text pc ≠ [] ∨ is_Some cur →
  tok_loop (piece_text pc ++ rest) false false cur
  = tok_loop rest false false (Some (default [] cur ++ piece_value pc)).
Proof.
  intros Hok Hne. destruct pc as [s|s|s]; cbn [piece_text piece_value].
  - by apply tok_loop_bare.
  - cbn [app tok_loop]. cbn. rewrite <- app_assoc. cbn [app].
    by rewrite tok_loop_in_single.
  - cbn [app tok_loop]. cbn. rewrite <- app_assoc. cbn [app].
    by rewrite tok_loop_in_double.
Qed.

Lemma tok_loop_token t : ∀ rest cur,
  Forall piece_ok t → token_text t ≠ [] ∨ is_Some cur →
  tok_loop (token_text t ++ rest) false false cur
  = tok_loop rest false false (Some (default [] cur ++ token_value t)).
Proof.
  induction t as [|pc t IH]; intros rest cur Hok Hne.
  - destruct Hne as [|[u ->]]; [done|]. simpl. by rewrite app_nil_r.
  - inversion Hok as [|? ? Hpc Hok']; subst.
    unfold token_text, token_value. rewrite !fmap_cons. cbn [concat].
    fold (token_text t). fold (token_value t).
    destruct (decide (piece_text pc = [])) as [He|He].
    + (* an empty bare piece *)
      destruct pc as [s|s|s]; cbn in He; try done. subst s.
      cbn [piece_text piece_value app].
      rewrite IH; [done|done|].
      destruct Hne as [Hne|?]; [left|by right].
      unfold token_text in Hne. rewrite fmap_cons in Hne. done.
    + rewrite <- app_assoc, tok_loop_piece by auto.
      rewrite IH; [|done|right; eauto].
      simpl. by rewrite <- app_assoc.
Qed.

Lemma tok_loop_line toks :
  seps_ok toks →
  tok_loop (line_body toks) false false None = token_value <$> toks.*1.
Proof.
  induction toks as [|[t sep] toks IH]; intros Hok; [done|].
  destruct Hok as ((Ht & Hne) & Hsep & Hnext & Hok).
  cbn [line_body]. rewrite tok_loop_token by auto. cbn [default app].
  rewrite !fmap_cons. cbn [fst].
  destruct toks as [|tk toks].
  - cbn [line_body]. rewrite app_nil_r.
    destruct sep as [|c sep]; [done|].
    rewrite <- (app_nil_r (c :: sep)), tok_loop_sep by done. done.
  - rewrite tok_loop_sep by auto. f_equal. by apply IH.
Qed.

Lemma blank_nonzero sep : blank sep → nonzero sep.
Proof. apply Forall_impl. intros c H ->. done. Qed.

Lemma piece_text_nonzero pc : piece_ok pc → nonzero (piece_text pc).
Proof.
  destruct pc as [s|s|s]; cbn; intros H.
  - eapply Forall_impl; [|exact H]. intros c Hc; apply Hc.
  - constructor; [done|]. apply Forall_app; split; [|by repeat constructor].
    eapply Forall_impl; [|exact H]. intros c Hc; apply Hc.
  - constructor; [done|]. apply Forall_app; split; [|by repeat constructor].
    eapply Forall_impl; [|exact H]. intros c Hc; apply Hc.
Qed.

Lemma token_text_nonzero t : Forall piece_ok t → nonzero (token_text t).
Proof.
  induction 1 as [|pc t Hpc _ IH]; [constructor|].
  unfold token_text. rewrite fmap_cons. cbn [concat].
  apply Forall_app; split; [by apply piece_text_nonzero|done].
Qed.

Lemma line_body_nonzero toks : seps_ok toks → nonzero (line_body toks).
Proof.
  induction toks as [|[t sep] toks IH]; intros Hok; [constructor|].
  destruct Hok as ((Ht & Hne) & Hsep & Hnext & Hok). cbn [line_body].
  apply Forall_app; split; [by apply token_text_nonzero|].
  apply Forall_app; split; [by apply blank_nonzero|by apply IH].
Qed.

(** The tokens of a line written token by token are the values of its
    tokens, whatever follows the terminator in the buffer. *)
Lemma tokenize_line lead toks junk :
  blank lead → seps_ok toks →
  tokenize (line_of lead toks ++ 0%Z :: junk) = token_value <$> toks.*1.
Proof.
  intros Hlead Hok. unfold tokenize, line_of.
  rewrite c_str_app_nonzero.
  - simpl. rewrite app_nil_r, tok_loop_blank by done. by apply tok_loop_line.
  - apply Forall_app; split;
      [by apply blank_nonzero|by apply line_body_nonzero].
Qed.

Lemma tokenize_blank buf : blank (c_str buf) → tokenize buf = [].
Proof.
  intros H. unfold tokenize. rewrite <- (app_nil_r (c_str buf)).
  by rewrite tok_loop_blank.
Qed.

(** C3: a line written as N tokens separated by blanks, each token a
    sequence of bare, single-quoted and double-quoted pieces, with
    N <= max_args: ShellSplit returns N and argv holds the tokens with the
    quote characters removed.  Blanks and the other quote character inside
    a quoted piece stay in the token.  "echo 'hello world'" gives "echo" and
    "hello world". *)
Theorem C3_ShellSplit_tokens :
  (∀ lead toks junk max_args,
     blank lead → seps_ok toks →
     (Z.of_nat (length toks) ≤ max_args)%Z →
     sr_ret (ShellSplit (Some (line_of lead toks ++ 0%Z :: junk)) true
                        max_args)
       = Z.of_nat (length toks) ∧
     sr_args (ShellSplit (Some (line_of lead toks ++ 0%Z :: junk)) true
                         max_args)
       = token_value <$> toks.*1) ∧
  (sr_ret (ShellSplit (Some (chars "echo 'hello world'" ++ [0%Z])) true 8)
     = 2%Z ∧
   sr_args (ShellSplit (Some (chars "echo 'hello world'" ++ [0%Z])) true 8)
     = [chars "echo"; chars "hello world"]).
Proof.
  split; [|by vm_compute].
  intros lead toks junk max_args Hlead Hok Hn.
  pose proof (tokenize_line lead toks junk Hlead Hok) as Htok.
  destruct (ShellSplit_fits (line_of lead toks ++ 0%Z :: junk) max_args)
    as [Hret Hargs].
  - by rewrite Htok, !length_fmap.
  - rewrite Hret, Hargs, Htok, !length_fmap. done.
Qed.

Lemma C3_ShellSplit_tokens_witness :
  sr_args (ShellSplit
    (Some (line_of [32%Z]
             [([Bare (chars "say"); InDouble (chars "it's  ok")], [32%Z; 9%Z]);
              ([InSingle (chars "x " ++ DQUOTE :: chars " y"); Bare (chars "d")], [])]
           ++ 0%Z :: [7%Z])) true 2)
  = [chars "sayit's  ok"; chars "x " ++ DQUOTE :: chars " yd"].
Proof.
  refine (proj2 (proj1 C3_ShellSplit_tokens [32%Z]
    [([Bare (chars "say"); InDouble (chars "it's  ok")], [32%Z; 9%Z]);
     ([InSingle (chars "x " ++ DQUOTE :: chars " y"); Bare (chars "d")], [])]
    [7%Z] 2%Z _ _ _)).
  - unfold blank. compute_done.
  - cbn [seps_ok]. unfold token_ok, blank.
    repeat split; try compute_done; try done.
    + repeat constructor; cbn; compute_done.
    + repeat constructor; cbn; compute_done.
  - simpl. lia.
Defined.

(** C7: ShellSplit returns the overflow error -1 when the line holds more
    tokens than max_args (the returned value is the token count when the
    tokens fit and -1 otherwise, so a partial argv never counts as success),
    -1 when the line or the output array is a null pointer, and 0 for an
    empty or blank line.  Four tokens with max_args = 2 overflow. *)
Theorem C7_ShellSplit_errors :
  (∀ buf max_args,
     sr_ret (ShellSplit (Some buf) true max_args) =
     if bool_decide (tokenize buf = [] ∨
                     (Z.of_nat (length (tokenize buf)) ≤ max_args)%Z)
     then Z.of_nat (length (tokenize buf)) else (-1)%Z) ∧
  (∀ buf max_args,
     tokenize buf ≠ [] →
     (max_args < Z.of_nat (length (tokenize buf)))%Z →
     sr_ret (ShellSplit (Some buf) true max_args) = (-1)%Z) ∧
  (∀ buf max_args,
     (0 ≤ max_args < Z.of_nat (length (tokenize buf)))%Z →
     sr_ret (ShellSplit (Some buf) true max_args) = (-1)%Z) ∧
  (∀ lead toks junk max_args,
     blank lead → seps_ok toks → toks ≠ [] →
     (max_args < Z.of_nat (length toks))%Z →
     sr_ret (ShellSplit (Some (line_of lead toks ++ 0%Z :: junk)) true
                        max_args) = (-1)%Z) ∧
  (∀ argv_given max_args,
     sr_ret (ShellSplit None argv_given max_args) = (-1)%Z) ∧
  (∀ cmdline max_args,
     sr_ret (ShellSplit cmdline false max_args) = (-1)%Z) ∧
  (∀ buf max_args,
     blank (c_str buf) →
     sr_ret (ShellSplit (Some buf) true max_args) = 0%Z ∧
     sr_args (ShellSplit (Some buf) true max_args) = []) ∧
  sr_ret (ShellSplit (Some (chars "a b c d" ++ [0%Z])) true 2) = (-1)%Z.
Proof.
  split; [exact ShellSplit_ret|].
  split; [exact ShellSplit_overflow|].
  split.
  { intros buf max_args [H0 Hlt]. apply ShellSplit_overflow; [|done].
    destruct (tokenize buf); [simpl in Hlt; lia|done]. }
  split.
  { intros lead toks junk max_args Hlead Hok Hne Hn.
    pose proof (tokenize_line lead toks junk Hlead Hok) as Htok.
    apply ShellSplit_overflow; rewrite Htok.
    - by destruct toks.
    - by rewrite !length_fmap. }
  split; [done|].
  split; [by intros [buf|] max_args|].
  split; [|by vm_compute].
  intros buf max_args Hb. apply ShellSplit_no_token. by apply tokenize_blank.
Qed.

Lemma C7_ShellSplit_errors_witness :
  sr_ret (ShellSplit (Some (line_of []
            [([Bare (chars "a")], [32%Z]); ([Bare (chars "b")], [32%Z]);
             ([Bare (chars "c")], [32%Z]); ([Bare (chars "d")], [])]
          ++ 0%Z :: [])) true 2) = (-1)%Z.
Proof.
  refine (proj1 (proj2 (proj2 (proj2 C7_ShellSplit_errors))) []
    [([Bare (chars "a")], [32%Z]); ([Bare (chars "b")], [32%Z]);
     ([Bare (chars "c")], [32%Z]); ([Bare (chars "d")], [])]
    [] 2%Z _ _ _ _).
  - constructor.
  - cbn [seps_ok]. unfold token_ok, blank.
    repeat split; try compute_done; try done;
      repeat constructor; cbn; compute_done.
  - done.
  - simpl. lia.
Defined.

(** ** The command registry *)

Lemma streq_true a b : streq a b = true ↔ c_str a = c_str b.
Proof. unfold streq. by rewrite bool_decide_eq_true. Qed.

Lemma streq_false a b : streq a b = false ↔ c_str a ≠ c_str b.
Proof. unfold streq. by rewrite bool_decide_eq_false. Qed.

Lemma find_entry_Some r nm i e :
  find_entry r nm = Some (i, e) ↔
  live r !! i = Some e ∧ name_is nm e = true ∧
  ∀ j e', live r !! j = Some e' → j < i → name_is nm e' ≠ true.
Proof. unfold find_entry. by rewrite list_find_Some. Qed.

Lemma find_entry_None r nm :
  find_entry r nm = None ↔ Forall (λ e, name_is nm e ≠ true) (live r).
Proof. unfold find_entry. by rewrite list_find_None. Qed.

(** [Execute] computes what [Execute_tokens] says on the tokens of the
    line. *)
Lemma Execute_by_tokens r buf out :
  Execute r (Some buf) out = Execute_tokens r (tokenize buf) out.
Proof.
  unfold Execute, Execute_tokens.
  destruct (tokenize buf) as [|arg0 toks] eqn:Htok.
  - destruct (ShellSplit_no_token buf kMaxArgs Htok) as [-> _]. done.
  - case_bool_decide as Hfit.
    + destruct (ShellSplit_fits buf kMaxArgs) as [Hret Hargs];
        [by rewrite Htok|].
      rewrite Hret, Hargs, Htok.
      assert ((Z.of_nat (length (arg0 :: toks)) <? 0)%Z = false) as ->
        by (apply Z.ltb_ge; lia).
      assert ((Z.of_nat (length (arg0 :: toks)) =? 0)%Z = false) as ->
        by (apply Z.eqb_neq; simpl; lia).
      done.
    + rewrite (ShellSplit_overflow buf kMaxArgs); [done| |];
        rewrite Htok; [done|lia].
Qed.

Lemma registry_init_wf : registry_wf registry_init.
Proof. repeat split; [cbn; lia|constructor]. Qed.

Lemma find_entry_is_Some r n :
  is_Some (find_entry r n) ↔
  ∃ e n', e ∈ live r ∧ name e = Some n' ∧ c_str n' = c_str n.
Proof.
  split.
  - intros [[i e] H]. apply find_entry_Some in H as (Hi & Hn & _).
    unfold name_is in Hn. destruct (name e) as [n'|] eqn:He; [|done].
    exists e, n'. split; [by eapply list_elem_of_lookup_2|].
    split; [done|by apply streq_true].
  - intros (e & n' & Hin & He & Heq).
    destruct (find_entry r n) as [p|] eqn:Hf; [by eexists|].
    apply find_entry_None in Hf. rewrite Forall_forall in Hf.
    exfalso. apply list_elem_of_In in Hin. apply (Hf e Hin). unfold name_is. rewrite He.
    by apply streq_true.
Qed.

(** Storing at [entries_[count_]] and incrementing [count_] appends to the
    registered entries. *)
Lemma live_store r e :
  count_ r < length (entries_ r) →
  live {| entries_ := <[count_ r := e]> (entries_ r);
          count_ := S (count_ r) |} = live r ++ [e].
Proof.
  intros Hlt. unfold live; cbn [entries_ count_].
  rewrite (take_S_r _ _ e) by (by apply list_lookup_insert_eq).
  by rewrite take_insert_ge by lia.
Qed.


Lemma Register_wf nm ds f cx r :
  registry_wf r → registry_wf (snd (Register nm ds f cx r)).
Proof.
  intros Hwf. unfold Register.
  destruct nm as [n|], f as [f'|]; try done.
  case_bool_decide as Hfull; [done|].
  case_bool_decide as Hdup; [done|].
  destruct Hwf as (Hlen & Hcnt & Hall). cbn [snd].
  split; [|split].
  - cbn [entries_]. by rewrite length_insert.
  - cbn [count_]. lia.
  - rewrite live_store by lia. apply Forall_app. split; [done|].
    constructor; [|constructor]. cbn. eauto.
Qed.

(** C5: Register fails and leaves the table as it was exactly when the name
    or the handler is a null pointer, the table holds its 64 entries, or an
    entry with an equal name is registered; otherwise the new entry goes
    behind the registered ones, the count grows by one and the call
    succeeds.  Registering the same name once more then fails and changes
    nothing. *)
Theorem C5_Register_spec r nm ds f cx :
  registry_wf r →
  (fst (Register nm ds f cx r) = false ↔
     nm = None ∨ f = None ∨ kMaxCommands ≤ count_ r ∨
     ∃ n e n', nm = Some n ∧ e ∈ live r ∧ name e = Some n' ∧
               c_str n' = c_str n) ∧
  (fst (Register nm ds f cx r) = false → snd (Register nm ds f cx r) = r) ∧
  (fst (Register nm ds f cx r) = true →
     live (snd (Register nm ds f cx r))
       = live r ++ [{| name := nm; desc := ds; fn := f; ctx := cx |}] ∧
     count_ (snd (Register nm ds f cx r)) = S (count_ r) ∧
     ∀ ds2 f2 cx2,
       Register nm ds2 f2 cx2 (snd (Register nm ds f cx r))
       = (false, snd (Register nm ds f cx r))) ∧
  registry_wf (snd (Register nm ds f cx r)).
Proof.
  intros Hwf. split; [|split; [|split]]; [| | |by apply Register_wf].
  - unfold Register. destruct nm as [n|]; [|naive_solver].
    destruct f as [f'|]; [|naive_solver].
    case_bool_decide as Hfull; [naive_solver|].
    case_bool_decide as Hdup; cbn [fst].
    + apply find_entry_is_Some in Hdup as (e & n' & ? & ? & ?).
      split; [|done]. intros _. do 3 right. by exists n, e, n'.
    + split; [done|]. intros [?|[?|[?|(n0 & e & n' & Hn & ? & ? & ?)]]];
        try done. simplify_eq. exfalso. apply Hdup.
      apply find_entry_is_Some. by exists e, n'.
  - unfold Register. destruct nm as [n|], f as [f'|]; try done.
    by repeat case_bool_decide.
  - unfold Register. destruct nm as [n|], f as [f'|]; try done.
    case_bool_decide as Hfull; [done|].
    case_bool_decide as Hdup; [done|]. intros _. cbn [fst snd].
    destruct Hwf as (Hlen & Hcnt & Hall).
    assert (Hlive := live_store r {| name := Some n; desc := ds;
                                     fn := Some f'; ctx := cx |}).
    rewrite Hlive by lia. split; [done|]. split; [done|].
    intros ds2 f2 cx2. destruct f2 as [f2'|]; [|done].
    destruct (bool_decide (kMaxCommands ≤ _)); [done|].
    rewrite bool_decide_eq_true_2; [done|].
    apply find_entry_is_Some.
    exists {| name := Some n; desc := ds; fn := Some f'; ctx := cx |}, n.
    split; [|done]. rewrite Hlive by lia. apply elem_of_app. right. by apply list_elem_of_singleton.
Qed.

Lemma C5_Register_spec_witness :
  fst (Register (Some (chars "dup")) (Some (chars "first")) (Some (λ _ _ _, 0%Z))
         0%Z registry_init) = true ∧
  Register (Some (chars "dup")) (Some (chars "second")) (Some (λ _ _ _, 1%Z))
    0%Z (snd (Register (Some (chars "dup")) (Some (chars "first"))
                (Some (λ _ _ _, 0%Z)) 0%Z registry_init))
  = (false, snd (Register (Some (chars "dup")) (Some (chars "first"))
                   (Some (λ _ _ _, 0%Z)) 0%Z registry_init)).
Proof.
  split; [reflexivity|].
  apply (C5_Register_spec registry_init (Some (chars "dup"))
           (Some (chars "first")) (Some (λ _ _ _, 0%Z)) 0%Z registry_init_wf).
  reflexivity.
Defined.

Lemma is_prefix_spec needle hay :
  is_prefix needle hay = true ↔ ∃ r, hay = needle ++ r.
Proof.
  revert hay. induction needle as [|a n IH]; intros hay; simpl.
  - split; [eauto|done].
  - destruct hay as [|b h].
    + split; [done|]. by intros [r ?].
    + rewrite andb_true_iff, IH, Z.eqb_eq. split.
      * intros [-> [r ->]]. eauto.
      * intros [r Hr]. simplify_eq. eauto.
Qed.

Lemma containsb_spec needle hay :
  containsb needle hay = true ↔ contains needle hay.
Proof.
  unfold contains. induction hay as [|b h IH]; simpl.
  - rewrite orb_false_r, is_prefix_spec. split.
    + intros [r Hr]. exists [], r. done.
    + intros ([|? l] & r & Hr); [eauto|done].
  - rewrite orb_true_iff, is_prefix_spec, IH. split.
    + intros [[r Hr]|(l & r & Hr)].
      * exists [], r. done.
      * exists (b :: l), r. by rewrite Hr.
    + intros ([|x l] & r & Hr).
      * left. eauto.
      * right. injection Hr as -> ->. eauto.
Qed.

Lemma containsb_false needle hay :
  containsb needle hay = false → ¬ contains needle hay.
Proof. intros H Hc. apply containsb_spec in Hc. congruence. Qed.

Lemma emit128_one text :
  text ≠ [] →
  emit128 text = [(take 127 text ++ [0%Z], Z.of_nat (length text))].
Proof.
  intros Hne. unfold emit128, snprintf.
  assert ((0 <? Z.of_nat (length text))%Z = true) as ->; [|done].
  apply Z.ltb_lt. destruct text; [done|simpl; lia].
Qed.

Lemma help_line_ne e : help_line e ≠ [].
Proof. done. Qed.

Lemma unknown_line_ne arg0 : unknown_line arg0 ≠ [].
Proof. done. Qed.

(** The buffers [PrintHelp] hands to the callback: the header, then one
    formatted line per registered entry in registration order, each cut to
    the 127 characters its buffer can hold. *)
Lemma PrintHelp_buffers r :
  fst <$> PrintHelp r true =
  (help_header ++ [0%Z]) :: ((λ e, take 127 (help_line e) ++ [0%Z]) <$> live r).
Proof.
  unfold PrintHelp. cbn [negb]. rewrite fmap_cons. cbn [fst]. f_equal.
  fold (live r). induction (live r) as [|e l IH]; [done|].
  rewrite bind_cons, fmap_app, IH, fmap_cons.
  by rewrite emit128_one by apply help_line_ne.
Qed.

Lemma help_line_contains e :
  help_fits e →
  contains (c_str (default [] (name e))) (take 127 (help_line e) ++ [0%Z]) ∧
  contains (c_str (default [] (desc e))) (take 127 (help_line e) ++ [0%Z]).
Proof.
  intros Hfit. unfold help_fits in Hfit. rewrite take_ge by exact Hfit.
  unfold help_line, pad16.
  generalize (c_str (default [] (name e))) (c_str (default [] (desc e)))
             (chars "  ") (chars " - ").
  intros nm ds a b. split.
  - exists a, (replicate (16 - length nm) 32%Z ++ b ++ ds ++ CRLF ++ [0%Z]).
    rewrite <- !app_assoc. reflexivity.
  - exists (a ++ (nm ++ replicate (16 - length nm) 32%Z) ++ b), (CRLF ++ [0%Z]).
    rewrite <- !app_assoc. reflexivity.
Qed.

Lemma contains_take_prefix pre x n tl :
  length pre ≤ n → contains pre (take n (pre ++ x) ++ tl).
Proof.
  intros Hn. rewrite take_app_ge by done.
  exists [], (take (n - length pre) x ++ tl). by rewrite <- app_assoc.
Qed.

Lemma unknown_contains arg0 :
  contains (chars "Unknown command") (take 127 (unknown_line arg0) ++ [0%Z]).
Proof.
  unfold unknown_line.
  replace (chars "Unknown command: ")
    with (chars "Unknown command" ++ chars ": ") by (by vm_compute).
  rewrite <- app_assoc. apply contains_take_prefix.
  apply Nat.leb_le. by vm_compute.
Qed.

Lemma tok_loop_nonzero rest : ∀ sq dq cur,
  nonzero rest → (∀ t, cur = Some t → nonzero t) →
  Forall nonzero (tok_loop rest sq dq cur).
Proof.
  induction rest as [|c rest IH]; intros sq dq cur Hr Hcur.
  - destruct cur; repeat constructor. by apply Hcur.
  - inversion Hr as [|? ? Hc Hr']; subst. cbn [tok_loop].
    assert (nonzero (default [] cur)) as Hd.
    { destruct cur; [by apply Hcur|constructor]. }
    repeat case_match; subst;
      try (constructor; [by apply Hcur|]); apply IH; try done;
      intros t' [= <-]; try done.
    apply Forall_app; split; [done|by constructor].
Qed.

Lemma tokenize_nonzero buf : Forall nonzero (tokenize buf).
Proof. apply tok_loop_nonzero; [apply c_str_nonzero|done]. Qed.

(** A token is a C string: comparing it with [strcmp] compares it as it
    is. *)
Lemma token_streq buf arg0 rest s :
  tokenize buf = arg0 :: rest → nonzero s →
  streq arg0 s = bool_decide (arg0 = s).
Proof.
  intros Htok Hs. pose proof (tokenize_nonzero buf) as Hnz.
  rewrite Htok in Hnz. inversion Hnz; subst.
  unfold streq. by rewrite !c_str_id.
Qed.

Lemma chars_help_nonzero : nonzero (chars "help").
Proof. repeat constructor; done. Qed.

Lemma Execute_help r buf out rest :
  tokenize buf = chars "help" :: rest →
  (Z.of_nat (length (tokenize buf)) ≤ kMaxArgs)%Z →
  Execute r (Some buf) out =
  {| ex_ret := 0; ex_out := PrintHelp r out; ex_call := None |}.
Proof.
  intros Htok Hlen. rewrite Execute_by_tokens. rewrite Htok in *.
  unfold Execute_tokens. by rewrite bool_decide_eq_true_2 by done.
Qed.

Lemma Execute_found r buf out arg0 rest i e f :
  tokenize buf = arg0 :: rest →
  (Z.of_nat (length (tokenize buf)) ≤ kMaxArgs)%Z →
  arg0 ≠ chars "help" →
  find_entry r arg0 = Some (i, e) → fn e = Some f →
  Execute r (Some buf) out =
  {| ex_ret := f (Z.of_nat (length (tokenize buf))) (tokenize buf) (ctx e);
     ex_out := [];
     ex_call := Some {| hc_index := i;
                        hc_argc := Z.of_nat (length (tokenize buf));
                        hc_argv := tokenize buf; hc_ctx := ctx e;
                        hc_ret := f (Z.of_nat (length (tokenize buf)))
                                    (tokenize buf) (ctx e) |} |}.
Proof.
  intros Htok Hlen Hne Hfind Hfn. rewrite Execute_by_tokens.
  pose proof (token_streq buf arg0 rest _ Htok chars_help_nonzero) as Hs.
  rewrite Htok in *. unfold Execute_tokens.
  rewrite bool_decide_eq_true_2 by done.
  rewrite Hs, bool_decide_eq_false_2 by done.
  by rewrite Hfind, Hfn.
Qed.

Lemma Execute_unknown r buf out arg0 rest :
  tokenize buf = arg0 :: rest →
  (Z.of_nat (length (tokenize buf)) ≤ kMaxArgs)%Z →
  arg0 ≠ chars "help" →
  find_entry r arg0 = None →
  Execute r (Some buf) out =
  {| ex_ret := -1;
     ex_out := if out
               then [(take 127 (unknown_line arg0) ++ [0%Z],
                      Z.of_nat (length (unknown_line arg0)))]
               else [];
     ex_call := None |}.
Proof.
  intros Htok Hlen Hne Hfind. rewrite Execute_by_tokens.
  pose proof (token_streq buf arg0 rest _ Htok chars_help_nonzero) as Hs.
  rewrite Htok in *. unfold Execute_tokens.
  rewrite bool_decide_eq_true_2 by done.
  rewrite Hs, bool_decide_eq_false_2 by done.
  rewrite Hfind. by rewrite emit128_one by apply unknown_line_ne.
Qed.

Lemma Execute_too_long r buf out :
  (kMaxArgs < Z.of_nat (length (tokenize buf)))%Z →
  Execute r (Some buf) out =
  {| ex_ret := -2; ex_out := []; ex_call := None |}.
Proof.
  intros Hlen. rewrite Execute_by_tokens. unfold Execute_tokens.
  destruct (tokenize buf) as [|a l]; [simpl in Hlen; unfold kMaxArgs in Hlen; lia|].
  by rewrite bool_decide_eq_false_2 by lia.
Qed.

Lemma Execute_empty r buf out :
  tokenize buf = [] →
  Execute r (Some buf) out =
  {| ex_ret := 0; ex_out := []; ex_call := None |}.
Proof. intros Htok. rewrite Execute_by_tokens. by rewrite Htok. Qed.


Lemma live_length r : registry_wf r → length (live r) = count_ r.
Proof.
  intros (Hlen & Hcnt & _). unfold live. rewrite length_take. lia.
Qed.

Lemma FindByName_last r e n :
  registry_wf r → count_ r < kMaxCommands →
  find_entry r n = None → name_is n e = true →
  find_entry {| entries_ := <[count_ r := e]> (entries_ r);
                count_ := S (count_ r) |} n = Some (count_ r, e).
Proof.
  intros Hwf Hlt Hnone Hn. pose proof (live_length r Hwf) as Hl.
  destruct Hwf as (Hlen & Hcnt & _).
  apply find_entry_None in Hnone.
  apply find_entry_Some. rewrite live_store by lia.
  split; [|split; [done|]].
  - rewrite lookup_app_r by lia. by rewrite Hl, Nat.sub_diag.
  - intros j e' Hj Hlt'. rewrite lookup_app_l in Hj by lia.
    rewrite Forall_lookup in Hnone. by eapply Hnone.
Qed.




Lemma PrintHelp_lists r e :
  e ∈ live r → help_fits e →
  ∃ call, call ∈ PrintHelp r true ∧
          contains (c_str (default [] (name e))) (fst call) ∧
          contains (c_str (default [] (desc e))) (fst call).
Proof.
  intros Hin Hfit.
  assert (take 127 (help_line e) ++ [0%Z] ∈ fst <$> PrintHelp r true) as Hb.
  { rewrite PrintHelp_buffers. apply elem_of_cons. right.
    apply list_elem_of_fmap. by exists e. }
  apply list_elem_of_fmap in Hb as (call & Hcall & Hc).
  exists call. split; [done|]. rewrite <- Hcall.
  by apply help_line_contains.
Qed.

(** C1 (amended): Execute returns -2 for a null line and for a line of more
    than 32 tokens; returns 0 without output or handler call for a line
    without tokens; for a first token "help" it returns 0 without looking
    the name up, and a supplied output callback receives the header and
    then, in registration order, one buffer per registered command holding
    the formatted line cut to 127 characters, which shows name and
    description in full when the line is that short; for a first token
    that is a registered name it calls the stored handler with the argument
    count, the arguments and the stored context and returns its status
    unchanged (42 for a handler returning 42); otherwise it returns -1 and
    a supplied callback receives a message containing "Unknown command".
    Without a callback nothing is output. *)
Theorem C1_Execute_spec :
  (∀ r out, Execute r None out =
            {| ex_ret := -2; ex_out := []; ex_call := None |}) ∧
  (∀ r buf out,
     (kMaxArgs < Z.of_nat (length (tokenize buf)))%Z →
     Execute r (Some buf) out =
     {| ex_ret := -2; ex_out := []; ex_call := None |}) ∧
  (∀ r buf out,
     tokenize buf = [] →
     Execute r (Some buf) out =
     {| ex_ret := 0; ex_out := []; ex_call := None |}) ∧
  (∀ r buf out rest,
     tokenize buf = chars "help" :: rest →
     (Z.of_nat (length (tokenize buf)) ≤ kMaxArgs)%Z →
     Execute r (Some buf) out =
     {| ex_ret := 0; ex_out := PrintHelp r out; ex_call := None |}) ∧
  (∀ r,
     PrintHelp r false = [] ∧
     fst <$> PrintHelp r true =
       (help_header ++ [0%Z])
       :: ((λ e, take 127 (help_line e) ++ [0%Z]) <$> live r) ∧
     ∀ e, e ∈ live r → help_fits e →
       ∃ call, call ∈ PrintHelp r true ∧
               contains (c_str (default [] (name e))) (fst call) ∧
               contains (c_str (default [] (desc e))) (fst call)) ∧
  (∀ r buf out arg0 rest i e f,
     tokenize buf = arg0 :: rest →
     (Z.of_nat (length (tokenize buf)) ≤ kMaxArgs)%Z →
     arg0 ≠ chars "help" →
     find_entry r arg0 = Some (i, e) → fn e = Some f →
     Execute r (Some buf) out =
     {| ex_ret := f (Z.of_nat (length (tokenize buf))) (tokenize buf) (ctx e);
        ex_out := [];
        ex_call := Some {| hc_index := i;
                           hc_argc := Z.of_nat (length (tokenize buf));
                           hc_argv := tokenize buf; hc_ctx := ctx e;
                           hc_ret := f (Z.of_nat (length (tokenize buf)))
                                       (tokenize buf) (ctx e) |} |}) ∧
  (∀ r buf out arg0 rest,
     tokenize buf = arg0 :: rest →
     (Z.of_nat (length (tokenize buf)) ≤ kMaxArgs)%Z →
     arg0 ≠ chars "help" →
     find_entry r arg0 = None →
     ex_ret (Execute r (Some buf) out) = (-1)%Z ∧
     ex_call (Execute r (Some buf) out) = None ∧
     (out = false → ex_out (Execute r (Some buf) out) = []) ∧
     (out = true →
      ∃ call, ex_out (Execute r (Some buf) out) = [call] ∧
              contains (chars "Unknown command") (fst call))) ∧
  ex_ret (Execute test_registry (Some (chars "fail" ++ [0%Z])) true) = 42%Z.
Proof.
  split; [done|].
  split; [exact Execute_too_long|].
  split; [exact Execute_empty|].
  split; [exact Execute_help|].
  split.
  { intros r. split; [done|]. split; [apply PrintHelp_buffers|].
    apply PrintHelp_lists. }
  split; [exact Execute_found|].
  split; [|by vm_compute].
  intros r buf out arg0 rest Htok Hlen Hne Hfind.
  rewrite (Execute_unknown r buf out arg0 rest) by done. cbn [ex_ret ex_out ex_call].
  split; [done|]. split; [done|]. split; [by intros ->|].
  intros ->. eexists. split; [done|]. apply unknown_contains.
Qed.

Lemma C1_Execute_spec_witness :
  Execute test_registry (Some (chars "fail now" ++ [0%Z])) true =
  {| ex_ret := 42; ex_out := [];
     ex_call := Some {| hc_index := 1; hc_argc := 2;
                        hc_argv := [chars "fail"; chars "now"];
                        hc_ctx := 0; hc_ret := 42 |} |}.
Proof.
  refine (proj1 (proj2 (proj2 (proj2 (proj2 (proj2 C1_Execute_spec)))))
            test_registry (chars "fail now" ++ [0%Z]) true
            (chars "fail") [chars "now"] 1
            {| name := Some (chars "fail" ++ [0%Z]);
               desc := Some (chars "returns 42" ++ [0%Z]);
               fn := Some (λ _ _ _, 42%Z); ctx := 0 |}
            (λ _ _ _, 42%Z) _ _ _ _ _).
  - reflexivity.
  - vm_compute. discriminate.
  - vm_compute. discriminate.
  - reflexivity.
  - reflexivity.
Defined.

(** C1 as stated fails: with a command whose description has 120
    characters registered, "help" hands the callback buffers none of which,
    nor all of them together, contain that description. *)
Lemma C1_counterexample :
  FindByName long_desc_registry (Some (chars "x")) =
    Some {| name := Some (chars "x" ++ [0%Z]);
            desc := Some (long_desc ++ [0%Z]);
            fn := Some (λ _ _ _, 0%Z); ctx := 0 |} ∧
  ex_ret (Execute long_desc_registry (Some (chars "help" ++ [0%Z])) true)
    = 0%Z ∧
  ¬ contains long_desc
      (concat (fst <$> ex_out (Execute long_desc_registry
                                 (Some (chars "help" ++ [0%Z])) true))).
Proof.
  split; [reflexivity|]. split; [by vm_compute|].
  apply containsb_false. by vm_compute.
Qed.

(** ** The session *)

Lemma set_iac_same s : set_iac (iac_ s) s = s.
Proof. by destruct s. Qed.

(** C10: a NUL byte received while the IAC decoder is in its Normal state
    is returned by FilterIac as the character '\0', which the read loop
    takes for "consumed": ProcessChar is not called and the session state,
    line buffer, authentication state, history and pause flag included, is
    exactly what it was. *)
Theorem C10_nul_byte_discarded reg s :
  phase (iac_ s) = kNormal →
  FilterIac (iac_ s) 0 = (iac_ s, 0%Z) ∧
  RunStep reg 0 s = s ∧
  ∀ input, RunLoop reg (0%Z :: input) s = RunLoop reg input s.
Proof.
  intros Hph.
  assert (FilterIac (iac_ s) 0 = (iac_ s, 0%Z)) as Hf.
  { unfold FilterIac. by rewrite Hph. }
  assert (RunStep reg 0 s = s) as Hs.
  { unfold RunStep. rewrite Hf. cbn. apply set_iac_same. }
  split; [done|]. split; [done|].
  intros input. cbn [RunLoop]. rewrite Hs.
  destruct (running_ s) eqn:Hr; [done|].
  destruct input; cbn [RunLoop]; by rewrite ?Hr.
Qed.

Lemma C10_nul_byte_discarded_witness :
  RunStep test_registry 0
    (RunLoop test_registry (chars "ok") (Init 3 open_config session_new))
  = RunLoop test_registry (chars "ok") (Init 3 open_config session_new).
Proof.
  apply (C10_nul_byte_discarded test_registry
           (RunLoop test_registry (chars "ok")
              (Init 3 open_config session_new))).
  reflexivity.
Defined.

(** [Send] only ever adds to what was sent. *)
Lemma Send_cases d n s :
  Send d n s = s ∨ ∃ v, Send d n s = set_sent v s.
Proof. unfold Send. repeat case_match; eauto. Qed.

Lemma SendStr_cases d s :
  SendStr d s = s ∨ ∃ v, SendStr d s = set_sent v s.
Proof. unfold SendStr. destruct d; [apply Send_cases|by left]. Qed.

Lemma Send_open d n s :
  0 < n → (0 ≤ sock_fd_ s)%Z → output_paused_ s = false →
  sent_ (Send (Some d) n s) = sent_ s ++ take n d.
Proof.
  intros Hn Hfd Hp. unfold Send.
  assert ((n =? 0) = false) as -> by (apply Nat.eqb_neq; lia).
  assert ((sock_fd_ s <? 0)%Z = false) as -> by (apply Z.ltb_ge; lia).
  by rewrite Hp.
Qed.

Lemma Send_paused d n s : output_paused_ s = true → Send d n s = s.
Proof.
  intros Hp. unfold Send. destruct d; [|done]. rewrite Hp.
  by destruct (_ || _).
Qed.

Lemma SendStr_open (msg : list Z) s :
  nonzero msg → msg ≠ [] →
  (0 ≤ sock_fd_ s)%Z → output_paused_ s = false →
  sent_ (SendStr (Some msg) s) = sent_ s ++ msg.
Proof.
  intros Hnz Hne Hfd Hp. unfold SendStr, strlen.
  rewrite c_str_id by done. rewrite Send_open; [|destruct msg; [done|simpl; lia]|done..].
  by rewrite firstn_all.
Qed.

Lemma c_str_take_nonzero n m : nonzero (take n (c_str m)).
Proof. apply Forall_take, c_str_nonzero. Qed.

Lemma c_str_zero_tail t k x : nonzero t → c_str (t ++ replicate k 0%Z ++ 0%Z :: x) = t.
Proof.
  intros Ht. rewrite c_str_app_nonzero by done.
  destruct k; simpl; by rewrite app_nil_r.
Qed.

(** [strncpy] followed by the write of the terminator at [n]: the string
    kept is the first [n] characters of the source. *)
Lemma strncpy_terminated dst src n :
  n < length dst →
  c_str (<[n := 0%Z]> (strncpy dst src n)) = take n (c_str src) ∧
  length (<[n := 0%Z]> (strncpy dst src n)) = length dst ∧
  <[n := 0%Z]> (strncpy dst src n) !! n = Some 0%Z.
Proof.
  intros Hn. unfold strncpy.
  set (t := take n (c_str src)).
  assert (length t ≤ n) as Ht by (unfold t; rewrite length_take; lia).
  assert (length (t ++ replicate (n - length t) 0%Z) = n) as Hl.
  { rewrite length_app, length_replicate. lia. }
  destruct (drop n dst) as [|x rest] eqn:Hd.
  { apply (f_equal length) in Hd. rewrite length_drop in Hd. simpl in Hd. lia. }
  assert (length rest = length dst - S n) as Hrest.
  { apply (f_equal length) in Hd. rewrite length_drop in Hd. simpl in Hd. lia. }
  rewrite app_assoc. rewrite insert_app_r_alt by lia.
  rewrite Hl, Nat.sub_diag. cbn [insert list_insert].
  rewrite <- app_assoc. split; [|split].
  - apply c_str_zero_tail, c_str_take_nonzero.
  - rewrite !length_app, length_replicate. simpl. lia.
  - rewrite app_assoc. rewrite lookup_app_r by lia. by rewrite Hl, Nat.sub_diag.
Qed.

Lemma CheckAuth_need_user s :
  auth_ s = kNeedUser →
  CheckAuth s =
  set_auth kNeedPass
    (set_user_buf (<[kUserBufLen - 1 := 0%Z]>
                     (strncpy (user_buf_ s) (cmd_buf_ s) (kUserBufLen - 1))) s).
Proof. intros H. unfold CheckAuth. by rewrite H. Qed.

Lemma streq_opt_Some a b : streq_opt a (Some b) = bool_decide (c_str a = c_str b).
Proof. done. Qed.

(** C4: with both credentials configured the session starts in NeedUser,
    otherwise Authorized.  The first completed line goes into the username
    buffer, cut to the 63 characters the buffer holds, whatever the line and
    the password are, and the state becomes NeedPass with nothing sent.  A
    completed line in NeedPass leads to Authorized, with "Login OK." handed
    to Send, exactly when the stored username and the line equal the
    configured username and password; otherwise "Login failed." is handed
    to Send, the username buffer is zeroed and the state is NeedUser again,
    so the next attempt starts as the first one did. *)
Theorem C4_auth_machine :
  (∀ fd cfg s u p,
     username cfg = Some u → password cfg = Some p →
     auth_ (Init fd cfg s) = kNeedUser ∧
     user_buf_ (Init fd cfg s) = zeros kUserBufLen) ∧
  (∀ fd cfg s,
     username cfg = None ∨ password cfg = None →
     auth_ (Init fd cfg s) = kAuthorized) ∧
  (∀ s,
     auth_ s = kNeedUser → length (user_buf_ s) = kUserBufLen →
     auth_ (CheckAuth s) = kNeedPass ∧
     c_str (user_buf_ (CheckAuth s))
       = take (kUserBufLen - 1) (c_str (cmd_buf_ s)) ∧
     length (user_buf_ (CheckAuth s)) = kUserBufLen ∧
     sent_ (CheckAuth s) = sent_ s ∧
     config_ (CheckAuth s) = config_ s) ∧
  (∀ s u p,
     auth_ s = kNeedPass →
     username (config_ s) = Some u → password (config_ s) = Some p →
     (c_str (user_buf_ s) = c_str u ∧ c_str (cmd_buf_ s) = c_str p →
      CheckAuth s = SendStr (Some msg_login_ok) (set_auth kAuthorized s)) ∧
     (¬ (c_str (user_buf_ s) = c_str u ∧ c_str (cmd_buf_ s) = c_str p) →
      CheckAuth s = set_user_buf (zeros kUserBufLen)
                      (set_auth kNeedUser
                         (SendStr (Some msg_login_failed) s))) ∧
     (auth_ (CheckAuth s) = kAuthorized ↔
      c_str (user_buf_ s) = c_str u ∧ c_str (cmd_buf_ s) = c_str p) ∧
     (auth_ (CheckAuth s) ≠ kAuthorized →
      auth_ (CheckAuth s) = kNeedUser ∧
      user_buf_ (CheckAuth s) = zeros kUserBufLen)) ∧
  (∀ s, (0 ≤ sock_fd_ s)%Z → output_paused_ s = false →
     sent_ (SendStr (Some msg_login_ok) s) = sent_ s ++ msg_login_ok ∧
     sent_ (SendStr (Some msg_login_failed) s)
       = sent_ s ++ msg_login_failed) ∧
  auth_ (RunLoop test_registry (typed "admin" ++ typed "secret")
           (Init 3 auth_config session_new)) = kAuthorized ∧
  auth_ (RunLoop test_registry (typed "secret")
           (Init 3 auth_config session_new)) = kNeedPass ∧
  (auth_ (RunLoop test_registry (typed "admin" ++ typed "wrong")
            (Init 3 auth_config session_new)) = kNeedUser ∧
   user_buf_ (RunLoop test_registry (typed "admin" ++ typed "wrong")
                (Init 3 auth_config session_new)) = zeros kUserBufLen) ∧
  auth_ (RunLoop test_registry
           (typed "admin" ++ typed "wrong" ++ typed "admin" ++ typed "secret")
           (Init 3 auth_config session_new)) = kAuthorized.
Proof.
  split.
  { intros fd cfg s u p Hu Hp. cbn. by rewrite Hu, Hp. }
  split.
  { intros fd cfg s [H|H]; cbn; rewrite H; [done|].
    by destruct (username cfg). }
  split.
  { intros s Hau Hlen. rewrite CheckAuth_need_user by done.
    destruct (strncpy_terminated (user_buf_ s) (cmd_buf_ s) (kUserBufLen - 1))
      as (Hc & Hl & _); [rewrite Hlen; unfold kUserBufLen; lia|].
    cbn [auth_ user_buf_ sent_ config_ set_auth set_user_buf].
    by rewrite Hl. }
  split.
  { intros s u p Hau Hu Hp.
    assert (Hok : c_str (user_buf_ s) = c_str u ∧ c_str (cmd_buf_ s) = c_str p →
                  CheckAuth s = SendStr (Some msg_login_ok)
                                  (set_auth kAuthorized s)).
    { intros [H1 H2]. unfold CheckAuth. rewrite Hau, Hu, Hp, !streq_opt_Some.
      by rewrite !bool_decide_eq_true_2. }
    assert (Hko : ¬ (c_str (user_buf_ s) = c_str u ∧
                     c_str (cmd_buf_ s) = c_str p) →
                  CheckAuth s = set_user_buf (zeros kUserBufLen)
                                  (set_auth kNeedUser
                                     (SendStr (Some msg_login_failed) s))).
    { intros Hn. unfold CheckAuth. rewrite Hau, Hu, Hp, !streq_opt_Some.
      destruct (decide (c_str (user_buf_ s) = c_str u)) as [H1|H1].
      - rewrite (bool_decide_eq_true_2 _ H1).
        rewrite bool_decide_eq_false_2; [done|]. naive_solver.
      - by rewrite (bool_decide_eq_false_2 _ H1). }
    split; [done|]. split; [done|].
    destruct (decide (c_str (user_buf_ s) = c_str u ∧
                      c_str (cmd_buf_ s) = c_str p)) as [H|H].
    - rewrite (Hok H).
      assert (auth_ (SendStr (Some msg_login_ok) (set_auth kAuthorized s))
              = kAuthorized) as ->.
      { by destruct (SendStr_cases (Some msg_login_ok)
                       (set_auth kAuthorized s)) as [->|[v ->]]. }
      split; [done|]. done.
    - rewrite (Hko H). cbn [auth_ user_buf_ set_user_buf set_auth].
      split; [|done]. split; [done|]. by intros ?. }
  split.
  { intros s Hfd Hp. split; apply SendStr_open; try done;
      repeat constructor; done. }
  by vm_compute.
Qed.

Lemma C4_auth_machine_witness :
  auth_ (CheckAuth (RunLoop test_registry (typed "admin" ++ chars "secret")
                      (Init 3 auth_config session_new))) = kAuthorized.
Proof.
  apply (proj2 (proj1 (proj2 (proj2 (proj1 (proj2 (proj2 (proj2
           C4_auth_machine)))
           (RunLoop test_registry (typed "admin" ++ chars "secret")
              (Init 3 auth_config session_new))
           (chars "admin" ++ [0%Z]) (chars "secret" ++ [0%Z])
           eq_refl eq_refl eq_refl))))).
  by vm_compute.
Defined.

(** *** The history ring *)

Lemma rd0_c_str c : (rd c 0 =? 0)%Z = bool_decide (c_str c = []).
Proof.
  destruct c as [|x c]; [done|]. unfold rd. simpl.
  destruct (Z.eqb_spec x 0); [done|].
  symmetry. by apply bool_decide_eq_false_2.
Qed.

Lemma GetHistory_nat (i : nat) s :
  GetHistory (Z.of_nat i) s =
  if decide (i < history_count_ s)
  then Some (default [] (history_ s !!
               ((history_write_ s + kHistorySize - 1 - i) mod kHistorySize)))
  else None.
Proof.
  unfold GetHistory.
  assert ((Z.of_nat i <? 0)%Z = false) as -> by (apply Z.ltb_ge; lia).
  cbn [orb]. rewrite Nat2Z.id.
  destruct (decide (i < history_count_ s)) as [H|H].
  - by assert ((Z.of_nat (history_count_ s) <=? Z.of_nat i)%Z = false) as ->
      by (apply Z.leb_gt; lia).
  - by assert ((Z.of_nat (history_count_ s) <=? Z.of_nat i)%Z = true) as ->
      by (apply Z.leb_le; lia).
Qed.

Lemma GetHistory_neg i s : (i < 0)%Z → GetHistory i s = None.
Proof.
  intros H. unfold GetHistory.
  by assert ((i <? 0)%Z = true) as -> by (apply Z.ltb_lt; lia).
Qed.

Lemma ring_prev w : w < 16 → ((w + 1) mod 16 + 16 - 1 - 0) mod 16 = w.
Proof.
  intros H. destruct (decide (w = 15)) as [->|Hne]; [done|].
  rewrite (Nat.mod_small (w + 1)) by lia.
  replace (w + 1 + 16 - 1 - 0) with (w + 1 * 16) by lia.
  rewrite Nat.Div0.mod_add. apply Nat.mod_small. lia.
Qed.

Lemma ring_shift w i :
  w < 16 → 0 < i → i < 16 →
  ((w + 1) mod 16 + 16 - 1 - i) mod 16 = (w + 16 - 1 - (i - 1)) mod 16 ∧
  (w + 16 - 1 - (i - 1)) mod 16 ≠ w.
Proof.
  intros Hw Hi Hi'.
  assert ((w + 1) mod 16 + 16 - 1 - i = w + 16 - 1 - (i - 1) ∨
          ((w + 1) mod 16 + 16 - 1 - i) + 16 = w + 16 - 1 - (i - 1)) as Hc.
  { destruct (decide (w = 15)) as [->|Hne].
    - right. change ((15 + 1) mod 16) with 0. lia.
    - left. rewrite (Nat.mod_small (w + 1)) by lia. lia. }
  split.
  - destruct Hc as [->|Hc]; [done|]. rewrite <- Hc.
    replace (((w + 1) mod 16 + 16 - 1 - i) + 16)
      with (((w + 1) mod 16 + 16 - 1 - i) + 1 * 16) by lia.
    by rewrite Nat.Div0.mod_add.
  - destruct (decide (i ≤ w)) as [Hle|Hgt].
    + replace (w + 16 - 1 - (i - 1)) with ((w - i) + 1 * 16) by lia.
      rewrite Nat.Div0.mod_add, Nat.mod_small by lia. lia.
    + rewrite Nat.mod_small by lia. lia.
Qed.

Lemma PushHistory_empty line s : c_str line = [] → PushHistory (Some line) s = s.
Proof.
  intros H. unfold PushHistory. by rewrite rd0_c_str, bool_decide_eq_true_2.
Qed.

Lemma GetHistory_0 s :
  GetHistory 0 s =
  if 0 <? history_count_ s
  then Some (default [] (history_ s !!
               ((history_write_ s + kHistorySize - 1) mod kHistorySize)))
  else None.
Proof.
  rewrite (GetHistory_nat 0). rewrite Nat.sub_0_r.
  destruct (decide (0 < history_count_ s)) as [H|H].
  - by assert ((0 <? history_count_ s) = true) as -> by (by apply Nat.ltb_lt).
  - by assert ((0 <? history_count_ s) = false) as -> by (by apply Nat.ltb_ge; lia).
Qed.

Lemma PushHistory_repeat line row s :
  GetHistory 0 s = Some row → c_str row = c_str line →
  PushHistory (Some line) s = s.
Proof.
  intros Hg Heq. rewrite GetHistory_0 in Hg. unfold PushHistory.
  destruct (rd line 0 =? 0)%Z; [done|].
  destruct (0 <? history_count_ s); [|done]. apply (inj Some) in Hg.
  rewrite Hg. cbn [andb]. by rewrite (proj2 (streq_true row line) Heq).
Qed.

(** The state a push that stores its line leaves. *)
Lemma PushHistory_store line s :
  c_str line ≠ [] →
  (∀ row, GetHistory 0 s = Some row → c_str row ≠ c_str line) →
  PushHistory (Some line) s =
  let w := history_write_ s in
  let row := <[kMaxCmdLen - 1 := 0%Z]>
               (strncpy (default [] (history_ s !! w)) line (kMaxCmdLen - 1)) in
  let s2 := set_history_write ((w + 1) mod kHistorySize)
              (set_history (<[w := row]> (history_ s)) s) in
  if history_count_ s <? kHistorySize
  then set_history_count (S (history_count_ s)) s2 else s2.
Proof.
  intros Hne Hnew. unfold PushHistory.
  rewrite rd0_c_str, bool_decide_eq_false_2 by done.
  rewrite GetHistory_0 in Hnew.
  destruct (0 <? history_count_ s); [|done]. cbn [andb].
  by rewrite (proj2 (streq_false _ line) (Hnew _ eq_refl)).
Qed.

Lemma history_push_keep line h :
  c_str line = [] ∨ head h = Some (c_str line) → history_push line h = h.
Proof.
  intros [H|H]; unfold history_push.
  - by rewrite bool_decide_eq_true_2.
  - case_bool_decide; [done|]. by rewrite bool_decide_eq_true_2.
Qed.

Lemma history_push_store line h :
  c_str line ≠ [] → head h ≠ Some (c_str line) →
  history_push line h
  = take kHistorySize (take (kMaxCmdLen - 1) (c_str line) :: h).
Proof.
  intros H1 H2. unfold history_push.
  by rewrite !bool_decide_eq_false_2.
Qed.

Lemma history_rep_head s h :
  history_rep s h → c_str <$> GetHistory 0 s = head h.
Proof. intros (_ & _ & H). rewrite head_lookup. apply (H 0). Qed.

Lemma history_row_length s w :
  history_wf s → w < kHistorySize →
  length (default [] (history_ s !! w)) = kMaxCmdLen.
Proof.
  intros (Hrows & Hrow & _) Hw.
  destruct (lookup_lt_is_Some_2 (history_ s) w) as [row Hr]; [lia|].
  rewrite Hr. cbn. rewrite Forall_lookup in Hrow. by eapply Hrow.
Qed.

(** Storing a line: the new row becomes entry 0 and every stored entry
    moves one index up; the sixteenth falls out. *)
Lemma history_store_rep line s h :
  history_rep s h →
  history_rep
    (let w := history_write_ s in
     let row := <[kMaxCmdLen - 1 := 0%Z]>
                  (strncpy (default [] (history_ s !! w)) line
                           (kMaxCmdLen - 1)) in
     let s2 := set_history_write ((w + 1) mod kHistorySize)
                 (set_history (<[w := row]> (history_ s)) s) in
     if history_count_ s <? kHistorySize
     then set_history_count (S (history_count_ s)) s2 else s2)
    (take kHistorySize (take (kMaxCmdLen - 1) (c_str line) :: h)).
Proof.
  intros (Hwf & Hlen & Hget).
  pose proof (history_row_length s (history_write_ s) Hwf) as Hrl.
  destruct Hwf as (Hrows & Hrow & Hcnt & Hw). specialize (Hrl Hw).
  destruct (strncpy_terminated (default [] (history_ s !! history_write_ s))
              line (kMaxCmdLen - 1)) as (Hcs & Hcl & _);
    [rewrite Hrl; unfold kMaxCmdLen; lia|].
  set (row := <[kMaxCmdLen - 1 := 0%Z]> _) in *.
  set (cnt' := if history_count_ s <? kHistorySize
               then S (history_count_ s) else history_count_ s).
  cbn zeta.
  match goal with |- history_rep ?st _ => set (s' := st) end.
  assert (history_ s' = <[history_write_ s := row]> (history_ s)) as Hh'
    by (unfold s'; by destruct (_ <? _)).
  assert (history_write_ s' = (history_write_ s + 1) mod kHistorySize) as Hw'
    by (unfold s'; by destruct (_ <? _)).
  assert (history_count_ s' = cnt') as Hc'
    by (unfold s', cnt'; by destruct (_ <? _)).
  assert (cnt' = min kHistorySize (S (history_count_ s))) as Hcnt'.
  { unfold cnt'. destruct (Nat.ltb_spec (history_count_ s) kHistorySize); lia. }
  clearbody s' cnt'.
  split; [|split].
  - split; [|split; [|split]].
    + by rewrite Hh', length_insert.
    + rewrite Hh'. apply Forall_insert; [done|]. by rewrite Hcl.
    + rewrite Hc'. lia.
    + rewrite Hw'. apply Nat.mod_upper_bound. done.
  - rewrite length_take. cbn [length]. rewrite Hlen, Hc'. lia.
  - intros i. rewrite GetHistory_nat, Hc', Hw', Hh'.
    unfold kHistorySize in *.
    destruct (decide (i < cnt')) as [Hi|Hi].
    + rewrite lookup_take_lt by lia.
      destruct i as [|i].
      * rewrite ring_prev by done.
        rewrite list_lookup_insert_eq by lia. cbn. by rewrite Hcs.
      * destruct (ring_shift (history_write_ s) (S i)) as [He Hne];
          [lia..|].
        rewrite He, list_lookup_insert_ne by done.
        cbn [lookup list_lookup]. rewrite <- Hget, GetHistory_nat.
        rewrite decide_True by lia.
        by replace (S i - 1) with i by lia.
    + rewrite lookup_ge_None_2; [done|].
      rewrite length_take. cbn [length]. lia.
Qed.

(** A push keeps the ring buffer in step with the list of stored lines. *)
Lemma PushHistory_rep line s h :
  history_rep s h →
  history_rep (PushHistory (Some line) s) (history_push line h).
Proof.
  intros Hrep. pose proof (history_rep_head s h Hrep) as Hhead.
  destruct (decide (c_str line = [])) as [He|He].
  { rewrite PushHistory_empty, history_push_keep by auto. done. }
  destruct (decide (head h = Some (c_str line))) as [Hd|Hd].
  { rewrite <- Hhead in Hd.
    destruct (GetHistory 0 s) as [row|] eqn:Hg0; [|done].
    injection Hd as Hd.
    rewrite (PushHistory_repeat line row), history_push_keep; try done.
    right. rewrite <- Hhead. simpl. by rewrite Hd. }
  rewrite PushHistory_store, history_push_store; try done.
  - by apply history_store_rep.
  - intros row Hr Heq. apply Hd. rewrite <- Hhead, Hr. simpl. by rewrite Heq.
Qed.

Lemma history_init_rep fd cfg s0 : history_rep (Init fd cfg s0) [].
Proof.
  split; [|split; [done|]].
  - split; [done|]. split; [|cbn; unfold kHistorySize; lia].
    cbn [history_ Init]. apply Forall_replicate. done.
  - intros i. rewrite GetHistory_nat. cbn [history_count_ Init].
    rewrite decide_False by lia. done.
Qed.

Lemma push_all_rep lines : ∀ s h,
  history_rep s h →
  history_rep (push_all lines s) (foldl (λ h l, history_push l h) h lines).
Proof.
  induction lines as [|l lines IH]; intros s h Hrep; [done|].
  cbn [push_all foldl]. apply IH. by apply PushHistory_rep.
Qed.

Lemma history_log_snoc lines l :
  history_log (lines ++ [l]) = history_push l (history_log lines).
Proof. unfold history_log. by rewrite foldl_app. Qed.

(** For lines as the editor produces them, none repeating its predecessor,
    the stored list is the sequence of pushes read backwards, cut at 16. *)
Lemma history_log_reverse lines :
  Forall history_line lines → no_adjacent_dup lines →
  history_log lines = take kHistorySize (reverse lines).
Proof.
  induction lines as [|l lines IH] using rev_ind; intros Hall Hnd; [done|].
  apply Forall_app in Hall as [Hall Hl].
  inversion Hl as [|? ? (Hnz & Hne & Hlen) _]; subst.
  rewrite history_log_snoc, reverse_snoc.
  rewrite IH; [|done|].
  2: { intros i a b Ha Hb. apply (Hnd i); by apply lookup_app_l_Some. }
  rewrite history_push_store.
  - rewrite c_str_id, (take_ge l) by done.
    unfold kHistorySize. cbn [take]. by rewrite take_take.
  - by rewrite c_str_id.
  - rewrite c_str_id by done. rewrite head_lookup, lookup_take_lt
      by (unfold kHistorySize; lia).
    rewrite <- head_lookup, head_reverse.
    intros Hlast. apply last_Some in Hlast as [l' ->].
    apply (Hnd (length l') l l).
    + rewrite lookup_app_l by (rewrite length_app; simpl; lia).
      by apply list_lookup_middle.
    + apply list_lookup_middle. rewrite length_app. simpl. lia.
    + done.
Qed.

(** C6: pushing an empty line or a line equal to the most recent entry
    leaves the history as it is; any other push writes the line into the
    slot at the write cursor, advances the cursor circularly and raises the
    count up to 16; after any pushes the entries read through GetHistory
    are the stored lines from the most recent one backwards.  Pushing "a",
    "a", "b" stores two entries, "b" at index 0 and "a" at index 1. *)
Theorem C6_history_ring :
  (∀ s, PushHistory None s = s) ∧
  (∀ s line, c_str line = [] → PushHistory (Some line) s = s) ∧
  (∀ s line row,
     GetHistory 0 s = Some row → c_str row = c_str line →
     PushHistory (Some line) s = s) ∧
  (∀ s line,
     history_wf s → c_str line ≠ [] →
     (∀ row, GetHistory 0 s = Some row → c_str row ≠ c_str line) →
     history_write_ (PushHistory (Some line) s)
       = (history_write_ s + 1) mod kHistorySize ∧
     history_count_ (PushHistory (Some line) s)
       = min kHistorySize (S (history_count_ s)) ∧
     c_str <$> (history_ (PushHistory (Some line) s) !! history_write_ s)
       = Some (take (kMaxCmdLen - 1) (c_str line)) ∧
     (∀ j, j ≠ history_write_ s →
        history_ (PushHistory (Some line) s) !! j = history_ s !! j) ∧
     c_str <$> GetHistory 0 (PushHistory (Some line) s)
       = Some (take (kMaxCmdLen - 1) (c_str line))) ∧
  (∀ lines fd cfg s0,
     history_count_ (push_all lines (Init fd cfg s0))
       = length (history_log lines) ∧
     length (history_log lines) ≤ kHistorySize ∧
     (∀ i : nat,
        c_str <$> GetHistory (Z.of_nat i) (push_all lines (Init fd cfg s0))
        = history_log lines !! i) ∧
     (∀ i, (i < 0)%Z →
        GetHistory i (push_all lines (Init fd cfg s0)) = None)) ∧
  (∀ lines,
     Forall history_line lines → no_adjacent_dup lines →
     history_log lines = take kHistorySize (reverse lines)) ∧
  (history_count_ (push_all [chars "a"; chars "a"; chars "b"]
                     (Init 3 open_config session_new)) = 2 ∧
   c_str <$> GetHistory 0 (push_all [chars "a"; chars "a"; chars "b"]
                             (Init 3 open_config session_new))
     = Some (chars "b") ∧
   c_str <$> GetHistory 1 (push_all [chars "a"; chars "a"; chars "b"]
                             (Init 3 open_config session_new))
     = Some (chars "a") ∧
   GetHistory 2 (push_all [chars "a"; chars "a"; chars "b"]
                   (Init 3 open_config session_new)) = None) ∧
  history_count_ (push_all [chars "a"; chars "b"; chars "a"]
                    (Init 3 open_config session_new)) = 3.
Proof.
  split; [done|].
  split; [intros; by apply PushHistory_empty|].
  split; [intros; by eapply PushHistory_repeat|].
  split.
  { intros s line Hwf Hne Hnew.
    pose proof (history_row_length s (history_write_ s) Hwf) as Hrl.
    destruct Hwf as (Hrows & Hrow & Hcnt & Hw). specialize (Hrl Hw).
    destruct (strncpy_terminated (default [] (history_ s !! history_write_ s))
                line (kMaxCmdLen - 1)) as (Hcs & Hcl & _);
      [rewrite Hrl; unfold kMaxCmdLen; lia|].
    rewrite PushHistory_store by done. cbn zeta.
    set (row := <[kMaxCmdLen - 1 := 0%Z]> _) in *.
    assert (∀ (st : TelnetSession), history_ st = <[history_write_ s := row]> (history_ s) →
            history_write_ st = (history_write_ s + 1) mod kHistorySize →
            history_count_ st = min kHistorySize (S (history_count_ s)) →
            history_write_ st = (history_write_ s + 1) mod kHistorySize ∧
            history_count_ st = min kHistorySize (S (history_count_ s)) ∧
            c_str <$> (history_ st !! history_write_ s)
              = Some (take (kMaxCmdLen - 1) (c_str line)) ∧
            (∀ j, j ≠ history_write_ s → history_ st !! j = history_ s !! j) ∧
            c_str <$> GetHistory 0 st
              = Some (take (kMaxCmdLen - 1) (c_str line))) as Hgen.
    { intros st Hh Hwr Hc. split; [done|]. split; [done|].
      rewrite Hh. split; [|split].
      - rewrite list_lookup_insert_eq by lia. cbn. by rewrite Hcs.
      - intros j Hj. by rewrite list_lookup_insert_ne.
      - rewrite GetHistory_0, Hc, Hh, Hwr.
        assert ((0 <? min kHistorySize (S (history_count_ s))) = true) as ->
          by (apply Nat.ltb_lt; unfold kHistorySize; lia).
        unfold kHistorySize in *.
        pose proof (ring_prev (history_write_ s) Hw) as Hp.
        rewrite Nat.sub_0_r in Hp. rewrite Hp.
        rewrite list_lookup_insert_eq by lia. cbn. by rewrite Hcs. }
    destruct (Nat.ltb_spec (history_count_ s) kHistorySize);
      apply Hgen; try done; cbn [history_count_ set_history_count
        set_history_write set_history]; unfold kHistorySize in *; lia. }
  split.
  { intros lines fd cfg s0.
    destruct (push_all_rep lines _ _ (history_init_rep fd cfg s0))
      as ((_ & _ & Hcnt & _) & Hlen & Hget).
    unfold history_log.
    split; [done|]. split; [rewrite Hlen; exact Hcnt|]. split; [done|].
    intros i Hi. by apply GetHistory_neg. }
  split; [exact history_log_reverse|].
  by vm_compute.
Qed.

Lemma C6_history_ring_witness :
  PushHistory (Some (chars "b" ++ [0%Z]))
    (push_all [chars "a"; chars "b"] (Init 3 open_config session_new))
  = push_all [chars "a"; chars "b"] (Init 3 open_config session_new).
Proof.
  apply (proj1 (proj2 (proj2 C6_history_ring))
           (push_all [chars "a"; chars "b"] (Init 3 open_config session_new))
           (chars "b" ++ [0%Z])
           (<[kMaxCmdLen - 1 := 0%Z]>
              (strncpy (zeros kMaxCmdLen) (chars "b") (kMaxCmdLen - 1)))).
  - by vm_compute.
  - by vm_compute.
Defined.

(** *** The line editor *)

Lemma editor_wf_ext s s' :
  editor_fields s' = editor_fields s → editor_wf s → editor_wf s'.
Proof.
  unfold editor_fields, editor_wf, line_wf, nav_wf.
  intros [= -> -> -> ->]. done.
Qed.

Lemma ef_Send d n s : editor_fields (Send d n s) = editor_fields s.
Proof. by destruct (Send_cases d n s) as [->|[v ->]]. Qed.

Lemma Send_cmd_buf d n s : cmd_buf_ (Send d n s) = cmd_buf_ s.
Proof. by destruct (Send_cases d n s) as [->|[v ->]]. Qed.

Lemma Send_cmd_len d n s : cmd_len_ (Send d n s) = cmd_len_ s.
Proof. by destruct (Send_cases d n s) as [->|[v ->]]. Qed.

Lemma Send_history_nav d n s : history_nav_ (Send d n s) = history_nav_ s.
Proof. by destruct (Send_cases d n s) as [->|[v ->]]. Qed.

Lemma Send_history_count d n s :
  history_count_ (Send d n s) = history_count_ s.
Proof. by destruct (Send_cases d n s) as [->|[v ->]]. Qed.

Lemma Send_auth d n s : auth_ (Send d n s) = auth_ s.
Proof. by destruct (Send_cases d n s) as [->|[v ->]]. Qed.

Lemma Send_arrow d n s : arrow_ (Send d n s) = arrow_ s.
Proof. by destruct (Send_cases d n s) as [->|[v ->]]. Qed.

Lemma ef_SendStr d s : editor_fields (SendStr d s) = editor_fields s.
Proof. by destruct (SendStr_cases d s) as [->|[v ->]]. Qed.

Lemma ef_ShowPrompt s : editor_fields (ShowPrompt s) = editor_fields s.
Proof. unfold ShowPrompt. destruct (auth_ s); apply ef_SendStr. Qed.

Lemma ef_CheckAuth s : editor_fields (CheckAuth s) = editor_fields s.
Proof.
  unfold CheckAuth. destruct (auth_ s); [done| |done].
  destruct (_ && _).
  - by rewrite ef_SendStr.
  - change (editor_fields (SendStr (Some msg_login_failed) s) = editor_fields s).
    apply ef_SendStr.
Qed.

Lemma ef_outputs outs : ∀ s,
  editor_fields (foldl (λ acc call, SessionOutput call acc) s outs)
  = editor_fields s.
Proof.
  induction outs as [|o outs IH]; intros s; [done|].
  cbn [foldl]. rewrite IH. apply ef_Send.
Qed.

(** A push touches neither the line buffer nor the cursor, and never
    lowers the count. *)
Lemma PushHistory_editor cmd s :
  cmd_buf_ (PushHistory cmd s) = cmd_buf_ s ∧
  cmd_len_ (PushHistory cmd s) = cmd_len_ s ∧
  history_nav_ (PushHistory cmd s) = history_nav_ s ∧
  history_count_ s ≤ history_count_ (PushHistory cmd s).
Proof.
  unfold PushHistory. destruct cmd as [c|]; [|done].
  destruct (rd c 0 =? 0)%Z; [done|].
  destruct (_ && _); [done|].
  cbn [history_count_ set_history_write set_history].
  destruct (history_count_ s <? kHistorySize); cbn; repeat split; lia.
Qed.

Lemma ExecuteCommand_editor reg s :
  cmd_buf_ (ExecuteCommand reg s) = cmd_buf_ s ∧
  cmd_len_ (ExecuteCommand reg s) = cmd_len_ s ∧
  history_nav_ (ExecuteCommand reg s) = history_nav_ s ∧
  history_count_ s ≤ history_count_ (ExecuteCommand reg s).
Proof.
  destruct (PushHistory_editor (Some (cmd_buf_ s)) s) as (Hb & Hl & Hn & Hc).
  unfold ExecuteCommand.
  set (s1 := PushHistory (Some (cmd_buf_ s)) s) in *.
  assert (∀ s2, editor_fields s2 = editor_fields s1 →
            cmd_buf_ s2 = cmd_buf_ s ∧ cmd_len_ s2 = cmd_len_ s ∧
            history_nav_ s2 = history_nav_ s ∧
            history_count_ s ≤ history_count_ s2) as Hgen.
  { unfold editor_fields. intros s2 [= -> -> -> ->]. done. }
  destruct (_ || _).
  - apply Hgen. unfold Stop.
    change (editor_fields (SendStr (Some msg_bye) s1) = editor_fields s1).
    apply ef_SendStr.
  - apply Hgen. apply ef_outputs.
Qed.

Lemma erase_line_fields n : ∀ s,
  cmd_buf_ (erase_line n s) = cmd_buf_ s ∧
  cmd_len_ (erase_line n s) = (if n is O then cmd_len_ s else 0) ∧
  history_nav_ (erase_line n s) = history_nav_ s ∧
  history_count_ (erase_line n s) = history_count_ s.
Proof.
  induction n as [|n IH]; intros s; [done|]. cbn [erase_line].
  destruct (IH (Send (Some msg_erase) 3 (set_cmd_len n s)))
    as (Hb & Hl & Hn & Hc).
  rewrite Hb, Hl, Hn, Hc.
  rewrite Send_cmd_buf, Send_cmd_len, Send_history_nav, Send_history_count.
  cbn. by destruct n.
Qed.

Lemma ReplaceLineWith_wf t s :
  length (cmd_buf_ s) = kMaxCmdLen →
  line_wf (ReplaceLineWith (Some t) s) ∧
  history_nav_ (ReplaceLineWith (Some t) s) = history_nav_ s ∧
  history_count_ (ReplaceLineWith (Some t) s) = history_count_ s.
Proof.
  intros Hlen. unfold ReplaceLineWith.
  destruct (erase_line_fields (cmd_len_ s) s) as (Hb & _ & Hn & Hc).
  set (s1 := erase_line (cmd_len_ s) s) in *.
  set (len := if kMaxCmdLen <=? strlen t then kMaxCmdLen - 1 else strlen t).
  assert (len ≤ kMaxCmdLen - 1) as Hlen1.
  { unfold len. destruct (Nat.leb_spec kMaxCmdLen (strlen t)); lia. }
  assert (len ≤ length t) as Hlen2.
  { assert (strlen t ≤ length t).
    { unfold strlen. destruct (c_str_split t) as (tl & Ht & _).
      rewrite Ht at 2. rewrite length_app. lia. }
    unfold len. destruct (Nat.leb_spec kMaxCmdLen (strlen t)); lia. }
  cbn zeta.
  unfold line_wf.
  rewrite Send_cmd_buf, Send_cmd_len, Send_history_nav, Send_history_count.
  cbn [cmd_buf_ cmd_len_ history_nav_ history_count_ set_cmd_len set_cmd_buf].
  rewrite Hb, Hn, Hc.
  assert (length (memcpy (cmd_buf_ s) t len) = kMaxCmdLen) as Hm.
  { unfold memcpy. rewrite length_app, length_take, length_drop.
    unfold kMaxCmdLen in *. lia. }
  repeat split; [by rewrite length_insert|done|].
  apply list_lookup_insert_eq. unfold kMaxCmdLen in *. lia.
Qed.

Lemma GetHistory_is_Some i s :
  (0 ≤ i < Z.of_nat (history_count_ s))%Z → is_Some (GetHistory i s).
Proof.
  intros [H0 H1]. unfold GetHistory.
  assert ((i <? 0)%Z = false) as -> by (apply Z.ltb_ge; lia).
  assert ((Z.of_nat (history_count_ s) <=? i)%Z = false) as ->
    by (apply Z.leb_gt; lia).
  by eexists.
Qed.

Lemma HandleArrow_wf c s : editor_wf s → editor_wf (HandleArrow c s).
Proof.
  intros Hwf. pose proof Hwf as ((Hlen & Hl & Ht) & Hnav).
  unfold nav_wf in Hnav. unfold HandleArrow.
  assert (∀ i, (0 ≤ i < Z.of_nat (history_count_ s))%Z →
            editor_wf (ReplaceLineWith
                         (GetHistory i (set_history_nav i (set_arrow kNone s)))
                         (set_history_nav i (set_arrow kNone s)))) as Hrep.
  { intros i Hi.
    destruct (GetHistory_is_Some i (set_history_nav i (set_arrow kNone s)))
      as [row ->]; [done|].
    destruct (ReplaceLineWith_wf row (set_history_nav i (set_arrow kNone s)))
      as (Hw & Hn & Hc); [done|].
    split; [done|]. unfold nav_wf. rewrite Hn, Hc.
    cbn [history_nav_ history_count_ set_history_nav set_arrow]. lia. }
  destruct (arrow_ s); [|by apply (editor_wf_ext s)|];
    cbn [history_nav_ history_count_ set_arrow];
    (destruct (c =? 65)%Z;
     [destruct (Z.ltb_spec (history_nav_ s + 1)
                  (Z.of_nat (history_count_ s)));
        [|by apply (editor_wf_ext s)];
      cbn [history_nav_ set_history_nav]; apply Hrep; lia|]);
    (destruct (c =? 66)%Z; [|by apply (editor_wf_ext s)]);
    (destruct (Z.ltb_spec 0 (history_nav_ s));
     [cbn [history_nav_ set_history_nav]; apply Hrep; lia|]);
    (destruct (Z.eqb_spec (history_nav_ s) 0);
     [|by apply (editor_wf_ext s)]);
    (destruct (ReplaceLineWith_wf [0%Z]
                 (set_history_nav (-1) (set_arrow kNone s)))
       as (Hw & Hn & Hc); [done|]);
    (split; [done|]); unfold nav_wf; rewrite Hn, Hc; cbn; lia.
Qed.

Lemma ProcessChar_full reg c s :
  arrow_ s = kNone → plain_byte c = true → kMaxCmdLen - 1 ≤ cmd_len_ s →
  ProcessChar reg c s = s.
Proof.
  intros Ha Hp Hfull. unfold ProcessChar. rewrite Ha.
  unfold plain_byte in Hp. apply negb_true_iff in Hp.
  repeat (apply orb_false_iff in Hp as [Hp ?]).
  repeat match goal with H : (_ =? _)%Z = false |- _ => rewrite H; clear H end.
  cbn [orb].
  by assert ((cmd_len_ s <? kMaxCmdLen - 1) = false) as ->
    by (by apply Nat.ltb_ge).
Qed.

Lemma ProcessChar_append reg c s :
  arrow_ s = kNone → plain_byte c = true → cmd_len_ s < kMaxCmdLen - 1 →
  ProcessChar reg c s = Send (Some [echo_of s c]) 1 (line_append c s).
Proof.
  intros Ha Hp Hroom. unfold ProcessChar. rewrite Ha.
  unfold plain_byte in Hp. apply negb_true_iff in Hp.
  repeat (apply orb_false_iff in Hp as [Hp ?]).
  repeat match goal with H : (_ =? _)%Z = false |- _ => rewrite H; clear H end.
  cbn [orb].
  assert ((cmd_len_ s <? kMaxCmdLen - 1) = true) as ->
    by (by apply Nat.ltb_lt).
  unfold echo_of, line_append.
  cbn [auth_ cmd_len_ cmd_buf_ set_cmd_len set_cmd_buf].
  destruct s as [fd run rg cf ia au ub ar cb cl hi hc hw hn op se]; cbn.
  by destruct au.
Qed.

Lemma line_append_wf c s :
  line_wf s → cmd_len_ s < kMaxCmdLen - 1 → line_wf (line_append c s).
Proof.
  intros (Hlen & Hl & Ht) Hroom. unfold line_wf, line_append.
  cbn [cmd_len_ cmd_buf_ set_cmd_len set_cmd_buf].
  rewrite !length_insert. repeat split; [done|lia|].
  apply list_lookup_insert_eq. rewrite length_insert. lia.
Qed.

Lemma ProcessChar_wf reg c s : editor_wf s → editor_wf (ProcessChar reg c s).
Proof.
  intros Hwf. pose proof Hwf as ((Hlen & Hl & Ht) & Hnav).
  unfold ProcessChar.
  destruct (arrow_ s) eqn:Ha.
  2,3: by apply HandleArrow_wf.
  destruct (c =? 27)%Z; [by apply (editor_wf_ext s)|].
  destruct (c =? 19)%Z; [by apply (editor_wf_ext s)|].
  destruct (c =? 17)%Z; [by apply (editor_wf_ext s)|].
  destruct ((c =? 8)%Z || (c =? 127)%Z).
  { destruct (Nat.ltb_spec 0 (cmd_len_ s)); [|done].
    cbn [auth_ cmd_len_ cmd_buf_ set_cmd_len set_cmd_buf].
    assert (editor_wf (set_cmd_buf (<[cmd_len_ s - 1 := 0%Z]> (cmd_buf_ s))
                         (set_cmd_len (cmd_len_ s - 1) s))) as Hb.
    { split; [|done]. unfold line_wf.
      cbn [cmd_len_ cmd_buf_ set_cmd_len set_cmd_buf].
      rewrite length_insert. repeat split; [done|lia|].
      apply list_lookup_insert_eq. lia. }
    destruct (auth_ s); [|done|];
      (eapply editor_wf_ext; [apply ef_Send|done]). }
  destruct (c =? 13)%Z.
  { eapply editor_wf_ext; [apply ef_ShowPrompt|].
    split.
    - unfold line_wf. cbn [cmd_len_ cmd_buf_ set_cmd_len set_cmd_buf
        set_history_nav].
      split; [apply length_replicate|]. split; [lia|reflexivity].
    - unfold nav_wf. cbn [history_nav_ history_count_ set_cmd_len set_cmd_buf
        set_history_nav]. lia. }
  destruct (c =? 10)%Z; [done|].
  destruct (Nat.ltb_spec (cmd_len_ s) (kMaxCmdLen - 1)); [|done].
  cbn [auth_ cmd_len_ cmd_buf_ set_cmd_len set_cmd_buf].
  assert (editor_wf (line_append c s)) as Hb.
  { split; [by apply line_append_wf|done]. }
  destruct (auth_ s); (eapply editor_wf_ext; [apply ef_Send|]);
    unfold line_append in Hb; by destruct s.
Qed.

Lemma process_all_wf reg cs : ∀ s, editor_wf s → editor_wf (process_all reg cs s).
Proof.
  induction cs as [|c cs IH]; intros s Hwf; [done|].
  apply IH. by apply ProcessChar_wf.
Qed.

Lemma RunStep_wf reg b s : editor_wf s → editor_wf (RunStep reg b s).
Proof.
  intros Hwf. unfold RunStep. destruct (FilterIac (iac_ s) b) as [iac' c].
  assert (editor_wf (set_iac iac' s)) by (by apply (editor_wf_ext s)).
  destruct (c =? 0)%Z; [done|]. by apply ProcessChar_wf.
Qed.

Lemma RunLoop_wf reg input : ∀ s, editor_wf s → editor_wf (RunLoop reg input s).
Proof.
  induction input as [|b bs IH]; intros s Hwf; [done|].
  cbn [RunLoop]. destruct (running_ s); [|done].
  apply IH. by apply RunStep_wf.
Qed.

Lemma Init_wf fd cfg s0 : editor_wf (Init fd cfg s0).
Proof. split; [repeat split|]; cbn; unfold kMaxCmdLen; try done; lia. Qed.

Lemma printable_plain c : (32 ≤ c ≤ 126)%Z → plain_byte c = true.
Proof.
  intros H. unfold plain_byte. apply negb_true_iff.
  repeat (apply orb_false_iff; split); apply Z.eqb_neq; lia.
Qed.

Lemma line_append_take c s :
  line_wf s → cmd_len_ s < kMaxCmdLen - 1 →
  take (S (cmd_len_ s)) (cmd_buf_ (line_append c s))
  = take (cmd_len_ s) (cmd_buf_ s) ++ [c].
Proof.
  intros (Hlen & Hl & Ht) Hroom. unfold line_append.
  cbn [cmd_len_ cmd_buf_ set_cmd_len set_cmd_buf].
  rewrite take_insert_ge by lia.
  rewrite (take_S_r _ _ c) by (apply list_lookup_insert_eq; lia).
  by rewrite take_insert_ge by lia.
Qed.

(** C8 (amended): whatever characters the line editor is fed, the line
    buffer keeps its 256 bytes, holds at most 255 characters and has a NUL
    at its length.  Outside an escape sequence, a byte that is none of ESC,
    Ctrl+S, Ctrl+Q, backspace, DEL, CR and LF (every printable byte is one)
    leaves the session as it is when the buffer already holds 255
    characters; when there is room it is appended, the terminator is
    written behind it, and its echo, '*' in password entry and the byte
    itself otherwise, is handed to Send, which transmits it unless output
    is paused.  Inside an escape sequence every byte goes to the arrow-key
    decoder instead. *)
Theorem C8_line_buffer_bound :
  (∀ reg fd cfg s0 cs, line_wf (process_all reg cs (Init fd cfg s0))) ∧
  (∀ reg fd cfg s0 input, line_wf (RunLoop reg input (Init fd cfg s0))) ∧
  (∀ c, (32 ≤ c ≤ 126)%Z → plain_byte c = true) ∧
  (∀ reg s c,
     arrow_ s = kNone → plain_byte c = true →
     cmd_len_ s = kMaxCmdLen - 1 →
     ProcessChar reg c s = s) ∧
  (∀ reg s c,
     arrow_ s = kNone → plain_byte c = true →
     line_wf s → cmd_len_ s < kMaxCmdLen - 1 →
     ProcessChar reg c s = Send (Some [echo_of s c]) 1 (line_append c s) ∧
     cmd_len_ (ProcessChar reg c s) = S (cmd_len_ s) ∧
     take (S (cmd_len_ s)) (cmd_buf_ (ProcessChar reg c s))
       = take (cmd_len_ s) (cmd_buf_ s) ++ [c] ∧
     cmd_buf_ (ProcessChar reg c s) !! S (cmd_len_ s) = Some 0%Z ∧
     ((0 ≤ sock_fd_ s)%Z → output_paused_ s = false →
      sent_ (ProcessChar reg c s) = sent_ s ++ [echo_of s c]) ∧
     (output_paused_ s = true → sent_ (ProcessChar reg c s) = sent_ s)) ∧
  (∀ s c, (auth_ s = kNeedPass → echo_of s c = 42%Z) ∧
          (auth_ s ≠ kNeedPass → echo_of s c = c)) ∧
  (∀ reg s c, arrow_ s ≠ kNone → ProcessChar reg c s = HandleArrow c s).
Proof.
  split.
  { intros reg fd cfg s0 cs. apply process_all_wf, Init_wf. }
  split.
  { intros reg fd cfg s0 input. apply RunLoop_wf, Init_wf. }
  split; [exact printable_plain|].
  split.
  { intros reg s c Ha Hp Hfull. apply ProcessChar_full; try done. lia. }
  split.
  { intros reg s c Ha Hp Hwf Hroom.
    rewrite ProcessChar_append by done.
    pose proof (line_append_wf c s Hwf Hroom) as (_ & _ & Hterm).
    split; [done|].
    rewrite Send_cmd_len, Send_cmd_buf.
    split; [done|]. split; [by apply line_append_take|]. split; [done|].
    split.
    - intros Hfd Hpa. rewrite Send_open; [done|lia|done..].
    - intros Hpa. by rewrite Send_paused. }
  split.
  { intros s c. unfold echo_of. split; [by intros ->|].
    by destruct (auth_ s). }
  intros reg s c Ha. unfold ProcessChar. by destruct (arrow_ s).
Qed.

Lemma C8_line_buffer_bound_witness :
  sent_ (ProcessChar test_registry 97 (Init 3 open_config session_new))
  = sent_ (Init 3 open_config session_new)
    ++ [echo_of (Init 3 open_config session_new) 97].
Proof.
  refine (proj1 (proj2 (proj2 (proj2 (proj2
            (proj1 (proj2 (proj2 (proj2 (proj2 C8_line_buffer_bound))))
               test_registry (Init 3 open_config session_new) 97%Z
               _ _ _ _))))) _ _).
  - reflexivity.
  - reflexivity.
  - apply Init_wf.
  - cbn. unfold kMaxCmdLen. lia.
  - cbn. lia.
  - reflexivity.
Defined.

(** C8 as stated fails: after ESC a printable byte that arrives with room
    in the buffer is neither appended nor echoed. *)
Lemma C8_counterexample :
  arrow_ (ProcessChar test_registry 27 (Init 3 open_config session_new))
    = kEsc ∧
  cmd_len_ (ProcessChar test_registry 27 (Init 3 open_config session_new))
    = 0 ∧
  plain_byte 97 = true ∧
  cmd_len_ (process_all test_registry [27; 97]%Z
              (Init 3 open_config session_new)) = 0 ∧
  cmd_buf_ (process_all test_registry [27; 97]%Z
              (Init 3 open_config session_new)) = zeros kMaxCmdLen ∧
  sent_ (process_all test_registry [27; 97]%Z
           (Init 3 open_config session_new)) = [].
Proof. by vm_compute. Qed.

(** ** More on the registry *)

Lemma find_entry_ext r n n' :
  c_str n = c_str n' → find_entry r n = find_entry r n'.
Proof.
  intros Heq. unfold find_entry.
  assert (∀ e, name_is n e = name_is n' e) as Hn.
  { intros e. unfold name_is, streq. destruct (name e); [|done].
    by rewrite Heq. }
  induction (take (count_ r) (entries_ r)) as [|e l IH]; [done|].
  cbn. rewrite Hn, IH. by destruct (decide (name_is n' e = true)).
Qed.

(** Looking a name up after an entry was stored behind the registered
    ones. *)
Lemma find_entry_store r e n :
  registry_wf r → count_ r < kMaxCommands →
  find_entry {| entries_ := <[count_ r := e]> (entries_ r);
                count_ := S (count_ r) |} n
  = match find_entry r n with
    | Some p => Some p
    | None => if name_is n e then Some (count_ r, e) else None
    end.
Proof.
  intros Hwf Hlt. pose proof (live_length r Hwf) as Hl.
  pose proof Hwf as (Hlen & Hcnt & _).
  destruct (find_entry r n) as [[i e0]|] eqn:Hf.
  - apply find_entry_Some in Hf as (Hi & Hn & Hmin).
    apply find_entry_Some. rewrite live_store by lia.
    assert (i < length (live r)) by (by eapply lookup_lt_Some).
    split; [by rewrite lookup_app_l|]. split; [done|].
    intros j e' Hj Hji. rewrite lookup_app_l in Hj by lia. by eapply Hmin.
  - destruct (name_is n e) eqn:Hne.
    + by apply FindByName_last.
    + apply find_entry_None. rewrite live_store by lia.
      apply find_entry_None in Hf. apply Forall_app. split; [done|].
      constructor; [|constructor]. by rewrite Hne.
Qed.

(** X1: a successful Register makes FindByName return the new entry for
    every spelling of its name, and leaves the answer for every other name
    as it was. *)
Theorem X1_register_then_find r n ds f cx n' :
  registry_wf r →
  fst (Register (Some n) ds (Some f) cx r) = true →
  FindByName (snd (Register (Some n) ds (Some f) cx r)) (Some n')
  = if bool_decide (c_str n' = c_str n)
    then Some {| name := Some n; desc := ds; fn := Some f; ctx := cx |}
    else FindByName r (Some n').
Proof.
  intros Hwf Hok. unfold Register in *.
  case_bool_decide as Hfull; [done|].
  case_bool_decide as Hdup; [done|]. cbn [snd fst] in *.
  unfold FindByName. rewrite find_entry_store by (done || lia).
  assert (find_entry r n = None) as Hnone.
  { destruct (find_entry r n) eqn:E; [|done]. exfalso. apply Hdup. eauto. }
  case_bool_decide as Heq.
  - rewrite (find_entry_ext r n' n Heq), Hnone.
    unfold name_is. cbn [name].
    by rewrite (proj2 (streq_true n n')).
  - destruct (find_entry r n') as [p|]; [done|].
    unfold name_is. cbn [name].
    rewrite (proj2 (streq_false n n')); [done|]. congruence.
Qed.

Lemma X1_register_then_find_witness :
  FindByName (snd (Register (Some (chars "inc" ++ [0%Z])) None
                     (Some (λ _ _ _, 5%Z)) 9%Z test_registry))
             (Some (chars "inc"))
  = Some {| name := Some (chars "inc" ++ [0%Z]); desc := None;
            fn := Some (λ _ _ _, 5%Z); ctx := 9 |}.
Proof.
  refine (X1_register_then_find test_registry (chars "inc" ++ [0%Z]) None
            (λ _ _ _, 5%Z) 9%Z (chars "inc") _ _).
  - apply Register_wf, Register_wf, registry_init_wf.
  - reflexivity.
Defined.

Lemma names_unique_init : names_unique registry_init.
Proof. intros i j ei ej ni nj Hi. done. Qed.

Lemma Register_unique nm ds f cx r :
  registry_wf r → names_unique r →
  names_unique (snd (Register nm ds f cx r)).
Proof.
  intros Hwf Hun. pose proof (live_length r Hwf) as Hl.
  unfold Register. destruct nm as [n|], f as [f'|]; try done.
  case_bool_decide as Hfull; [done|].
  case_bool_decide as Hdup; [done|]. cbn [snd].
  destruct Hwf as (Hlen & Hcnt & Hall).
  assert (Forall (λ e, name_is n e ≠ true) (live r)) as Hnone.
  { apply find_entry_None. destruct (find_entry r n) eqn:E; [|done].
    exfalso. apply Hdup. eauto. }
  rewrite Forall_lookup in Hnone.
  assert (∀ i e ni, live r !! i = Some e → name e = Some ni →
                    c_str ni ≠ c_str n) as Hfresh.
  { intros i e ni Hi Hni Heq. apply (Hnone i e Hi).
    unfold name_is. rewrite Hni. by apply streq_true. }
  intros i j ei ej ni nj. rewrite live_store by lia.
  intros Hi Hj Hni Hnj Heq.
  destruct (decide (i < length (live r))) as [Hil|Hil];
    destruct (decide (j < length (live r))) as [Hjl|Hjl].
  - rewrite lookup_app_l in Hi, Hj by done. by eapply Hun.
  - rewrite lookup_app_l in Hi by done.
    rewrite lookup_app_r in Hj by lia.
    destruct (j - length (live r)) as [|k]; [|done].
    cbn in Hj. simplify_eq. cbn in Hnj. simplify_eq.
    exfalso. by eapply Hfresh.
  - rewrite lookup_app_l in Hj by done.
    rewrite lookup_app_r in Hi by lia.
    destruct (i - length (live r)) as [|k]; [|done].
    cbn in Hi. simplify_eq. cbn in Hni. simplify_eq.
    exfalso. by eapply Hfresh.
  - apply lookup_lt_Some in Hi, Hj. rewrite length_app in Hi, Hj.
    cbn [length] in Hi, Hj. lia.
Qed.

Lemma Register_count nm ds f cx r :
  count_ r ≤ count_ (snd (Register nm ds f cx r)) ≤ S (count_ r).
Proof.
  unfold Register. destruct nm, f; cbn; try lia.
  repeat case_bool_decide; cbn; lia.
Qed.

Lemma auto_register_inv calls : ∀ r,
  registry_wf r → names_unique r →
  registry_wf (auto_register calls r) ∧ names_unique (auto_register calls r) ∧
  count_ (auto_register calls r) ≤ count_ r + length calls.
Proof.
  induction calls as [|q calls IH]; intros r Hwf Hun.
  - split; [done|]. split; [done|]. cbn. lia.
  - cbn [auto_register foldl]. fold (auto_register calls).
    destruct (IH (CmdAutoReg (rc_name q) (rc_desc q) (rc_fn q) (rc_ctx q) r))
      as (H1 & H2 & H3).
    + by apply Register_wf.
    + by apply Register_unique.
    + split; [done|]. split; [done|].
      pose proof (Register_count (rc_name q) (rc_desc q) (rc_fn q) (rc_ctx q) r).
      unfold auto_register, CmdAutoReg in *. cbn [length]. lia.
Qed.

Lemma find_own_name r i e n :
  names_unique r → live r !! i = Some e → name e = Some n →
  find_entry r n = Some (i, e).
Proof.
  intros Hun Hi Hn.
  destruct (find_entry r n) as [[i' e']|] eqn:Hf.
  - apply find_entry_Some in Hf as (Hi' & Hn' & _).
    unfold name_is in Hn'. destruct (name e') as [n'|] eqn:Hne'; [|done].
    apply streq_true in Hn'.
    assert (i' = i) as -> by (by eapply (Hun i' i e' e n' n)).
    by simplify_eq.
  - apply find_entry_None in Hf. rewrite Forall_lookup in Hf.
    exfalso. apply (Hf i e Hi). unfold name_is. rewrite Hn.
    by apply streq_true.
Qed.

(** X2: whatever Register calls are made on an empty registry, the
    registered names stay pairwise different, the count stays within 64 and
    within the number of calls, and FindByName returns every registered
    entry when asked for that entry's name. *)
Theorem X2_registry_invariant calls :
  registry_wf (auto_register calls registry_init) ∧
  names_unique (auto_register calls registry_init) ∧
  Count (auto_register calls registry_init) ≤ kMaxCommands ∧
  Count (auto_register calls registry_init) ≤ length calls ∧
  ∀ i e n,
    live (auto_register calls registry_init) !! i = Some e →
    name e = Some n →
    FindByName (auto_register calls registry_init) (Some n) = Some e.
Proof.
  destruct (auto_register_inv calls registry_init registry_init_wf
              names_unique_init) as (Hwf & Hun & Hc).
  split; [done|]. split; [done|].
  split; [apply Hwf|]. split; [exact Hc|].
  intros i e n Hi Hn. unfold FindByName.
  by rewrite (find_own_name _ i e n).
Qed.

Lemma Register_live nm ds f cx r :
  registry_wf r →
  live (snd (Register nm ds f cx r))
  = if fst (Register nm ds f cx r)
    then live r ++ [{| name := nm; desc := ds; fn := f; ctx := cx |}]
    else live r.
Proof.
  intros (Hlen & Hcnt & _). unfold Register.
  destruct nm as [n|], f as [f'|]; try done.
  case_bool_decide as Hfull; [done|].
  case_bool_decide as Hdup; [done|]. cbn [fst snd].
  apply live_store. lia.
Qed.

(** X3: ForEach visits the registered entries in registration order: after
    a successful Register it visits what it visited before and then the
    new entry, and after a failed Register exactly what it visited
    before. *)
Theorem X3_foreach_after_register {A : Type} (visitor : A → CmdEntry → A)
    (acc : A) r nm ds f cx :
  registry_wf r →
  ForEach visitor acc (snd (Register nm ds f cx r))
  = if fst (Register nm ds f cx r)
    then visitor (ForEach visitor acc r)
           {| name := nm; desc := ds; fn := f; ctx := cx |}
    else ForEach visitor acc r.
Proof.
  intros Hwf. unfold ForEach.
  fold (live (snd (Register nm ds f cx r))). fold (live r).
  rewrite Register_live by done.
  destruct (fst (Register nm ds f cx r)); [|done].
  by rewrite foldl_app.
Qed.

Lemma X3_foreach_after_register_witness :
  ForEach (λ n (_ : CmdEntry), S n) 0
    (snd (Register (Some (chars "a")) None (Some (λ _ _ _, 0%Z)) 0%Z
            test_registry))
  = 3.
Proof.
  rewrite (X3_foreach_after_register (λ n (_ : CmdEntry), S n) 0 test_registry
             (Some (chars "a")) None (Some (λ _ _ _, 0%Z)) 0%Z).
  - reflexivity.
  - apply Register_wf, Register_wf, registry_init_wf.
Defined.

(** ** More on Execute *)

Lemma find_entry_other r n ds f cx n' :
  registry_wf r → fst (Register (Some n) ds (Some f) cx r) = true →
  c_str n' ≠ c_str n →
  find_entry (snd (Register (Some n) ds (Some f) cx r)) n' = find_entry r n'.
Proof.
  intros Hwf Hok Hne. unfold Register in *.
  case_bool_decide as Hfull; [done|].
  case_bool_decide as Hdup; [done|]. cbn [snd fst] in *.
  rewrite find_entry_store by (done || lia).
  destruct (find_entry r n') as [p|]; [done|].
  unfold name_is. cbn [name].
  rewrite (proj2 (streq_false n n')); [done|]. congruence.
Qed.

Lemma find_entry_new r n ds f cx :
  registry_wf r → fst (Register (Some n) ds (Some f) cx r) = true →
  find_entry (snd (Register (Some n) ds (Some f) cx r)) (c_str n)
  = Some (count_ r, {| name := Some n; desc := ds; fn := Some f; ctx := cx |}).
Proof.
  intros Hwf Hok. unfold Register in *.
  case_bool_decide as Hfull; [done|].
  case_bool_decide as Hdup; [done|]. cbn [snd fst] in *.
  assert (c_str (c_str n) = c_str n) as Hcc by apply c_str_id, c_str_nonzero.
  rewrite find_entry_store by (done || lia).
  rewrite (find_entry_ext r (c_str n) n Hcc).
  destruct (find_entry r n) eqn:E; [exfalso; apply Hdup; eauto|].
  unfold name_is. cbn [name].
  by rewrite (proj2 (streq_true n (c_str n))).
Qed.

(** X4: a command that was registered is the one Execute runs: a line
    whose first token is the new name calls the new handler with the token
    count, the tokens and the context given to Register, and returns what the
    handler returns; a line whose first token is another name, other than
    help, is executed as before the registration. *)
Theorem X4_register_then_execute r n ds f cx :
  registry_wf r →
  fst (Register (Some n) ds (Some f) cx r) = true →
  (∀ buf out rest,
     tokenize buf = c_str n :: rest →
     (Z.of_nat (length (tokenize buf)) ≤ kMaxArgs)%Z →
     c_str n ≠ chars "help" →
     Execute (snd (Register (Some n) ds (Some f) cx r)) (Some buf) out =
     {| ex_ret := f (Z.of_nat (length (tokenize buf))) (tokenize buf) cx;
        ex_out := [];
        ex_call := Some {| hc_index := count_ r;
                           hc_argc := Z.of_nat (length (tokenize buf));
                           hc_argv := tokenize buf; hc_ctx := cx;
                           hc_ret := f (Z.of_nat (length (tokenize buf)))
                                       (tokenize buf) cx |} |}) ∧
  (∀ buf out,
     head (tokenize buf) ≠ Some (c_str n) →
     head (tokenize buf) ≠ Some (chars "help") →
     Execute (snd (Register (Some n) ds (Some f) cx r)) (Some buf) out
     = Execute r (Some buf) out).
Proof.
  intros Hwf Hok. split.
  - intros buf out rest Htok Hlen Hnh.
    by rewrite (Execute_found _ buf out (c_str n) rest (count_ r)
                  {| name := Some n; desc := ds; fn := Some f; ctx := cx |} f
                  Htok Hlen Hnh (find_entry_new r n ds f cx Hwf Hok) eq_refl).
  - intros buf out Hn Hh. rewrite !Execute_by_tokens.
    pose proof (tokenize_nonzero buf) as Hnz.
    destruct (tokenize buf) as [|arg0 rest] eqn:Htok; [done|].
    cbn [head] in Hn, Hh. unfold Execute_tokens.
    case_bool_decide; [|done].
    rewrite (token_streq buf arg0 rest _ Htok chars_help_nonzero).
    case_bool_decide as Hh'; [congruence|].
    rewrite find_entry_other; [done..|].
    apply Forall_cons_1 in Hnz as [Hnz _].
    rewrite (c_str_id arg0 Hnz). congruence.
Qed.

Lemma X4_register_then_execute_witness :
  Execute (snd (Register (Some (chars "inc" ++ [0%Z])) None
                  (Some (λ argc _ cx, (argc + cx)%Z)) 40%Z test_registry))
          (Some (chars "inc 'a b'" ++ [0%Z])) true
  = {| ex_ret := 42; ex_out := [];
       ex_call := Some {| hc_index := 2; hc_argc := 2;
                          hc_argv := [chars "inc"; chars "a b"];
                          hc_ctx := 40; hc_ret := 42 |} |}.
Proof.
  refine (proj1 (X4_register_then_execute test_registry (chars "inc" ++ [0%Z])
                   None (λ argc _ cx, (argc + cx)%Z) 40%Z _ _)
            (chars "inc 'a b'" ++ [0%Z]) true [chars "a b"] _ _ _).
  - apply Register_wf, Register_wf, registry_init_wf.
  - reflexivity.
  - reflexivity.
  - vm_compute. discriminate.
  - vm_compute. discriminate.
Defined.

(** X5: the output callback has no part in what Execute decides: without
    one it returns the same code and makes the same handler call, and it
    produces no output. *)
Theorem X5_execute_without_sink r cmdline :
  ex_ret (Execute r cmdline false) = ex_ret (Execute r cmdline true) ∧
  ex_call (Execute r cmdline false) = ex_call (Execute r cmdline true) ∧
  ex_out (Execute r cmdline false) = [].
Proof.
  destruct cmdline as [buf|]; [|done].
  rewrite !Execute_by_tokens. unfold Execute_tokens.
  destruct (tokenize buf) as [|arg0 rest]; [done|].
  case_bool_decide; [|done].
  destruct (streq arg0 (chars "help")); [done|].
  by destruct (find_entry r arg0) as [[i e]|].
Qed.

Lemma help_line_nonzero e : nonzero (help_line e).
Proof.
  unfold help_line, pad16, nonzero.
  rewrite !Forall_app. repeat split.
  - by repeat constructor.
  - apply c_str_nonzero.
  - by apply Forall_replicate.
  - by repeat constructor.
  - apply c_str_nonzero.
  - by repeat constructor.
Qed.

Lemma unknown_line_nonzero arg0 : nonzero arg0 → nonzero (unknown_line arg0).
Proof.
  intros H. unfold unknown_line, nonzero. rewrite !Forall_app. repeat split.
  - by vm_compute; repeat constructor.
  - done.
  - by repeat constructor.
Qed.

Lemma emit128_ok text : nonzero text → Forall out_call_ok (emit128 text).
Proof.
  intros Hnz. destruct (decide (text = [])) as [->|Hne]; [by constructor|].
  rewrite emit128_one by done. constructor; [|constructor].
  assert (nonzero (take 127 text)) as Hnzt.
  { unfold nonzero in *. by apply Forall_take. }
  unfold out_call_ok, strlen. cbn [fst snd].
  rewrite (c_str_app_nonzero _ _ Hnzt). cbn [c_str]. cbn [Z.eqb].
  rewrite app_nil_r, length_app, length_take. cbn [length].
  destruct text as [|c text]; [done|]. cbn [length]. lia.
Qed.

(** X6: every buffer Execute hands to the output callback holds a C string
    of at most 127 characters with its terminator inside the 128 bytes; the
    length argument is positive and never below the length of that string,
    and equals it unless the text was cut. *)
Theorem X6_output_buffers r cmdline out call :
  call ∈ ex_out (Execute r cmdline out) → out_call_ok call.
Proof.
  destruct cmdline as [buf|]; [|by intros ?%elem_of_nil].
  rewrite Execute_by_tokens. unfold Execute_tokens.
  pose proof (tokenize_nonzero buf) as Hnz.
  destruct (tokenize buf) as [|arg0 rest]; [by intros ?%elem_of_nil|].
  apply Forall_cons_1 in Hnz as [Hnz _].
  case_bool_decide; [|by intros ?%elem_of_nil].
  destruct (streq arg0 (chars "help")).
  - cbn [ex_out]. unfold PrintHelp.
    destruct out; cbn [negb]; [|by intros ?%elem_of_nil].
    intros [->|Hin]%elem_of_cons.
    + vm_compute. repeat split; try lia; by intros ?.
    + apply list_elem_of_bind in Hin as (e & Hin & _).
      pose proof (emit128_ok (help_line e) (help_line_nonzero e)) as Hok.
      rewrite Forall_forall in Hok. apply Hok. by apply list_elem_of_In.
  - destruct (find_entry r arg0) as [[i e]|]; cbn [ex_out];
      [by intros ?%elem_of_nil|].
    destruct out; [|by intros ?%elem_of_nil].
    intros Hin.
    pose proof (emit128_ok _ (unknown_line_nonzero arg0 Hnz)) as Hok.
    rewrite Forall_forall in Hok. apply Hok. by apply list_elem_of_In.
Qed.

Lemma X6_output_buffers_witness :
  out_call_ok (take 127 (unknown_line (chars "nope")) ++ [0%Z], 23%Z).
Proof.
  apply (X6_output_buffers test_registry (Some (chars "nope" ++ [0%Z])) true).
  vm_compute. apply list_elem_of_here.
Defined.

(** ** ShellSplit works inside the line *)

Lemma increasing_nil : increasing [].
Proof. by intros i j a b ?. Qed.

Lemma increasing_snoc l p :
  increasing l → Forall (λ o, o < p) l → increasing (l ++ [p]).
Proof.
  intros Hl Hp i j a b Hi Hj Hij.
  assert (i < length l) as Hil.
  { apply lookup_lt_Some in Hj. rewrite length_app in Hj. cbn in Hj. lia. }
  rewrite lookup_app_l in Hi by done.
  destruct (decide (j < length l)) as [Hjl|Hjl].
  - rewrite lookup_app_l in Hj by done. by eapply Hl.
  - rewrite lookup_app_r in Hj by lia.
    destruct (j - length l) as [|?]; [|done]. cbn in Hj. simplify_eq.
    rewrite Forall_lookup in Hp. by eapply Hp.
Qed.

Lemma ends_zeros k tl : ends tl → ends (replicate k 0%Z ++ tl).
Proof. destruct k; [done|]. intros _. right. cbn. eauto. Qed.

Lemma shift_left_frame pre q r k tl :
  nonzero r → ends tl →
  shift_left (pre ++ q :: r ++ replicate k 0%Z ++ tl) (length pre)
  = pre ++ r ++ replicate (S k) 0%Z ++ tl.
Proof.
  intros Hr Htl. by rewrite shift_left_spec by (done || by apply ends_zeros).
Qed.

(** A state of the loop as a result. *)
Lemma frame_return ret n tl m pre rest k argv sq dq ia :
  length pre + length rest + k = n →
  (Z.of_nat (length argv) ≤ m)%Z →
  Forall (λ o, o < n) argv → increasing argv →
  ret = (-1)%Z ∨ ret = Z.of_nat (length argv) →
  split_safe n tl m
    (sp_return ret
       {| sp_buf := pre ++ rest ++ replicate k 0%Z ++ tl; sp_p := length pre;
          sp_argv := argv; in_sq := sq; in_dq := dq; in_arg := ia |}).
Proof.
  intros Hn Hm Hb Hinc Hret. unfold split_safe, sp_return.
  cbn [sr_buf sr_argv sr_ret sp_buf sp_argv].
  split; [|done].
  exists (pre ++ rest ++ replicate k 0%Z). split.
  - by rewrite <- !app_assoc.
  - rewrite !length_app, length_replicate. lia.
Qed.

Lemma split_loop_frame rest : ∀ fuel max m n pre k tl argv sq dq (ia : bool),
  nonzero rest → ends tl → length rest < fuel →
  length pre + length rest + k = n →
  (max ≤ m)%Z → (Z.of_nat (length argv) ≤ m)%Z →
  Forall (λ o, o < n) argv → increasing argv →
  Forall (λ o, o < (if ia then S (length pre) else length pre)) argv →
  ∃ r, split_loop fuel max
         {| sp_buf := pre ++ rest ++ replicate k 0%Z ++ tl;
            sp_p := length pre; sp_argv := argv;
            in_sq := sq; in_dq := dq; in_arg := ia |} = Some r ∧
       split_safe n tl m r.
Proof.
  induction rest as [|c rest IH];
    intros fuel max m n pre k tl argv sq dq ia Hr Htl Hf Hn Hmax Hm Hb Hinc Hp;
    (destruct fuel as [|fuel]; [simpl in Hf; lia|]); cbn [split_loop].
  - cbn [sp_buf sp_p app]. rewrite rd_end by (by apply ends_zeros).
    cbn [Z.eqb]. eexists; split; [done|].
    apply (frame_return _ n tl m pre [] k); try done. by right.
  - inversion Hr as [|? ? Hc Hr']; subst.
    assert (Hf' : length rest < fuel) by (simpl in Hf; lia).
    cbn [sp_buf sp_p sp_argv in_sq in_dq in_arg].
    change ((c :: rest) ++ replicate k 0%Z ++ tl)
      with (c :: rest ++ replicate k 0%Z ++ tl).
    rewrite rd_mid. destruct (Z.eqb_spec c 0) as [|_]; [done|].
    assert (Hpre : ∀ d j, pre ++ d :: rest ++ replicate j 0%Z ++ tl
                          = (pre ++ [d]) ++ rest ++ replicate j 0%Z ++ tl)
      by (intros; by rewrite <- app_assoc).
    assert (Hplen : ∀ d, S (length pre) = length (pre ++ [d]))
      by (intros; rewrite length_app; simpl; lia).
    assert (Hlt : length pre < length pre + length (c :: rest) + k)
      by (cbn [length]; lia).
    assert (Hp' : Forall (λ o, o < S (length pre)) argv).
    { eapply Forall_impl; [|exact Hp]. cbn. intros o. destruct ia; lia. }
    assert (Hnew : ia = false →
      (Z.of_nat (length argv) < max)%Z →
      (Z.of_nat (length (argv ++ [length pre])) ≤ m)%Z ∧
      Forall (λ o, o < length pre + length (c :: rest) + k)
             (argv ++ [length pre]) ∧
      increasing (argv ++ [length pre]) ∧
      Forall (λ o, o < S (length pre)) (argv ++ [length pre])).
    { intros -> Hroom. split; [rewrite length_app; cbn [length]; lia|].
      split; [apply Forall_app; split; [done|by repeat constructor]|].
      split; [by apply increasing_snoc|].
      apply Forall_app. split; [done|]. repeat constructor. }
    destruct (is_ws c && negb sq && negb dq) eqn:Hws.
    { destruct ia.
      - unfold sp_advance; cbn [sp_buf sp_p sp_argv in_sq in_dq in_arg].
        rewrite insert_mid, (Hpre 0%Z), (Hplen 0%Z).
        apply IH; try done.
        + rewrite length_app. cbn [length] in *. lia.
        + by rewrite <- Hplen.
      - unfold sp_advance; cbn [sp_buf sp_p sp_argv in_sq in_dq in_arg].
        rewrite (Hpre c), (Hplen c).
        apply IH; try done.
        + rewrite length_app. cbn [length] in *. lia.
        + by rewrite <- Hplen. }
    rewrite shift_left_frame by done.
    assert (Hquote : ∀ sq' dq',
      ∃ r, begin_arg max
             {| sp_buf := pre ++ rest ++ replicate (S k) 0%Z ++ tl;
                sp_p := length pre; sp_argv := argv;
                in_sq := sq'; in_dq := dq'; in_arg := ia |}
             (split_loop fuel max) = Some r ∧
           split_safe (length pre + length (c :: rest) + k) tl m r).
    { intros sq' dq'. unfold begin_arg.
      cbn [sp_buf sp_p sp_argv in_sq in_dq in_arg]. destruct ia.
      - apply IH; try done. cbn [length]. lia.
      - unfold sp_argc. cbn [sp_argv].
        destruct (Z.leb_spec max (Z.of_nat (length argv))) as [Hle|Hgt].
        + eexists; split; [done|].
          apply (frame_return _ _ tl m pre rest (S k)); try done.
          * cbn [length]. lia.
          * by left.
        + destruct (Hnew eq_refl Hgt) as (H1 & H2 & H3 & H4).
          apply IH; try done. cbn [length]. lia. }
    destruct ((c =? SQUOTE)%Z && negb dq); [apply Hquote|].
    destruct ((c =? DQUOTE)%Z && negb sq); [apply Hquote|].
    clear Hquote. unfold begin_arg.
    cbn [sp_buf sp_p sp_argv in_sq in_dq in_arg]. destruct ia.
    + unfold sp_advance; cbn [sp_buf sp_p sp_argv in_sq in_dq in_arg].
      rewrite (Hpre c), (Hplen c).
      apply IH; try done.
      * rewrite length_app. cbn [length] in *. lia.
      * rewrite <- Hplen. eapply Forall_impl; [|exact Hp']. cbn. lia.
    + unfold sp_argc. cbn [sp_argv].
      destruct (Z.leb_spec max (Z.of_nat (length argv))) as [Hle|Hgt].
      * eexists; split; [done|].
        replace (pre ++ c :: rest ++ replicate k 0%Z ++ tl)
          with (pre ++ (c :: rest) ++ replicate k 0%Z ++ tl) by done.
        apply (frame_return _ _ tl m pre (c :: rest) k); try done.
        by left.
      * destruct (Hnew eq_refl Hgt) as (H1 & H2 & H3 & H4).
        unfold sp_advance; cbn [sp_buf sp_p sp_argv in_sq in_dq in_arg].
        rewrite (Hpre c), (Hplen c).
        apply IH; try done.
        -- rewrite length_app. cbn [length] in *. lia.
        -- rewrite <- Hplen. eapply Forall_impl; [|exact H4]. cbn. lia.
Qed.

Lemma drop_c_str buf tl :
  buf = c_str buf ++ tl → drop (strlen buf) buf = tl.
Proof.
  intros H. unfold strlen. rewrite H at 2. by rewrite drop_app_length.
Qed.

Lemma ShellSplit_safe buf max :
  split_safe (strlen buf) (drop (strlen buf) buf) (Z.max 0 max)
    (ShellSplit (Some buf) true max).
Proof.
  destruct (c_str_split buf) as (tl & Hbuf & Htl).
  rewrite (drop_c_str buf tl Hbuf).
  unfold ShellSplit. cbn [negb].
  destruct (split_loop_frame (c_str buf) (split_fuel buf) max (Z.max 0 max)
              (strlen buf) [] 0 tl [] false false false) as (r & Hr & Hs).
  - apply c_str_nonzero.
  - done.
  - unfold split_fuel. rewrite Hbuf at 2. rewrite length_app. lia.
  - unfold strlen. cbn [length]. lia.
  - lia.
  - cbn [length]. lia.
  - constructor.
  - apply increasing_nil.
  - constructor.
  - cbn [app replicate length] in Hr. rewrite <- Hbuf in Hr.
    unfold split_init. by rewrite Hr.
Qed.

Lemma c_str_length_le l : ∀ j, l !! j = Some 0%Z → length (c_str l) ≤ j.
Proof.
  induction l as [|c l IH]; intros j Hj; [done|]. cbn [c_str].
  destruct (Z.eqb_spec c 0) as [->|Hc]; [cbn; lia|].
  destruct j as [|j]; [cbn in Hj; congruence|].
  cbn [length]. apply IH in Hj. lia.
Qed.

(** X7: ShellSplit works inside the line it is given.  On a terminated
    buffer it keeps the size of the buffer and every byte from the original
    terminator on, stores at most max_args pointers, stores them in
    increasing order and inside the original string, leaves every argument
    string ending at or before the original terminator, and returns either
    the error code or the number of pointers stored. *)
Theorem X7_ShellSplit_in_place buf max_args :
  strlen buf < length buf →
  length (sr_buf (ShellSplit (Some buf) true max_args)) = length buf ∧
  drop (strlen buf) (sr_buf (ShellSplit (Some buf) true max_args))
    = drop (strlen buf) buf ∧
  (Z.of_nat (length (sr_argv (ShellSplit (Some buf) true max_args)))
     ≤ Z.max 0 max_args)%Z ∧
  increasing (sr_argv (ShellSplit (Some buf) true max_args)) ∧
  Forall (λ o, o < strlen buf ∧
               o + length (arg_at (sr_buf (ShellSplit (Some buf) true
                                             max_args)) o) ≤ strlen buf)
         (sr_argv (ShellSplit (Some buf) true max_args)) ∧
  (sr_ret (ShellSplit (Some buf) true max_args) = (-1)%Z ∨
   sr_ret (ShellSplit (Some buf) true max_args)
     = Z.of_nat (length (sr_argv (ShellSplit (Some buf) true max_args)))).
Proof.
  intros Hterm.
  destruct (ShellSplit_safe buf max_args)
    as ((body & Hb & Hbl) & Hm & Ho & Hinc & Hret).
  generalize dependent (ShellSplit (Some buf) true max_args). intros r.
  intros Hb Hm Ho Hinc Hret.
  assert (length (drop (strlen buf) buf) = length buf - strlen buf) as Hdl
    by apply length_drop.
  split; [rewrite Hb, length_app; lia|].
  split; [by rewrite Hb, <- Hbl, drop_app_length|].
  split; [done|]. split; [done|]. split; [|done].
  assert (sr_buf r !! strlen buf = Some 0%Z) as Hz.
  { rewrite Hb, lookup_app_r by lia. rewrite Hbl, Nat.sub_diag.
    rewrite lookup_drop, Nat.add_0_r.
    destruct (c_str_split buf) as (tl & Hbuf & [->|(tl' & ->)]).
    - rewrite app_nil_r in Hbuf. unfold strlen in Hterm.
      rewrite <- Hbuf in Hterm. lia.
    - pose proof (list_lookup_middle (c_str buf) tl' 0%Z (strlen buf) eq_refl)
        as Hmid.
      by rewrite <- Hbuf in Hmid. }
  eapply Forall_impl; [|exact Ho]. cbn. intros o Hlt. split; [done|].
  unfold arg_at.
  pose proof (c_str_length_le (drop o (sr_buf r)) (strlen buf - o)) as Hle.
  rewrite lookup_drop in Hle.
  replace (o + (strlen buf - o)) with (strlen buf) in Hle by lia.
  specialize (Hle Hz). lia.
Qed.

Lemma X7_ShellSplit_in_place_witness :
  drop 7 (sr_buf (ShellSplit (Some (chars "a 'b c'" ++ [0; 9; 9]%Z)) true 8))
  = [0; 9; 9]%Z.
Proof.
  refine (proj1 (proj2 (X7_ShellSplit_in_place
                          (chars "a 'b c'" ++ [0; 9; 9]%Z) 8 _))).
  vm_compute. lia.
Defined.

Lemma tok_loop_open_single s : ∀ t,
  Forall (λ c, c ≠ 0%Z ∧ c ≠ SQUOTE) s →
  tok_loop s true false (Some t) = [t ++ s].
Proof.
  induction s as [|c s IH]; intros t Hs; [by rewrite app_nil_r|].
  inversion Hs as [|? ? [Hc0 Hcq] Hs']; subst. cbn [tok_loop default].
  rewrite andb_false_r. cbn [andb negb].
  destruct (Z.eqb_spec c SQUOTE) as [|_]; [done|]. cbn [andb].
  rewrite andb_false_r, IH by done. by rewrite <- app_assoc.
Qed.

Lemma tok_loop_open_double s : ∀ t,
  Forall (λ c, c ≠ 0%Z ∧ c ≠ DQUOTE) s →
  tok_loop s false true (Some t) = [t ++ s].
Proof.
  induction s as [|c s IH]; intros t Hs; [by rewrite app_nil_r|].
  inversion Hs as [|? ? [Hc0 Hcq] Hs']; subst. cbn [tok_loop default].
  rewrite andb_false_r. cbn [andb negb].
  rewrite andb_false_r.
  destruct (Z.eqb_spec c DQUOTE) as [|_]; [done|]. cbn [andb].
  rewrite IH by done. by rewrite <- app_assoc.
Qed.

Lemma tok_loop_quote_open q s cur :
  q = SQUOTE ∨ q = DQUOTE →
  Forall (λ c, c ≠ 0%Z ∧ c ≠ q) s →
  tok_loop (q :: s) false false cur = [default [] cur ++ s].
Proof.
  intros [-> | ->] Hs.
  - change (tok_loop (SQUOTE :: s) false false cur)
      with (tok_loop s true false (Some (default [] cur))).
    by apply tok_loop_open_single.
  - change (tok_loop (DQUOTE :: s) false false cur)
      with (tok_loop s false true (Some (default [] cur))).
    by apply tok_loop_open_double.
Qed.

(** X8: a quote that is never closed is no error: the argument it opens
    takes everything up to the end of the line, whitespace included.  For a
    line made of blanks, bare text, an opening quote and text without that
    quote, ShellSplit returns the one argument made of the bare text and the
    quoted text. *)
Theorem X8_unclosed_quote lead t q s junk max_args :
  blank lead → piece_ok (Bare t) →
  q = SQUOTE ∨ q = DQUOTE →
  Forall (λ c, c ≠ 0%Z ∧ c ≠ q) s →
  (1 ≤ max_args)%Z →
  sr_ret (ShellSplit (Some (lead ++ t ++ q :: s ++ 0%Z :: junk)) true
            max_args) = 1%Z ∧
  sr_args (ShellSplit (Some (lead ++ t ++ q :: s ++ 0%Z :: junk)) true
             max_args) = [t ++ s].
Proof.
  intros Hlead Ht Hq Hs Hmax.
  assert (tokenize (lead ++ t ++ q :: s ++ 0%Z :: junk) = [t ++ s]) as Htok.
  { unfold tokenize.
    assert (nonzero (lead ++ t ++ q :: s)) as Hnz.
    { unfold nonzero. rewrite !Forall_app. split; [by apply blank_nonzero|].
      split.
      - eapply Forall_impl; [|exact Ht]. cbn. tauto.
      - constructor; [by destruct Hq as [->| ->]|].
        eapply Forall_impl; [|exact Hs]. cbn. tauto. }
    replace (lead ++ t ++ q :: s ++ 0%Z :: junk)
      with ((lead ++ t ++ q :: s) ++ 0%Z :: junk)
      by (by rewrite <- !app_assoc).
    rewrite (c_str_app_nonzero _ _ Hnz). cbn [c_str Z.eqb].
    rewrite app_nil_r, tok_loop_blank by done.
    destruct t as [|c t'].
    - exact (tok_loop_quote_open q s None Hq Hs).
    - rewrite tok_loop_bare by (done || by left). cbn [default app].
      exact (tok_loop_quote_open q s (Some (c :: t')) Hq Hs). }
  destruct (ShellSplit_fits (lead ++ t ++ q :: s ++ 0%Z :: junk) max_args)
    as [H1 H2].
  - rewrite Htok. cbn [length]. lia.
  - by rewrite H1, H2, Htok.
Qed.

Lemma X8_unclosed_quote_witness :
  sr_args (ShellSplit (Some (chars "  say" ++ DQUOTE :: chars "hi  there"
                             ++ 0%Z :: [])) true 4)
  = [chars "say" ++ chars "hi  there"].
Proof.
  refine (proj2 (X8_unclosed_quote (chars "  ") (chars "say") DQUOTE
                   (chars "hi  there") [] 4 _ _ _ _ _)).
  - by repeat constructor.
  - by repeat constructor.
  - by right.
  - by repeat constructor.
  - lia.
Defined.

(** ** More on the IAC filter *)

Lemma iac_feed_cons st b bs :
  iac_feed st (b :: bs) =
  (fst (iac_feed (fst (FilterIac st b)) bs),
   (if (snd (FilterIac st b) =? 0)%Z then [] else [snd (FilterIac st b)])
   ++ snd (iac_feed (fst (FilterIac st b)) bs)).
Proof.
  cbn [iac_feed]. destruct (FilterIac st b) as [st' c]. cbn [fst snd].
  destruct (iac_feed st' bs) as [st'' out]. cbn [fst snd].
  by destruct (c =? 0)%Z.
Qed.

Lemma iac_escape_cons b data :
  iac_escape (b :: data)
  = (if (b =? kIAC)%Z then [kIAC; kIAC] else [b]) ++ iac_escape data.
Proof. done. Qed.

(** X9: the filter undoes the escaping of a telnet peer.  Fed the escaped
    form of any data in its normal phase, it ends in the state it started
    in and lets through the data, less the NUL bytes. *)
Theorem X9_iac_escape_round_trip st data :
  phase st = kNormal →
  iac_feed st (iac_escape data) = (st, filter (λ b, b ≠ 0%Z) data).
Proof.
  intros Hst. destruct st as [ph pb]. cbn in Hst. subst ph.
  induction data as [|b data IH]; [done|].
  rewrite iac_escape_cons, iac_feed_app.
  destruct (Z.eqb_spec b kIAC) as [->|Hb].
  - assert (iac_feed {| phase := kNormal; prev_byte := pb |} [kIAC; kIAC]
            = ({| phase := kNormal; prev_byte := pb |}, [kIAC])) as -> by done.
    cbn [fst snd]. rewrite IH. cbn [fst snd].
    by rewrite filter_cons_True by done.
  - assert (iac_feed {| phase := kNormal; prev_byte := pb |} [b]
            = ({| phase := kNormal; prev_byte := pb |},
               if (b =? 0)%Z then [] else [b])) as ->.
    { unfold iac_feed, FilterIac. cbn [phase prev_byte].
      by destruct (Z.eqb_spec b kIAC) as [|_]. }
    cbn [fst snd]. rewrite IH. cbn [fst snd].
    destruct (Z.eqb_spec b 0) as [->|Hb0].
    + by rewrite filter_cons_False by (intros ?; done).
    + by rewrite filter_cons_True by done.
Qed.

Lemma X9_iac_escape_round_trip_witness :
  iac_feed iac_init (iac_escape [104; 255; 0; 105]%Z)
  = (iac_init, [104; 255; 105]%Z).
Proof. exact (X9_iac_escape_round_trip iac_init [104; 255; 0; 105]%Z eq_refl). Defined.

Lemma FilterIac_out st b :
  snd (FilterIac st b) = 0%Z ∨ snd (FilterIac st b) = b.
Proof.
  unfold FilterIac. destruct (phase st); cbn [snd];
    repeat (match goal with |- context [if ?c then _ else _] => destruct c end;
            cbn [snd]); auto.
Qed.

(** X10: the filter never invents a byte and never lets a NUL through:
    whatever state it is in and whatever it is fed, what comes out is a
    subsequence of the input without NUL bytes. *)
Theorem X10_iac_output_from_input st bytes :
  sublist (snd (iac_feed st bytes)) bytes ∧
  nonzero (snd (iac_feed st bytes)).
Proof.
  revert st. induction bytes as [|b bs IH]; intros st.
  - split; [done|constructor].
  - rewrite iac_feed_cons. cbn [snd].
    destruct (IH (fst (FilterIac st b))) as [Hs Hn].
    destruct (Z.eqb_spec (snd (FilterIac st b)) 0) as [Hz|Hnz].
    + cbn [app]. split; [by apply sublist_cons|done].
    + destruct (FilterIac_out st b) as [H0|Hb]; [done|]. rewrite Hb in *.
      cbn [app]. split; [by apply sublist_skip|by constructor].
Qed.

Lemma FilterIac_same a b byte :
  iac_same a b →
  iac_same (fst (FilterIac a byte)) (fst (FilterIac b byte)) ∧
  snd (FilterIac a byte) = snd (FilterIac b byte).
Proof.
  intros [Hph Hpb]. unfold FilterIac. rewrite <- Hph.
  destruct (phase a) eqn:Ha; unfold iac_same.
  - destruct (byte =? kIAC)%Z; cbn [fst snd phase prev_byte];
      [done|]. by rewrite Ha, <- Hph.
  - repeat (match goal with |- context [if ?c then _ else _] => destruct c end;
            cbn [fst snd phase prev_byte]); done.
  - done.
  - rewrite <- (Hpb eq_refl). cbn [fst snd phase prev_byte]. done.
Qed.

Lemma iac_feed_same bytes : ∀ a b,
  iac_same a b →
  iac_same (fst (iac_feed a bytes)) (fst (iac_feed b bytes)) ∧
  snd (iac_feed a bytes) = snd (iac_feed b bytes).
Proof.
  induction bytes as [|x bytes IH]; intros a b Hab; [done|].
  rewrite !iac_feed_cons. cbn [fst snd].
  destruct (FilterIac_same a b x Hab) as [Hst Hout].
  destruct (IH _ _ Hst) as [Hst' Hout']. by rewrite Hout, Hout'.
Qed.

Lemma FilterIac_normal_iac pb :
  FilterIac {| phase := kNormal; prev_byte := pb |} 255
  = ({| phase := kIac; prev_byte := pb |}, 0%Z).
Proof. done. Qed.

Lemma FilterIac_iac_nego pb cmd :
  (251 ≤ cmd ≤ 254)%Z →
  FilterIac {| phase := kIac; prev_byte := pb |} cmd
  = ({| phase := kNego; prev_byte := pb |}, 0%Z).
Proof.
  intros H. unfold FilterIac, kIAC, kWILL, kDONT. cbn [phase prev_byte].
  destruct (Z.eqb_spec cmd 255) as [|_]; [lia|].
  destruct (Z.leb_spec 251 cmd); [|lia].
  by destruct (Z.leb_spec cmd 254); [|lia].
Qed.

Lemma FilterIac_nego pb b :
  FilterIac {| phase := kNego; prev_byte := pb |} b
  = ({| phase := kNormal; prev_byte := pb |}, 0%Z).
Proof. done. Qed.

Lemma FilterIac_iac_other pb cmd :
  ¬ (250 ≤ cmd ≤ 255)%Z →
  FilterIac {| phase := kIac; prev_byte := pb |} cmd
  = ({| phase := kNormal; prev_byte := pb |}, 0%Z).
Proof.
  intros H. unfold FilterIac, kIAC, kWILL, kDONT, kSB. cbn [phase prev_byte].
  destruct (Z.eqb_spec cmd 255) as [|_]; [lia|].
  destruct (Z.eqb_spec cmd 250) as [|_]; [lia|].
  destruct (Z.leb_spec 251 cmd); [|done].
  by destruct (Z.leb_spec cmd 254); [lia|].
Qed.

(** X11: telnet commands are invisible wherever they stand in the data.
    In the normal phase an option negotiation (IAC, WILL/WONT/DO/DONT,
    option), a two-byte command, and a subnegotiation block up to its
    IAC SE leave what the filter lets through of the following bytes as if
    the command had not been sent. *)
Theorem X11_iac_commands_invisible st rest :
  phase st = kNormal →
  (∀ cmd opt, (251 ≤ cmd ≤ 254)%Z →
     iac_feed st ([255; cmd; opt]%Z ++ rest) = iac_feed st rest) ∧
  (∀ cmd, ¬ (250 ≤ cmd ≤ 255)%Z →
     iac_feed st ([255; cmd]%Z ++ rest) = iac_feed st rest) ∧
  (∀ payload, no_iac_se 0 payload →
     snd (iac_feed st ([255; 250]%Z ++ payload ++ [255; 240]%Z ++ rest))
       = snd (iac_feed st rest) ∧
     phase (fst (iac_feed st ([255; 250]%Z ++ payload ++ [255; 240]%Z
                              ++ rest)))
       = phase (fst (iac_feed st rest))).
Proof.
  intros Hst. destruct st as [ph pb]. cbn in Hst. subst ph.
  split; [|split].
  - intros cmd opt Hcmd. cbn [app].
    rewrite (iac_feed_cons _ 255%Z), FilterIac_normal_iac. cbn [fst snd].
    rewrite (iac_feed_cons _ cmd), FilterIac_iac_nego by done. cbn [fst snd].
    rewrite (iac_feed_cons _ opt), FilterIac_nego. cbn [fst snd Z.eqb app].
    by destruct (iac_feed _ rest).
  - intros cmd Hcmd. cbn [app].
    rewrite (iac_feed_cons _ 255%Z), FilterIac_normal_iac. cbn [fst snd].
    rewrite (iac_feed_cons _ cmd), FilterIac_iac_other by done.
    cbn [fst snd Z.eqb app].
    by destruct (iac_feed _ rest).
  - intros payload Hp.
    replace ([255; 250]%Z ++ payload ++ [255; 240]%Z ++ rest)
      with (([255; 250]%Z ++ payload ++ [255; 240]%Z) ++ rest)
      by (by rewrite <- !app_assoc).
    rewrite iac_feed_app. cbn [fst snd].
    assert (iac_feed {| phase := kNormal; prev_byte := pb |}
              ([255; 250]%Z ++ payload ++ [255; 240]%Z)
            = ({| phase := kNormal; prev_byte := 240 |}, [])) as ->.
    { rewrite iac_feed_app.
      assert (iac_feed {| phase := kNormal; prev_byte := pb |} [255; 250]%Z
              = ({| phase := kSub; prev_byte := 0 |}, [])) as -> by done.
      cbn [fst snd app]. rewrite iac_feed_app, iac_feed_sub by done.
      cbn [fst snd app].
      unfold iac_feed, FilterIac. cbn [phase prev_byte fst snd].
      by destruct (last_of 0%Z payload =? kIAC)%Z. }
    cbn [fst snd app].
    destruct (iac_feed_same rest {| phase := kNormal; prev_byte := 240 |}
                {| phase := kNormal; prev_byte := pb |}) as [[Hph _] Hout];
      [done|].
    by rewrite Hout, Hph.
Qed.

Lemma X11_iac_commands_invisible_witness :
  iac_feed iac_init ([255; 253; 31]%Z ++ chars "ok") = iac_feed iac_init (chars "ok").
Proof.
  refine (proj1 (X11_iac_commands_invisible iac_init (chars "ok") eq_refl)
            253%Z 31%Z _).
  lia.
Defined.

(** ** Which members each function of the session writes *)

Lemma set_sent_same s : set_sent (sent_ s) s = s.
Proof. by destruct s. Qed.

Lemma Send_shape d n s :
  ∃ v, Send d n s = set_sent v s ∧ (output_paused_ s = true → v = sent_ s).
Proof.
  unfold Send. destruct d as [d|]; [|exists (sent_ s); by rewrite set_sent_same].
  destruct ((n =? 0) || (sock_fd_ s <? 0)%Z);
    [exists (sent_ s); by rewrite set_sent_same|].
  destruct (output_paused_ s) eqn:Hp;
    [exists (sent_ s); by rewrite set_sent_same|].
  eexists. split; [done|]. done.
Qed.

Lemma SendStr_shape d s :
  ∃ v, SendStr d s = set_sent v s ∧ (output_paused_ s = true → v = sent_ s).
Proof.
  unfold SendStr. destruct d as [d|]; [apply Send_shape|].
  exists (sent_ s); by rewrite set_sent_same.
Qed.

Lemma ShowPrompt_shape s :
  ∃ v, ShowPrompt s = set_sent v s ∧ (output_paused_ s = true → v = sent_ s).
Proof. unfold ShowPrompt. destruct (auth_ s); apply SendStr_shape. Qed.

Lemma outputs_shape outs : ∀ s,
  ∃ v, foldl (λ acc call, SessionOutput call acc) s outs = set_sent v s ∧
       (output_paused_ s = true → v = sent_ s).
Proof.
  induction outs as [|call outs IH]; intros s.
  - exists (sent_ s). by rewrite set_sent_same.
  - cbn [foldl]. unfold SessionOutput at 2.
    destruct (Send_shape (Some (fst call)) (Z.to_nat (snd call)) s)
      as (v & -> & Hv).
    destruct (IH (set_sent v s)) as (v' & -> & Hv').
    exists v'. split; [done|]. intros Hp. rewrite Hv' by done. cbn. auto.
Qed.

Lemma PushHistory_shape cmd s :
  ∃ h w c, PushHistory cmd s =
           set_history_count c (set_history_write w (set_history h s)).
Proof.
  assert (∃ h w c, s = set_history_count c (set_history_write w
                                              (set_history h s))) as Hsame.
  { exists (history_ s), (history_write_ s), (history_count_ s).
    by destruct s. }
  unfold PushHistory. destruct cmd as [c|]; [|exact Hsame].
  destruct (rd c 0 =? 0)%Z; [exact Hsame|].
  match goal with |- context [if ?b then s else _] => destruct b end;
    [exact Hsame|].
  cbv zeta.
  match goal with |- context [if ?b then _ else _] => destruct b end.
  - eexists _, _, _. reflexivity.
  - match goal with
    | |- ∃ h w c, set_history_write ?W (set_history ?H s) = _ =>
        exists H, W, (history_count_ s)
    end. reflexivity.
Qed.

Lemma ExecuteCommand_shape reg s :
  ∃ h w c v r, ExecuteCommand reg s =
    set_running r (set_sent v (set_history_count c (set_history_write w
                                                      (set_history h s)))) ∧
    (output_paused_ s = true → v = sent_ s).
Proof.
  unfold ExecuteCommand.
  destruct (PushHistory_shape (Some (cmd_buf_ s)) s) as (h & w & c & ->).
  match goal with |- context [if ?b then _ else _] => destruct b end.
  - unfold Stop.
    match goal with |- context [SendStr ?d ?t] =>
      destruct (SendStr_shape d t) as (v & -> & Hv) end.
    exists h, w, c, v, false. split; [done|]. intros Hp. by apply Hv.
  - match goal with |- context [foldl ?f ?t ?o] =>
      destruct (outputs_shape o t) as (v & -> & Hv) end.
    exists h, w, c, v, (running_ s). split; [reflexivity|].
    intros Hp. by apply Hv.
Qed.

Lemma CheckAuth_shape s :
  ∃ a u v, CheckAuth s = set_auth a (set_user_buf u (set_sent v s)) ∧
           (output_paused_ s = true → v = sent_ s).
Proof.
  unfold CheckAuth. destruct (auth_ s) eqn:Ha.
  - eexists kNeedPass, _, (sent_ s). split; [reflexivity|done].
  - match goal with |- context [if ?b then _ else _] => destruct b end.
    + match goal with |- context [SendStr ?d ?t] =>
        destruct (SendStr_shape d t) as (v & -> & Hv) end.
      exists kAuthorized, (user_buf_ s), v. split; [reflexivity|].
      intros Hp. by apply Hv.
    + match goal with |- context [SendStr ?d ?t] =>
        destruct (SendStr_shape d t) as (v & -> & Hv) end.
      exists kNeedUser, (zeros kUserBufLen), v. split; [done|].
      intros Hp. by apply Hv.
  - exists kAuthorized, (user_buf_ s), (sent_ s). split; [|done].
    destruct s. cbn in Ha. by subst.
Qed.

Lemma erase_line_shape n : ∀ s,
  ∃ v, erase_line n s
       = set_sent v (set_cmd_len (if n is O then cmd_len_ s else 0) s) ∧
       (output_paused_ s = true → v = sent_ s).
Proof.
  induction n as [|n IH]; intros s.
  - exists (sent_ s). split; [by destruct s|done].
  - cbn [erase_line].
    destruct (Send_shape (Some msg_erase) 3 (set_cmd_len n s)) as (v & -> & Hv).
    destruct (IH (set_sent v (set_cmd_len n s))) as (v' & -> & Hv').
    exists v'. split; [by destruct n|].
    intros Hp. rewrite Hv' by done. cbn. by apply Hv.
Qed.

Lemma ReplaceLineWith_shape t s :
  ∃ b l v, ReplaceLineWith t s = set_sent v (set_cmd_buf b (set_cmd_len l s)) ∧
           (output_paused_ s = true → v = sent_ s).
Proof.
  unfold ReplaceLineWith.
  destruct (erase_line_shape (cmd_len_ s) s) as (v & -> & Hv).
  destruct t as [t|].
  - match goal with |- context [Send ?d ?n ?t] =>
      destruct (Send_shape d n t) as (v' & -> & Hv') end.
    eexists _, _, v'. split; [done|]. intros Hp.
    rewrite Hv' by done. cbn. by apply Hv.
  - eexists (cmd_buf_ s), _, v. split; [reflexivity|done].
Qed.

Lemma HandleArrow_shape c s :
  ∃ a nv b l v,
    HandleArrow c s
    = set_arrow a (set_history_nav nv
                     (set_sent v (set_cmd_buf b (set_cmd_len l s)))) ∧
    (output_paused_ s = true → v = sent_ s).
Proof.
  assert (∀ a, ∃ a' nv b l v,
    set_arrow a s
    = set_arrow a' (set_history_nav nv
                      (set_sent v (set_cmd_buf b (set_cmd_len l s)))) ∧
    (output_paused_ s = true → v = sent_ s)) as Hkeep.
  { intros a. exists a, (history_nav_ s), (cmd_buf_ s), (cmd_len_ s), (sent_ s).
    split; [by destruct s|done]. }
  assert (∀ t nv, ∃ a' nv' b l v,
    ReplaceLineWith t (set_history_nav nv (set_arrow kNone s))
    = set_arrow a' (set_history_nav nv'
                      (set_sent v (set_cmd_buf b (set_cmd_len l s)))) ∧
    (output_paused_ s = true → v = sent_ s)) as Hrep.
  { intros t nv.
    destruct (ReplaceLineWith_shape t (set_history_nav nv (set_arrow kNone s)))
      as (b & l & v & -> & Hv).
    exists kNone, nv, b, l, v. split; [done|]. intros Hp. by apply Hv. }
  unfold HandleArrow.
  destruct (arrow_ s); [|apply Hkeep|];
    (destruct (c =? 65)%Z;
     [match goal with |- context [if ?b then _ else _] => destruct b end;
      [apply Hrep|apply Hkeep]|]);
    (destruct (c =? 66)%Z; [|apply Hkeep]);
    (match goal with |- context [if ?b then _ else _] => destruct b end;
     [apply Hrep|]);
    (match goal with |- context [if ?b then _ else _] => destruct b end;
     [apply Hrep|apply Hkeep]).
Qed.

(** ** Flow control *)

(** Reduce the projections of the setters. *)
Ltac fld :=
  cbn [sock_fd_ running_ registry_ config_ iac_ auth_ user_buf_ arrow_
       cmd_buf_ cmd_len_ history_ history_count_ history_write_ history_nav_
       output_paused_ sent_ set_sock_fd set_running set_iac set_auth
       set_user_buf set_arrow set_cmd_buf set_cmd_len set_history
       set_history_count set_history_write set_history_nav set_output_paused
       set_sent] in *.

(** Replace one call by the members it writes, innermost calls first. *)
Ltac shape_step :=
  match goal with
  | |- context [Send ?d ?n ?t] =>
      let v := fresh "v" in let Hv := fresh "Hv" in
      destruct (Send_shape d n t) as (v & -> & Hv)
  | |- context [PushHistory ?d ?t] =>
      let h := fresh "h" in let w := fresh "w" in let c := fresh "c" in
      destruct (PushHistory_shape d t) as (h & w & c & ->)
  | |- context [SendStr ?d ?t] =>
      let v := fresh "v" in let Hv := fresh "Hv" in
      destruct (SendStr_shape d t) as (v & -> & Hv)
  | |- context [CheckAuth ?t] =>
      let a := fresh "a" in let u := fresh "u" in
      let v := fresh "v" in let Hv := fresh "Hv" in
      destruct (CheckAuth_shape t) as (a & u & v & -> & Hv)
  | |- context [ExecuteCommand ?r ?t] =>
      let h := fresh "h" in let w := fresh "w" in let c := fresh "c" in
      let v := fresh "v" in let r' := fresh "r" in let Hv := fresh "Hv" in
      destruct (ExecuteCommand_shape r t) as (h & w & c & v & r' & -> & Hv)
  | |- context [HandleArrow ?c ?t] =>
      let a := fresh "a" in let nv := fresh "nv" in let b := fresh "b" in
      let l := fresh "l" in let v := fresh "v" in let Hv := fresh "Hv" in
      destruct (HandleArrow_shape c t) as (a & nv & b & l & v & -> & Hv)
  | |- context [ShowPrompt ?t] =>
      let v := fresh "v" in let Hv := fresh "Hv" in
      destruct (ShowPrompt_shape t) as (v & -> & Hv)
  end; fld.

(** Nothing was sent by the calls replaced so far. *)
Ltac quiet :=
  fld;
  repeat match goal with
         | H : ?P → _, Hp : ?P |- _ => specialize (H Hp)
         end;
  subst; auto.

Lemma ProcessChar_paused reg c s :
  output_paused_ s = true → c ≠ 17%Z →
  sent_ (ProcessChar reg c s) = sent_ s ∧
  output_paused_ (ProcessChar reg c s) = true.
Proof.
  intros Hp Hc. unfold ProcessChar.
  destruct (arrow_ s); [|shape_step; by quiet..].
  destruct (c =? 27)%Z; [done|].
  destruct (c =? 19)%Z; [done|].
  destruct (Z.eqb_spec c 17) as [|_]; [done|].
  destruct ((c =? 8)%Z || (c =? 127)%Z).
  { destruct (0 <? cmd_len_ s); [|done]. cbv zeta. fld.
    destruct (auth_ s); [|done|]; shape_step; by quiet. }
  destruct (c =? 13)%Z.
  { cbv zeta. shape_step.
    destruct (auth_ s); [| |destruct (0 <? cmd_len_ s)];
      repeat shape_step; by quiet. }
  destruct (c =? 10)%Z; [done|].
  destruct (cmd_len_ s <? kMaxCmdLen - 1); [|done].
  cbv zeta. fld. destruct (auth_ s); shape_step; by quiet.
Qed.

Lemma RunStep_paused reg b s :
  output_paused_ s = true → b ≠ 17%Z →
  sent_ (RunStep reg b s) = sent_ s ∧ output_paused_ (RunStep reg b s) = true.
Proof.
  intros Hp Hb. unfold RunStep.
  destruct (FilterIac (iac_ s) b) as [iac' c] eqn:Hf.
  destruct (c =? 0)%Z eqn:Hc0; [done|].
  assert (c = b) as ->.
  { pose proof (FilterIac_out (iac_ s) b) as Ho. rewrite Hf in Ho.
    cbn in Ho. destruct Ho as [->|]; done. }
  by destruct (ProcessChar_paused reg b (set_iac iac' s)).
Qed.

(** X12: Ctrl+S holds the output until Ctrl+Q arrives.  A paused session
    that receives any bytes other than Ctrl+Q transmits nothing, whatever
    those bytes make it do, and stays paused. *)
Theorem X12_paused_until_resume reg input s :
  output_paused_ s = true → 17%Z ∉ input →
  sent_ (RunLoop reg input s) = sent_ s ∧
  output_paused_ (RunLoop reg input s) = true.
Proof.
  revert s. induction input as [|b bs IH]; intros s Hp Hin; [done|].
  cbn [RunLoop]. destruct (running_ s); [|done].
  apply not_elem_of_cons in Hin as [Hb Hbs].
  destruct (RunStep_paused reg b s Hp) as [Hs Hp']; [congruence|].
  destruct (IH (RunStep reg b s) Hp' Hbs) as [Hs' Hp''].
  by rewrite Hs', Hs.
Qed.

Lemma X12_paused_until_resume_witness :
  sent_ (RunLoop test_registry (typed "help" ++ typed "fail")
           (RunLoop test_registry [19%Z] (Init 3 open_config session_new)))
  = sent_ (RunLoop test_registry [19%Z] (Init 3 open_config session_new)).
Proof.
  refine (proj1 (X12_paused_until_resume test_registry
                   (typed "help" ++ typed "fail")
                   (RunLoop test_registry [19%Z]
                      (Init 3 open_config session_new)) _ _)).
  - reflexivity.
  - vm_compute. intros H.
    repeat (apply elem_of_cons in H as [H|H]; [discriminate|]).
    by apply elem_of_nil in H.
Defined.

(** ** Before the login *)

Lemma ProcessChar_unauth reg reg' c s :
  auth_ s ≠ kAuthorized →
  ProcessChar reg c s = ProcessChar reg' c s ∧
  history_ (ProcessChar reg c s) = history_ s ∧
  history_count_ (ProcessChar reg c s) = history_count_ s ∧
  history_write_ (ProcessChar reg c s) = history_write_ s.
Proof.
  intros Ha. unfold ProcessChar.
  destruct (arrow_ s); [|split; [done|]; shape_step; done..].
  destruct (c =? 27)%Z; [done|].
  destruct (c =? 19)%Z; [done|].
  destruct (c =? 17)%Z; [done|].
  destruct ((c =? 8)%Z || (c =? 127)%Z).
  { split; [done|]. destruct (0 <? cmd_len_ s); [|done]. cbv zeta. fld.
    destruct (auth_ s); [|done|]; by shape_step. }
  destruct (c =? 13)%Z.
  { cbv zeta. fld. rewrite !Send_auth.
    destruct (auth_ s); [| |done]; (split; [done|]); by repeat shape_step. }
  destruct (c =? 10)%Z; [done|].
  destruct (cmd_len_ s <? kMaxCmdLen - 1); [|done].
  split; [done|]. cbv zeta. fld. destruct (auth_ s); by shape_step.
Qed.

Lemma ProcessChar_auth_kept reg c s :
  auth_ s = kAuthorized → auth_ (ProcessChar reg c s) = kAuthorized.
Proof.
  intros Ha. unfold ProcessChar.
  destruct (arrow_ s); [|by shape_step..].
  destruct (c =? 27)%Z; [done|].
  destruct (c =? 19)%Z; [done|].
  destruct (c =? 17)%Z; [done|].
  destruct ((c =? 8)%Z || (c =? 127)%Z).
  { destruct (0 <? cmd_len_ s); [|done]. cbv zeta. fld.
    rewrite Ha. by shape_step. }
  destruct (c =? 13)%Z.
  { cbv zeta. fld. rewrite !Send_auth, Ha.
    destruct (0 <? cmd_len_ (Send (Some CRLF) 2 s)); by repeat shape_step. }
  destruct (c =? 10)%Z; [done|].
  destruct (cmd_len_ s <? kMaxCmdLen - 1); [|done].
  cbv zeta. fld. rewrite Ha. by shape_step.
Qed.

Lemma RunStep_auth_kept reg b s :
  auth_ s = kAuthorized → auth_ (RunStep reg b s) = kAuthorized.
Proof.
  intros Ha. unfold RunStep. destruct (FilterIac (iac_ s) b) as [iac' c].
  destruct (c =? 0)%Z; [done|]. by apply ProcessChar_auth_kept.
Qed.

Lemma RunLoop_auth_kept reg input : ∀ s,
  auth_ s = kAuthorized → auth_ (RunLoop reg input s) = kAuthorized.
Proof.
  induction input as [|b bs IH]; intros s Ha; [done|].
  cbn [RunLoop]. destruct (running_ s); [|done].
  by apply IH, RunStep_auth_kept.
Qed.

Lemma RunStep_unauth reg reg' b s :
  auth_ s ≠ kAuthorized →
  RunStep reg b s = RunStep reg' b s ∧
  history_ (RunStep reg b s) = history_ s ∧
  history_count_ (RunStep reg b s) = history_count_ s ∧
  history_write_ (RunStep reg b s) = history_write_ s.
Proof.
  intros Ha. unfold RunStep. destruct (FilterIac (iac_ s) b) as [iac' c].
  destruct (c =? 0)%Z; [by repeat split|].
  destruct (ProcessChar_unauth reg reg' c (set_iac iac' s) Ha)
    as (H0 & H1 & H2 & H3).
  rewrite H1, H2, H3. split; [exact H0|]. by repeat split.
Qed.

(** X13: nothing is executed before the login.  If a run of the read loop
    ends in a state that is not authorized, the session went through it
    without looking at the registry, and the history is what it was. *)
Theorem X13_no_command_before_login reg reg' input s :
  auth_ (RunLoop reg input s) ≠ kAuthorized →
  RunLoop reg input s = RunLoop reg' input s ∧
  history_ (RunLoop reg input s) = history_ s ∧
  history_count_ (RunLoop reg input s) = history_count_ s ∧
  history_write_ (RunLoop reg input s) = history_write_ s.
Proof.
  revert s. induction input as [|b bs IH]; intros s Hend; [done|].
  cbn [RunLoop] in *. destruct (running_ s); [|done].
  assert (auth_ s = kAuthorized ∨ auth_ s ≠ kAuthorized) as [Ha|Ha]
    by (destruct (auth_ s); auto).
  { exfalso. apply Hend. by apply RunLoop_auth_kept, RunStep_auth_kept. }
  destruct (RunStep_unauth reg reg' b s Ha) as (Heq & H1 & H2 & H3).
  destruct (IH _ Hend) as (Heq' & H1' & H2' & H3').
  rewrite <- Heq, H1', H2', H3'. split; [exact Heq'|]. by repeat split.
Qed.

Lemma X13_no_command_before_login_witness :
  RunLoop test_registry (typed "admin" ++ typed "wrong" ++ typed "fail")
    (Init 3 auth_config session_new)
  = RunLoop registry_init (typed "admin" ++ typed "wrong" ++ typed "fail")
      (Init 3 auth_config session_new).
Proof.
  refine (proj1 (X13_no_command_before_login test_registry registry_init
                   (typed "admin" ++ typed "wrong" ++ typed "fail")
                   (Init 3 auth_config session_new) _)).
  vm_compute. discriminate.
Defined.

(** X14: a session never logs out, and the only step that logs in is the
    Enter key in the password state, outside an escape sequence, with the
    stored user name and the typed line equal to the configured
    credentials. *)
Theorem X14_login_step :
  (∀ reg input s,
     auth_ s = kAuthorized → auth_ (RunLoop reg input s) = kAuthorized) ∧
  (∀ reg c s,
     auth_ s ≠ kAuthorized → auth_ (ProcessChar reg c s) = kAuthorized →
     c = 13%Z ∧ arrow_ s = kNone ∧ auth_ s = kNeedPass ∧
     streq_opt (user_buf_ s) (username (config_ s)) = true ∧
     streq_opt (<[cmd_len_ s := 0%Z]> (cmd_buf_ s)) (password (config_ s))
       = true).
Proof.
  split; [intros reg input s; apply RunLoop_auth_kept|].
  intros reg c s Ha. unfold ProcessChar.
  destruct (arrow_ s); [|shape_step; intros; congruence..].
  destruct (c =? 27)%Z; [fld; intros; congruence|].
  destruct (c =? 19)%Z; [fld; intros; congruence|].
  destruct (c =? 17)%Z; [fld; intros; congruence|].
  destruct ((c =? 8)%Z || (c =? 127)%Z).
  { destruct (0 <? cmd_len_ s); [|intros; congruence]. cbv zeta. fld.
    destruct (auth_ s) eqn:Hauth; try shape_step; fld; intros; congruence. }
  destruct (Z.eqb_spec c 13) as [->|_].
  { cbv zeta. shape_step.
    destruct (auth_ s) eqn:Hauth; [| |done].
    - rewrite CheckAuth_need_user by done.
      repeat shape_step. intros; congruence.
    - unfold CheckAuth. fld. rewrite Hauth.
      destruct (streq_opt (user_buf_ s) (username (config_ s))); cbn [andb];
        [|repeat shape_step; intros; congruence].
      destruct (streq_opt _ (password (config_ s)));
        [done|repeat shape_step; intros; congruence]. }
  destruct (c =? 10)%Z; [intros; congruence|].
  destruct (cmd_len_ s <? kMaxCmdLen - 1); [|intros; congruence].
  cbv zeta. fld.
  destruct (auth_ s) eqn:Hauth; shape_step; intros; congruence.
Qed.

Lemma X14_login_step_witness :
  streq_opt
    (user_buf_ (RunLoop test_registry (typed "admin" ++ chars "secret")
                  (Init 3 auth_config session_new)))
    (username auth_config) = true.
Proof.
  refine (proj1 (proj2 (proj2 (proj2
    (proj2 X14_login_step test_registry 13%Z
       (RunLoop test_registry (typed "admin" ++ chars "secret")
          (Init 3 auth_config session_new)) _ _))))).
  - vm_compute. discriminate.
  - reflexivity.
Defined.

(** ** The line editor *)

Lemma take_strlen d : take (strlen d) d = c_str d.
Proof.
  unfold strlen. induction d as [|c d IH]; [done|]. cbn [c_str].
  destruct (c =? 0)%Z; [done|]. cbn [length take]. by rewrite IH.
Qed.

Lemma Send_sending d n s :
  sending s → Send (Some d) n s = set_sent (sent_ s ++ take n d) s.
Proof.
  intros [Hfd Hp]. unfold Send. destruct (Nat.eqb_spec n 0) as [->|_].
  - cbn [orb]. rewrite take_0, app_nil_r. by rewrite set_sent_same.
  - cbn [orb]. destruct (Z.ltb_spec (sock_fd_ s) 0); [lia|]. by rewrite Hp.
Qed.

Lemma SendStr_sending d s :
  sending s → SendStr d s = set_sent (sent_ s ++ c_str (default [] d)) s.
Proof.
  intros Hs. unfold SendStr. destruct d as [d|]; cbn [default].
  - by rewrite Send_sending, take_strlen.
  - cbn [c_str]. by rewrite app_nil_r, set_sent_same.
Qed.

Lemma ShowPrompt_sending s :
  sending s → ShowPrompt s = set_sent (sent_ s ++ prompt_text s) s.
Proof.
  intros Hs. unfold ShowPrompt, prompt_text.
  destruct (auth_ s); by rewrite SendStr_sending.
Qed.

(** One typed character. *)
Lemma typing_step reg c s :
  arrow_ s = kNone → plain_byte c = true → cmd_len_ s < kMaxCmdLen - 1 →
  ∃ v, ProcessChar reg c s = set_sent v (line_append c s) ∧
       (output_paused_ s = true → v = sent_ s) ∧
       (sending s → v = sent_ s ++ [echo_of s c]).
Proof.
  intros Ha Hp Hroom. rewrite ProcessChar_append by done.
  destruct (Send_shape (Some [echo_of s c]) 1 (line_append c s))
    as (v & Hv & Hq).
  exists v. split; [done|]. split; [done|].
  intros Hs. rewrite Send_sending in Hv by done.
  apply (f_equal sent_) in Hv. by fld.
Qed.

(** A run of typed characters. *)
Lemma typing_shape reg cs : ∀ s,
  arrow_ s = kNone → Forall (λ c, plain_byte c = true) cs → line_wf s →
  cmd_len_ s + length cs ≤ kMaxCmdLen - 1 →
  ∃ b v, process_all reg cs s
         = set_sent v (set_cmd_buf b
                         (set_cmd_len (cmd_len_ s + length cs) s)) ∧
         length b = kMaxCmdLen ∧
         take (cmd_len_ s + length cs) b = line_text s ++ cs ∧
         b !! (cmd_len_ s + length cs) = Some 0%Z ∧
         (output_paused_ s = true → v = sent_ s) ∧
         (sending s → v = sent_ s ++ (echo_of s <$> cs)).
Proof.
  induction cs as [|c cs IH]; intros s Ha Hcs Hwf Hroom.
  - exists (cmd_buf_ s), (sent_ s). cbn [length]. rewrite Nat.add_0_r.
    destruct Hwf as (Hlen & Hl & Ht).
    split; [by destruct s|]. split; [done|].
    split; [by rewrite app_nil_r|]. split; [done|]. split; [done|].
    intros _. by rewrite app_nil_r.
  - inversion Hcs as [|? ? Hc Hcs']; subst. cbn [length] in Hroom.
    destruct (typing_step reg c s) as (v1 & Hstep & Hq1 & Ho1);
      [done|done|lia|].
    assert (line_wf (set_sent v1 (line_append c s))) as Hwf1.
    { change (line_wf (line_append c s)). apply line_append_wf; [done|lia]. }
    destruct (IH (set_sent v1 (line_append c s))) as
      (b & v & Hrun & Hlen & Htake & Hterm & Hq & Ho);
      [done|done|done|unfold line_append; fld; unfold kMaxCmdLen in *; lia|].
    exists b, v.
    replace (cmd_len_ s + length (c :: cs)) with (S (cmd_len_ s) + length cs)
      by (cbn [length]; lia).
    split.
    { unfold process_all in *. cbn [foldl]. rewrite Hstep, Hrun. done. }
    split; [done|].
    pose proof (line_append_take c s Hwf ltac:(lia)) as Hlt.
    unfold line_text, line_append, sending, echo_of in *. fld.
    split; [by rewrite Htake, Hlt, <- app_assoc|].
    split; [done|]. split.
    { intros Hp. rewrite Hq by done. by apply Hq1. }
    intros Hs. rewrite Ho by done. rewrite Ho1 by done.
    by rewrite <- app_assoc.
Qed.

(** A data byte in the normal phase goes to the line editor. *)
Lemma RunStep_data reg c s :
  phase (iac_ s) = kNormal → c ≠ 0%Z → c ≠ 255%Z →
  RunStep reg c s = ProcessChar reg c s.
Proof.
  intros Hph Hc0 Hc255. unfold RunStep, FilterIac. rewrite Hph.
  destruct (Z.eqb_spec c kIAC) as [|_]; [done|].
  destruct (Z.eqb_spec c 0) as [|_]; [done|].
  by rewrite set_iac_same.
Qed.

Lemma RunLoop_typing reg cs : ∀ s,
  running_ s = true → phase (iac_ s) = kNormal → arrow_ s = kNone →
  Forall (λ c, plain_byte c = true ∧ c ≠ 0%Z ∧ c ≠ 255%Z) cs →
  cmd_len_ s + length cs ≤ kMaxCmdLen - 1 →
  RunLoop reg cs s = process_all reg cs s.
Proof.
  induction cs as [|c cs IH]; intros s Hrun Hph Ha Hcs Hroom; [done|].
  inversion Hcs as [|? ? (Hc & Hc0 & Hc255) Hcs']; subst.
  cbn [length] in Hroom. cbn [RunLoop]. rewrite Hrun.
  rewrite RunStep_data by done.
  unfold process_all. cbn [foldl]. fold (process_all reg cs).
  destruct (typing_step reg c s) as (v1 & -> & _); [done|done|lia|].
  apply IH; try done. unfold line_append. fld. lia.
Qed.

(** X15: typed characters accumulate in the line and are echoed one for
    one.  For a run of ordinary data bytes that fits the line buffer,
    received outside an escape sequence, the read loop appends the bytes to
    the line and transmits one byte for each: the byte itself, or a star
    while the password is being entered. *)
Theorem X15_typing_echo reg cs s :
  running_ s = true → phase (iac_ s) = kNormal → arrow_ s = kNone →
  line_wf s → sending s →
  Forall (λ c, plain_byte c = true ∧ c ≠ 0%Z ∧ c ≠ 255%Z) cs →
  cmd_len_ s + length cs ≤ kMaxCmdLen - 1 →
  line_text (RunLoop reg cs s) = line_text s ++ cs ∧
  cmd_len_ (RunLoop reg cs s) = cmd_len_ s + length cs ∧
  line_wf (RunLoop reg cs s) ∧
  sent_ (RunLoop reg cs s) = sent_ s ++ (echo_of s <$> cs) ∧
  (auth_ s = kNeedPass →
   sent_ (RunLoop reg cs s) = sent_ s ++ replicate (length cs) 42%Z).
Proof.
  intros Hrun Hph Ha Hwf Hs Hcs Hroom.
  rewrite RunLoop_typing by done.
  destruct (typing_shape reg cs s) as (b & v & -> & Hlen & Htake & Ht & _ & Ho);
    [done| |done|done|].
  { eapply Forall_impl; [|exact Hcs]. cbn. tauto. }
  unfold line_text at 1, line_wf. fld.
  split; [done|]. split; [done|]. split; [done|].
  rewrite Ho by done. split; [done|].
  intros Hauth. f_equal. unfold echo_of. rewrite Hauth.
  clear. induction cs as [|c cs IH]; [done|]. cbn. by rewrite IH.
Qed.

Lemma X15_typing_echo_witness :
  sent_ (RunLoop test_registry (chars "secret")
           (RunLoop test_registry (typed "admin")
              (Init 3 auth_config session_new)))
  = sent_ (RunLoop test_registry (typed "admin")
             (Init 3 auth_config session_new))
    ++ replicate 6 42%Z.
Proof.
  refine (proj2 (proj2 (proj2 (proj2
    (X15_typing_echo test_registry (chars "secret")
       (RunLoop test_registry (typed "admin")
          (Init 3 auth_config session_new)) _ _ _ _ _ _ _)))) _).
  - reflexivity.
  - reflexivity.
  - reflexivity.
  - vm_compute. repeat split; lia.
  - vm_compute. split; [discriminate|reflexivity].
  - vm_compute. repeat constructor; discriminate.
  - vm_compute. lia.
  - reflexivity.
Defined.

Lemma ProcessChar_backspace reg bs s :
  arrow_ s = kNone → bs = 8%Z ∨ bs = 127%Z →
  ProcessChar reg bs s =
  if 0 <? cmd_len_ s then
    match auth_ s with
    | kNeedPass =>
        set_cmd_buf (<[cmd_len_ s - 1 := 0%Z]> (cmd_buf_ s))
          (set_cmd_len (cmd_len_ s - 1) s)
    | _ =>
        Send (Some msg_erase) 3
          (set_cmd_buf (<[cmd_len_ s - 1 := 0%Z]> (cmd_buf_ s))
             (set_cmd_len (cmd_len_ s - 1) s))
    end
  else s.
Proof.
  intros Ha Hbs. unfold ProcessChar. rewrite Ha.
  destruct Hbs as [-> | ->]; cbn [Z.eqb Pos.eqb orb];
    destruct (0 <? cmd_len_ s); try done; cbv zeta; fld; by destruct (auth_ s).
Qed.

Lemma backspace_shape reg bs s :
  arrow_ s = kNone → bs = 8%Z ∨ bs = 127%Z → 0 < cmd_len_ s →
  ∃ v, ProcessChar reg bs s
       = set_sent v (set_cmd_buf (<[cmd_len_ s - 1 := 0%Z]> (cmd_buf_ s))
                       (set_cmd_len (cmd_len_ s - 1) s)) ∧
       (sending s →
        v = sent_ s ++ (if auth_ s is kNeedPass then [] else msg_erase)).
Proof.
  intros Ha Hbs Hpos. rewrite ProcessChar_backspace by done.
  destruct (Nat.ltb_spec 0 (cmd_len_ s)) as [_|]; [|lia].
  assert (∀ t, sending s → auth_ s ≠ kNeedPass →
            ∃ v, Send (Some msg_erase) 3
                   (set_cmd_buf t (set_cmd_len (cmd_len_ s - 1) s))
                 = set_sent v (set_cmd_buf t (set_cmd_len (cmd_len_ s - 1) s)) ∧
                 v = sent_ s ++ (if auth_ s is kNeedPass then []
                                 else msg_erase)) as Hopen.
  { intros t Hs Hne. eexists. rewrite Send_sending by done. split; [done|].
    fld. by destruct (auth_ s). }
  destruct (auth_ s) eqn:Hauth.
  - destruct (Send_shape (Some msg_erase) 3
                (set_cmd_buf (<[cmd_len_ s - 1 := 0%Z]> (cmd_buf_ s))
                   (set_cmd_len (cmd_len_ s - 1) s))) as (v & Hv & _).
    exists v. split; [done|]. intros Hs.
    destruct (Hopen (<[cmd_len_ s - 1 := 0%Z]> (cmd_buf_ s)) Hs)
      as (v' & Hv' & ->); [done|].
    rewrite Hv in Hv'. by apply (f_equal sent_) in Hv'.
  - exists (sent_ s). split; [done|]. intros _. by rewrite app_nil_r.
  - destruct (Send_shape (Some msg_erase) 3
                (set_cmd_buf (<[cmd_len_ s - 1 := 0%Z]> (cmd_buf_ s))
                   (set_cmd_len (cmd_len_ s - 1) s))) as (v & Hv & _).
    exists v. split; [done|]. intros Hs.
    destruct (Hopen (<[cmd_len_ s - 1 := 0%Z]> (cmd_buf_ s)) Hs)
      as (v' & Hv' & ->); [done|].
    rewrite Hv in Hv'. by apply (f_equal sent_) in Hv'.
Qed.

(** X16: backspace and DEL undo a typed character.  On an empty line they
    do nothing.  After a character was typed they restore the line, and
    what was transmitted is the echo followed by the erase sequence; in the
    password state the star stays and nothing more is sent. *)
Theorem X16_backspace reg bs s :
  arrow_ s = kNone → bs = 8%Z ∨ bs = 127%Z →
  (cmd_len_ s = 0 → ProcessChar reg bs s = s) ∧
  (∀ c, plain_byte c = true → line_wf s → cmd_len_ s < kMaxCmdLen - 1 →
     line_text (ProcessChar reg bs (ProcessChar reg c s)) = line_text s ∧
     cmd_len_ (ProcessChar reg bs (ProcessChar reg c s)) = cmd_len_ s ∧
     line_wf (ProcessChar reg bs (ProcessChar reg c s)) ∧
     (sending s →
      sent_ (ProcessChar reg bs (ProcessChar reg c s))
      = sent_ s ++ (if auth_ s is kNeedPass then [42%Z]
                    else c :: msg_erase))).
Proof.
  intros Ha Hbs. split.
  - intros H0. rewrite ProcessChar_backspace by done. by rewrite H0.
  - intros c Hc Hwf Hroom.
    destruct (typing_step reg c s) as (v1 & -> & _ & Ho1); [done..|].
    destruct (backspace_shape reg bs (set_sent v1 (line_append c s)))
      as (v & -> & Ho); [done|done|unfold line_append; fld; lia|].
    destruct Hwf as (Hlen & Hl & Ht).
    unfold line_append, line_text, line_wf, sending, echo_of in *. fld.
    replace (S (cmd_len_ s) - 1) with (cmd_len_ s) in * by lia.
    split; [by rewrite !take_insert_ge by lia|].
    split; [done|]. split.
    { rewrite !length_insert. split; [done|]. split; [done|].
      apply list_lookup_insert_eq. rewrite !length_insert. lia. }
    intros Hs. rewrite Ho, Ho1 by done. rewrite <- app_assoc.
    by destruct (auth_ s).
Qed.

Lemma X16_backspace_witness :
  line_text (ProcessChar test_registry 127
               (ProcessChar test_registry 98
                  (RunLoop test_registry (chars "a")
                     (Init 3 open_config session_new))))
  = line_text (RunLoop test_registry (chars "a")
                 (Init 3 open_config session_new)).
Proof.
  refine (proj1 (proj2 (X16_backspace test_registry 127
                          (RunLoop test_registry (chars "a")
                             (Init 3 open_config session_new)) _ _)
                   98%Z _ _ _)).
  - reflexivity.
  - by right.
  - reflexivity.
  - vm_compute. repeat split; lia.
  - vm_compute. lia.
Defined.

(** ** The Enter key *)

Lemma ProcessChar_enter reg s :
  arrow_ s = kNone →
  ProcessChar reg 13 s =
  ShowPrompt
    (set_history_nav (-1)
       (set_cmd_buf (zeros kMaxCmdLen)
          (set_cmd_len 0
             (match auth_ s with
              | kAuthorized =>
                  if 0 <? cmd_len_ s
                  then ExecuteCommand reg
                         (set_cmd_buf (<[cmd_len_ s := 0%Z]> (cmd_buf_ s))
                            (Send (Some CRLF) 2 s))
                  else set_cmd_buf (<[cmd_len_ s := 0%Z]> (cmd_buf_ s))
                         (Send (Some CRLF) 2 s)
              | _ => CheckAuth
                       (set_cmd_buf (<[cmd_len_ s := 0%Z]> (cmd_buf_ s))
                          (Send (Some CRLF) 2 s))
              end)))).
Proof.
  intros Ha. unfold ProcessChar. rewrite Ha. cbn [Z.eqb Pos.eqb orb].
  cbv zeta. fld. by rewrite Send_auth, Send_cmd_len, Send_cmd_buf.
Qed.

Lemma ProcessChar_lf reg s : arrow_ s = kNone → ProcessChar reg 10 s = s.
Proof. intros Ha. unfold ProcessChar. by rewrite Ha. Qed.

Lemma enter_fields reg s :
  arrow_ s = kNone →
  cmd_len_ (ProcessChar reg 13 s) = 0 ∧
  cmd_buf_ (ProcessChar reg 13 s) = zeros kMaxCmdLen ∧
  history_nav_ (ProcessChar reg 13 s) = (-1)%Z ∧
  arrow_ (ProcessChar reg 13 s) = kNone.
Proof.
  intros Ha. rewrite ProcessChar_enter by done.
  shape_step.
  destruct (auth_ s); [| |destruct (0 <? cmd_len_ s)];
    repeat shape_step; done.
Qed.

(** X17: Enter always leaves an empty line: the length is zero, the buffer
    is cleared, the history cursor is reset, and a line feed that follows
    changes nothing.  On an empty line of an authorized session nothing is
    executed or stored: the session only answers CR LF and the prompt. *)
Theorem X17_enter reg s :
  arrow_ s = kNone →
  cmd_len_ (ProcessChar reg 13 s) = 0 ∧
  cmd_buf_ (ProcessChar reg 13 s) = zeros kMaxCmdLen ∧
  history_nav_ (ProcessChar reg 13 s) = (-1)%Z ∧
  ProcessChar reg 10 (ProcessChar reg 13 s) = ProcessChar reg 13 s ∧
  (auth_ s = kAuthorized → cmd_len_ s = 0 →
   (∀ reg', ProcessChar reg 13 s = ProcessChar reg' 13 s) ∧
   history_ (ProcessChar reg 13 s) = history_ s ∧
   history_count_ (ProcessChar reg 13 s) = history_count_ s ∧
   running_ (ProcessChar reg 13 s) = running_ s ∧
   (sending s →
    sent_ (ProcessChar reg 13 s)
    = sent_ s ++ CRLF ++ c_str (default [] (prompt (config_ s))))).
Proof.
  intros Ha. destruct (enter_fields reg s Ha) as (H1 & H2 & H3 & H4).
  split; [done|]. split; [done|]. split; [done|].
  split; [by apply ProcessChar_lf|].
  intros Hauth H0. split.
  { intros reg'. rewrite !ProcessChar_enter by done. by rewrite Hauth, H0. }
  rewrite ProcessChar_enter by done. rewrite Hauth, H0. cbn [Nat.ltb Nat.leb].
  split; [by repeat shape_step|]. split; [by repeat shape_step|].
  split; [by repeat shape_step|].
  intros [Hfd Hp]. rewrite Send_sending by done. fld.
  rewrite ShowPrompt_sending by (split; fld; done).
  unfold prompt_text. fld. rewrite Hauth.
  change (take 2 CRLF) with CRLF. by rewrite <- app_assoc.
Qed.

Lemma X17_enter_witness :
  sent_ (ProcessChar test_registry 13 (Init 3 open_config session_new))
  = [13; 10; 62; 32]%Z.
Proof.
  refine (proj2 (proj2 (proj2 (proj2
    (proj2 (proj2 (proj2 (proj2
       (X17_enter test_registry (Init 3 open_config session_new) _)))) _ _))))
    _).
  - reflexivity.
  - reflexivity.
  - reflexivity.
  - split; [vm_compute; discriminate|reflexivity].
Defined.

(** The C string in the line buffer is the line. *)
Lemma line_c_str s :
  line_wf s → nonzero (line_text s) → c_str (cmd_buf_ s) = line_text s.
Proof.
  intros (Hlen & Hl & Ht) Hnz. unfold line_text in *.
  rewrite <- (take_drop (cmd_len_ s) (cmd_buf_ s)) at 1.
  rewrite (c_str_app_nonzero _ _ Hnz).
  rewrite (drop_S _ 0%Z _ Ht). cbn [c_str Z.eqb]. by rewrite app_nil_r.
Qed.

Lemma line_terminated s :
  line_wf s → <[cmd_len_ s := 0%Z]> (cmd_buf_ s) = cmd_buf_ s.
Proof. intros (_ & _ & Ht). by apply list_insert_id. Qed.



Lemma RunLoop_stopped reg input s :
  running_ s = false → RunLoop reg input s = s.
Proof. intros Hr. destruct input; [done|]. cbn [RunLoop]. by rewrite Hr. Qed.



(** ** Recalling a line from the history *)

Lemma history_rep_ext s s' h :
  history_ s' = history_ s → history_count_ s' = history_count_ s →
  history_write_ s' = history_write_ s →
  history_rep s h → history_rep s' h.
Proof.
  intros H1 H2 H3 (Hwf & Hl & Hg).
  unfold history_rep, history_wf, GetHistory in *. by rewrite H1, H2, H3.
Qed.

Lemma GetHistory_ext i s s' :
  history_ s' = history_ s → history_count_ s' = history_count_ s →
  history_write_ s' = history_write_ s →
  GetHistory i s' = GetHistory i s.
Proof. intros H1 H2 H3. unfold GetHistory. by rewrite H1, H2, H3. Qed.



Lemma strlen_le t : strlen t ≤ length t.
Proof.
  unfold strlen. induction t as [|c t IH]; [done|]. cbn [c_str].
  destruct (c =? 0)%Z; cbn [length]; lia.
Qed.




Lemma history_push_head line h :
  c_str line ≠ [] → length (c_str line) ≤ kMaxCmdLen - 1 →
  head (history_push line h) = Some (c_str line).
Proof.
  intros Hne Hlen. unfold history_push.
  case_bool_decide; [done|]. case_bool_decide; [done|].
  cbn [kHistorySize take head]. by rewrite take_ge by lia.
Qed.



(** ** Escape sequences *)

Lemma set_arrow_same s : set_arrow (arrow_ s) s = s.
Proof. by destruct s. Qed.

(** X20: an escape sequence that is no history movement is swallowed
    without any effect.  Outside an escape sequence, ESC followed by a byte
    other than the bracket, ESC [ followed by a byte other than A and B, the
    Up arrow on the oldest entry and the Down arrow below the newest one all
    leave the session exactly as it was. *)
Theorem X20_escape_swallowed reg s :
  arrow_ s = kNone →
  (∀ c, c ≠ 91%Z → process_all reg [27%Z; c] s = s) ∧
  (∀ c, c ≠ 65%Z → c ≠ 66%Z → process_all reg [27%Z; 91%Z; c] s = s) ∧
  ((Z.of_nat (history_count_ s) ≤ history_nav_ s + 1)%Z →
   process_all reg [27; 91; 65]%Z s = s) ∧
  ((history_nav_ s < 0)%Z → process_all reg [27; 91; 66]%Z s = s).
Proof.
  intros Ha. unfold process_all. cbn [foldl].
  assert (ProcessChar reg 27 s = set_arrow kEsc s) as ->
    by (unfold ProcessChar; by rewrite Ha).
  assert (ProcessChar reg 91 (set_arrow kEsc s) = set_arrow kBracket s) as ->
    by done.
  assert (set_arrow kNone (set_arrow kEsc s) = s) as Hesc
    by (rewrite <- Ha at 1; by destruct s).
  assert (set_arrow kNone (set_arrow kBracket s) = s) as Hbr
    by (rewrite <- Ha at 1; by destruct s).
  split; [|split; [|split]].
  - intros c Hc. unfold ProcessChar, HandleArrow. fld.
    by destruct (Z.eqb_spec c 91).
  - intros c H65 H66. unfold ProcessChar, HandleArrow. fld.
    destruct (Z.eqb_spec c 65) as [|_]; [done|].
    by destruct (Z.eqb_spec c 66) as [|_].
  - intros Hold. unfold ProcessChar, HandleArrow. fld. cbn [Z.eqb Pos.eqb].
    by destruct (Z.ltb_spec (history_nav_ s + 1)
                   (Z.of_nat (history_count_ s))); [lia|].
  - intros Hneg. unfold ProcessChar, HandleArrow. fld. cbn [Z.eqb Pos.eqb].
    destruct (Z.ltb_spec 0 (history_nav_ s)); [lia|].
    by destruct (Z.eqb_spec (history_nav_ s) 0); [lia|].
Qed.

Lemma X20_escape_swallowed_witness :
  process_all test_registry [27; 97]%Z (Init 3 open_config session_new)
  = Init 3 open_config session_new.
Proof.
  refine (proj1 (X20_escape_swallowed test_registry
                   (Init 3 open_config session_new) _) 97%Z _).
  - reflexivity.
  - discriminate.
Defined.

(** ** A whole connection *)

Lemma Send_grows d n s : sent_ s `prefix_of` sent_ (Send d n s).
Proof.
  unfold Send. destruct d as [d|]; [|done].
  destruct ((n =? 0) || (sock_fd_ s <? 0)%Z); [done|].
  destruct (output_paused_ s); [done|]. by apply prefix_app_r.
Qed.

Lemma SendStr_grows d s : sent_ s `prefix_of` sent_ (SendStr d s).
Proof. unfold SendStr. destruct d; [apply Send_grows|done]. Qed.

Lemma ShowPrompt_grows s : sent_ s `prefix_of` sent_ (ShowPrompt s).
Proof. unfold ShowPrompt. destruct (auth_ s); apply SendStr_grows. Qed.

Lemma outputs_grows outs : ∀ s,
  sent_ s `prefix_of`
  sent_ (foldl (λ acc call, SessionOutput call acc) s outs).
Proof.
  induction outs as [|call outs IH]; intros s; [done|]. cbn [foldl].
  etrans; [|apply IH]. apply Send_grows.
Qed.

Lemma ExecuteCommand_grows reg s :
  sent_ s `prefix_of` sent_ (ExecuteCommand reg s).
Proof.
  unfold ExecuteCommand.
  assert (sent_ (PushHistory (Some (cmd_buf_ s)) s) = sent_ s) as Hp
    by (by shape_step).
  match goal with |- context [if ?b then _ else _] => destruct b end.
  - unfold Stop. fld. rewrite <- Hp at 1. apply SendStr_grows.
  - rewrite <- Hp at 1. apply outputs_grows.
Qed.

Lemma CheckAuth_grows s : sent_ s `prefix_of` sent_ (CheckAuth s).
Proof.
  unfold CheckAuth. destruct (auth_ s); [done| |done].
  match goal with |- context [if ?b then _ else _] => destruct b end; fld.
  - apply (SendStr_grows _ (set_auth kAuthorized s)).
  - apply SendStr_grows.
Qed.

Lemma erase_line_grows n : ∀ s, sent_ s `prefix_of` sent_ (erase_line n s).
Proof.
  induction n as [|n IH]; intros s; [done|]. cbn [erase_line].
  etrans; [|apply IH]. apply (Send_grows _ _ (set_cmd_len n s)).
Qed.

Lemma ReplaceLineWith_grows t s :
  sent_ s `prefix_of` sent_ (ReplaceLineWith t s).
Proof.
  unfold ReplaceLineWith. destruct t as [t|]; [|apply erase_line_grows].
  cbv zeta. etrans; [apply (erase_line_grows (cmd_len_ s))|].
  match goal with |- _ `prefix_of` sent_ (Send ?d ?n ?t) =>
    apply (Send_grows d n t) end.
Qed.

Lemma HandleArrow_grows c s : sent_ s `prefix_of` sent_ (HandleArrow c s).
Proof.
  unfold HandleArrow.
  destruct (arrow_ s); [|done|];
    (destruct (c =? 65)%Z;
     [match goal with |- context [if ?b then _ else _] => destruct b end;
      [|done]|]);
    try (destruct (c =? 66)%Z; [|done]);
    try (match goal with |- context [if ?b then _ else _] => destruct b end);
    try (match goal with |- context [if ?b then _ else _] => destruct b end);
    try done;
    match goal with |- _ `prefix_of` sent_ (ReplaceLineWith ?t ?u) =>
      apply (ReplaceLineWith_grows t u) end.
Qed.

Lemma ProcessChar_grows reg c s :
  sent_ s `prefix_of` sent_ (ProcessChar reg c s).
Proof.
  unfold ProcessChar.
  destruct (arrow_ s); [|apply HandleArrow_grows..].
  destruct (c =? 27)%Z; [done|].
  destruct (c =? 19)%Z; [done|].
  destruct (c =? 17)%Z; [done|].
  destruct ((c =? 8)%Z || (c =? 127)%Z).
  { destruct (0 <? cmd_len_ s); [|done]. cbv zeta. fld.
    destruct (auth_ s); [|done|];
      match goal with |- _ `prefix_of` sent_ (Send ?d ?n ?t) =>
        apply (Send_grows d n t) end. }
  destruct (c =? 13)%Z.
  { cbv zeta.
    etrans; [|apply ShowPrompt_grows]. fld.
    etrans; [apply (Send_grows (Some CRLF) 2 s)|].
    destruct (auth_ _).
    - match goal with |- _ `prefix_of` sent_ (CheckAuth ?t) =>
        apply (CheckAuth_grows t) end.
    - match goal with |- _ `prefix_of` sent_ (CheckAuth ?t) =>
        apply (CheckAuth_grows t) end.
    - destruct (0 <? _); [|done].
      match goal with |- _ `prefix_of` sent_ (ExecuteCommand ?r ?t) =>
        apply (ExecuteCommand_grows r t) end. }
  destruct (c =? 10)%Z; [done|].
  destruct (cmd_len_ s <? kMaxCmdLen - 1); [|done].
  cbv zeta. fld.
  destruct (auth_ s);
    match goal with |- _ `prefix_of` sent_ (Send ?d ?n ?t) =>
      apply (Send_grows d n t) end.
Qed.

Lemma ProcessChar_link reg c s :
  sock_fd_ (ProcessChar reg c s) = sock_fd_ s ∧
  registry_ (ProcessChar reg c s) = registry_ s ∧
  config_ (ProcessChar reg c s) = config_ s ∧
  iac_ (ProcessChar reg c s) = iac_ s.
Proof.
  unfold ProcessChar.
  destruct (arrow_ s); [|by shape_step..].
  destruct (c =? 27)%Z; [done|].
  destruct (c =? 19)%Z; [done|].
  destruct (c =? 17)%Z; [done|].
  destruct ((c =? 8)%Z || (c =? 127)%Z).
  { destruct (0 <? cmd_len_ s); [|done]. cbv zeta. fld.
    destruct (auth_ s); [|done|]; by shape_step. }
  destruct (c =? 13)%Z.
  { cbv zeta. shape_step.
    destruct (auth_ s); [| |destruct (0 <? cmd_len_ s)];
      by repeat shape_step. }
  destruct (c =? 10)%Z; [done|].
  destruct (cmd_len_ s <? kMaxCmdLen - 1); [|done].
  cbv zeta. fld. destruct (auth_ s); by shape_step.
Qed.

Lemma RunLoop_link reg input : ∀ s,
  sock_fd_ (RunLoop reg input s) = sock_fd_ s ∧
  registry_ (RunLoop reg input s) = registry_ s ∧
  config_ (RunLoop reg input s) = config_ s ∧
  sent_ s `prefix_of` sent_ (RunLoop reg input s).
Proof.
  induction input as [|b bs IH]; intros s; [done|].
  cbn [RunLoop]. destruct (running_ s); [|done].
  destruct (IH (RunStep reg b s)) as (H1 & H2 & H3 & H4).
  assert (sock_fd_ (RunStep reg b s) = sock_fd_ s ∧
          registry_ (RunStep reg b s) = registry_ s ∧
          config_ (RunStep reg b s) = config_ s ∧
          sent_ s `prefix_of` sent_ (RunStep reg b s)) as (S1 & S2 & S3 & S4).
  { unfold RunStep. destruct (FilterIac (iac_ s) b) as [iac' c].
    destruct (c =? 0)%Z; [done|].
    destruct (ProcessChar_link reg c (set_iac iac' s)) as (L1 & L2 & L3 & _).
    pose proof (ProcessChar_grows reg c (set_iac iac' s)). done. }
  rewrite H1, H2, H3. repeat split; try done. by etrans.
Qed.

Lemma Run_closes reg input s :
  (0 ≤ sock_fd_ s)%Z → registry_ s = true →
  sock_fd_ (Run reg input s) = (-1)%Z.
Proof.
  intros Hfd Hreg. unfold Run. rewrite Hreg.
  destruct (Z.ltb_spec (sock_fd_ s) 0); [lia|]. cbn [negb orb]. cbv zeta.
  unfold SendIac.
  match goal with |- context [RunLoop reg input ?t] => set (s0 := t) end.
  destruct (RunLoop_link reg input s0) as (L1 & _).
  assert (sock_fd_ s0 = sock_fd_ s) as Hfd0
    by (unfold s0; by repeat shape_step).
  unfold Close. rewrite L1, Hfd0.
  by destruct (Z.leb_spec 0 (sock_fd_ s)); [|lia].
Qed.

Lemma Run_idle reg input s :
  (sock_fd_ s < 0)%Z ∨ registry_ s = false → Run reg input s = s.
Proof.
  unfold Run. intros [Hfd|Hreg].
  - by destruct (Z.ltb_spec (sock_fd_ s) 0); [|lia].
  - rewrite Hreg. cbn [negb]. by rewrite orb_true_r.
Qed.

(** X21: a connection from its first byte to its last.  Run does nothing
    on a session without socket or registry.  Otherwise, whatever the peer
    sends, the transmission begins with the four option negotiations, the
    banner and the prompt, in this order, and the socket is closed when Run
    returns. *)
Theorem X21_run_frame reg input s :
  ((sock_fd_ s < 0)%Z ∨ registry_ s = false → Run reg input s = s) ∧
  ((0 ≤ sock_fd_ s)%Z → registry_ s = true →
   sock_fd_ (Run reg input s) = (-1)%Z ∧
   (output_paused_ s = false →
    (sent_ s ++ [255; 253; 3; 255; 253; 31; 255; 251; 1; 255; 251; 3]%Z
       ++ c_str (default [] (banner (config_ s))) ++ prompt_text s)
    `prefix_of` sent_ (Run reg input s))).
Proof.
  split; [apply Run_idle|].
  intros Hfd Hreg. split; [by apply Run_closes|].
  intros Hp. unfold Run. rewrite Hreg.
  destruct (Z.ltb_spec (sock_fd_ s) 0); [lia|]. cbn [negb orb]. cbv zeta.
  unfold SendIac.
  match goal with |- context [RunLoop reg input ?t] => set (s0 := t) end.
  destruct (RunLoop_link reg input s0) as (L1 & L2 & L3 & L4).
  assert (sent_ (Close (RunLoop reg input s0))
          = sent_ (RunLoop reg input s0)) as ->.
  { unfold Close. by destruct (0 <=? _)%Z. }
  etrans; [|exact L4]. unfold s0.
  rewrite (Send_sending _ _ s) by done.
  rewrite (Send_sending _ _ (set_sent _ _)) by (split; fld; done). fld.
  rewrite (Send_sending _ _ (set_sent _ _)) by (split; fld; done). fld.
  rewrite (Send_sending _ _ (set_sent _ _)) by (split; fld; done). fld.
  rewrite (SendStr_sending _ (set_sent _ _)) by (split; fld; done). fld.
  rewrite (ShowPrompt_sending (set_sent _ _)) by (split; fld; done). fld.
  unfold prompt_text. fld. cbn [take]. by rewrite <- !app_assoc.
Qed.

Lemma X21_run_frame_witness :
  sock_fd_ (Run test_registry (typed "help")
              (Init 3 open_config session_new)) = (-1)%Z.
Proof.
  refine (proj1 (proj2 (X21_run_frame test_registry (typed "help")
                          (Init 3 open_config session_new)) _ _)).
  - vm_compute. discriminate.
  - reflexivity.
Defined.

(** ** Printf *)

(** X22: Printf on a session.  Nothing is sent for a null format, an empty
    text, a closed socket or a paused output.  A text of up to 511
    characters is sent as it is.  A longer one goes through the 512 byte
    buffer: the transmission continues with its first 511 characters and the
    terminator of the buffer. *)
Theorem X22_session_printf text s :
  Printf None s = s ∧
  Printf (Some []) s = s ∧
  ((sock_fd_ s < 0)%Z ∨ output_paused_ s = true → Printf (Some text) s = s) ∧
  (sending s → length text ≤ 511 →
   sent_ (Printf (Some text) s) = sent_ s ++ text) ∧
  (sending s → 511 < length text →
   (sent_ s ++ take 511 text ++ [0%Z])
   `prefix_of` sent_ (Printf (Some text) s)).
Proof.
  split; [done|]. split.
  { unfold Printf. by destruct (sock_fd_ s <? 0)%Z. }
  unfold Printf, snprintf. cbn [Nat.sub].
  split; [|split].
  - intros [Hfd|Hp].
    + by destruct (Z.ltb_spec (sock_fd_ s) 0); [|lia].
    + destruct (sock_fd_ s <? 0)%Z; [done|].
      destruct (0 <? Z.of_nat (length text))%Z; [|done].
      by apply Send_paused.
  - intros [Hfd Hp] Hlen.
    destruct (Z.ltb_spec (sock_fd_ s) 0); [lia|].
    destruct (Z.ltb_spec 0 (Z.of_nat (length text))) as [Hpos|Hz].
    + rewrite Send_sending by done. fld. f_equal.
      rewrite Nat2Z.id, take_app_le by (rewrite length_take; lia).
      rewrite take_take. by rewrite take_ge by lia.
    + destruct text; [by rewrite app_nil_r|cbn [length] in Hz; lia].
  - intros [Hfd Hp] Hlen.
    destruct (Z.ltb_spec (sock_fd_ s) 0); [lia|].
    destruct (Z.ltb_spec 0 (Z.of_nat (length text))) as [Hpos|Hz]; [|lia].
    rewrite Send_sending by done. fld.
    rewrite Nat2Z.id, (take_ge (take 511 text ++ [0%Z])); [reflexivity|].
    rewrite length_app, length_take. cbn [length]. lia.
Qed.

Lemma X22_session_printf_witness :
  sent_ (Printf (Some (chars "n=5")) (Init 3 open_config session_new))
  = chars "n=5".
Proof.
  refine (proj1 (proj2 (proj2 (proj2
    (X22_session_printf (chars "n=5") (Init 3 open_config session_new)))))
    _ _).
  - split; [vm_compute; discriminate|reflexivity].
  - vm_compute. lia.
Defined.

(** ** The session pool of the server *)

Lemma FindFreeSlot_cases sv :
  (FindFreeSlot sv = ((-1)%Z, sv) ∧
   ∀ i sl, i < slot_limit sv → slots_ sv !! i = Some sl → active sl = true) ∨
  (∃ i sl,
     FindFreeSlot sv
     = (Z.of_nat i,
        set_slots (<[i := {| session := session sl; thread := false;
                             active := false |}]> (slots_ sv)) sv) ∧
     slots_ sv !! i = Some sl ∧ i < slot_limit sv ∧ active sl = false ∧
     ∀ j y, j < i → slots_ sv !! j = Some y → active y = true).
Proof.
  unfold FindFreeSlot.
  destruct (list_find _ _) as [[i sl]|] eqn:Hf.
  - right. apply list_find_Some in Hf as (Hi & Hact & Hmin).
    apply lookup_take_Some in Hi as [Hi Hlt].
    exists i, sl. rewrite Hact. repeat split; try done.
    intros j y Hj Hy. destruct (active y) eqn:Hay; [done|].
    exfalso. apply (Hmin j y); [|done..].
    apply lookup_take_Some. split; [done|lia].
  - left. split; [done|]. intros i sl Hi Hsl.
    apply list_find_None in Hf. rewrite Forall_lookup in Hf.
    destruct (active sl) eqn:Hact; [done|]. exfalso.
    apply (Hf i sl); [|done]. apply lookup_take_Some. by split.
Qed.

(** X23: FindFreeSlot returns the first slot that is not active among the
    first min(max_sessions, 8), and -1 exactly when all of these are
    active.  The slot it returns has no joinable thread afterwards; nothing
    else changes, and nothing at all when it returns -1. *)
Theorem X23_FindFreeSlot sv :
  length (slots_ sv) = kMaxSessions →
  (fst (FindFreeSlot sv) = (-1)%Z ↔
   ∀ i sl, i < slot_limit sv → slots_ sv !! i = Some sl → active sl = true) ∧
  (fst (FindFreeSlot sv) = (-1)%Z → snd (FindFreeSlot sv) = sv) ∧
  (fst (FindFreeSlot sv) = (-1)%Z ∨
   ∃ i sl,
     fst (FindFreeSlot sv) = Z.of_nat i ∧ i < slot_limit sv ∧
     i < kMaxSessions ∧
     slots_ sv !! i = Some sl ∧ active sl = false ∧
     (∀ j y, j < i → slots_ sv !! j = Some y → active y = true) ∧
     slots_ (snd (FindFreeSlot sv))
       = <[i := {| session := session sl; thread := false;
                   active := false |}]> (slots_ sv) ∧
     srv_config_ (snd (FindFreeSlot sv)) = srv_config_ sv).
Proof.
  intros Hlen.
  destruct (FindFreeSlot_cases sv)
    as [[-> Hall]|(i & sl & -> & Hi & Hlt & Hact & Hmin)]; cbn [fst snd].
  - split; [done|]. split; [done|]. by left.
  - split.
    { split; [lia|]. intros Hall. specialize (Hall i sl Hlt Hi). congruence. }
    split; [lia|]. right. exists i, sl.
    repeat split; try done. unfold slot_limit in Hlt. lia.
Qed.

Lemma X23_FindFreeSlot_witness :
  snd (FindFreeSlot (busy_server 2)) = busy_server 2.
Proof.
  refine (proj1 (proj2 (X23_FindFreeSlot (busy_server 2) _)) _).
  - reflexivity.
  - reflexivity.
Defined.

Lemma server_new_wf config : server_wf (server_new config).
Proof.
  split; [done|]. intros i sl Hi. cbn [server_new slots_] in Hi.
  apply lookup_replicate in Hi as [-> _]. by split.
Qed.

Lemma slot_ok_insert sv i sl :
  server_wf sv → i < kMaxSessions → slot_ok (slot_limit sv) i sl →
  server_wf (set_slots (<[i := sl]> (slots_ sv)) sv).
Proof.
  intros [Hlen Hall] Hi Hok. split.
  - cbn [set_slots slots_]. by rewrite length_insert.
  - intros j y. cbn [set_slots slots_].
    change (slot_limit (set_slots _ sv)) with (slot_limit sv).
    destruct (decide (j = i)) as [->|Hne].
    + rewrite list_lookup_insert_eq by lia. by intros [= <-].
    + rewrite list_lookup_insert_ne by done. apply Hall.
Qed.

Lemma AcceptOne_cases fd sv :
  server_wf sv →
  (AcceptOne fd sv = (Rejected msg_server_full, sv) ∧
   ∀ i sl, i < slot_limit sv → slots_ sv !! i = Some sl → active sl = true) ∨
  (∃ i sl,
     AcceptOne fd sv
     = (Started i,
        set_slots
          (<[i := {| session := Init fd (session_config (srv_config_ sv))
                                  (session sl);
                     thread := true; active := true |}]> (slots_ sv)) sv) ∧
     slots_ sv !! i = Some sl ∧ i < slot_limit sv ∧ active sl = false ∧
     ∀ j y, j < i → slots_ sv !! j = Some y → active y = true).
Proof.
  intros [Hlen Hall]. unfold AcceptOne.
  destruct (FindFreeSlot_cases sv)
    as [[-> Hfull]|(i & sl & -> & Hi & Hlt & Hact & Hmin)].
  - left. by split.
  - right. exists i, sl.
    destruct (Z.ltb_spec (Z.of_nat i) 0) as [|_]; [lia|].
    rewrite Nat2Z.id. cbn [set_slots slots_ srv_config_].
    assert (i < length (slots_ sv)) as Hil by (by eapply lookup_lt_Some).
    rewrite list_lookup_insert_eq by done. cbn [thread session].
    rewrite list_insert_insert_eq. by repeat split.
Qed.

Lemma AcceptOne_wf fd sv :
  server_wf sv → (0 ≤ fd)%Z →
  fst (AcceptOne fd sv) ≠ Terminated ∧ server_wf (snd (AcceptOne fd sv)).
Proof.
  intros Hwf Hfd.
  destruct (AcceptOne_cases fd sv Hwf)
    as [[-> _]|(i & sl & -> & Hi & Hlt & Hact & _)]; cbn [fst snd];
    [done|].
  split; [done|]. apply slot_ok_insert; [done| |].
  - unfold slot_limit in Hlt. lia.
  - split; [|done]. intros _. by repeat split.
Qed.

Lemma SessionLoop_wf reg input idx sv sl :
  server_wf sv → slots_ sv !! idx = Some sl → active sl = true →
  server_wf (SessionLoop reg input idx sv).
Proof.
  intros Hwf Hi Hact. unfold SessionLoop. rewrite Hi.
  pose proof Hwf as [Hlen Hall].
  destruct (Hall idx sl Hi) as [Hok _].
  destruct (Hok Hact) as (Hlt & _ & Hfd & Hreg).
  apply slot_ok_insert; [done| |].
  - unfold slot_limit in Hlt. lia.
  - split; [done|]. intros _. cbn [session]. by apply Run_closes.
Qed.

Lemma Broadcast_slots d len sv i sl :
  len ≠ 0 → slots_ sv !! i = Some sl →
  slots_ (Broadcast (Some d) len sv) !! i
  = Some (if active sl
          then {| session := Send (Some d) len (session sl);
                  thread := thread sl; active := active sl |}
          else sl).
Proof.
  intros Hlen Hi. unfold Broadcast.
  destruct (Nat.eqb_spec len 0) as [|_]; [done|].
  cbn [set_slots slots_]. by rewrite list_lookup_fmap, Hi.
Qed.

Lemma Broadcast_wf d len sv : server_wf sv → server_wf (Broadcast d len sv).
Proof.
  intros Hwf. pose proof Hwf as [Hlen Hall].
  destruct d as [d|]; [|done].
  destruct (Nat.eq_dec len 0) as [->|Hne]; [done|].
  split.
  - unfold Broadcast. destruct (Nat.eqb_spec len 0) as [|_]; [done|].
    cbn [set_slots slots_]. by rewrite length_fmap.
  - intros i sl' Hi'.
    assert (slot_limit (Broadcast (Some d) len sv) = slot_limit sv) as ->.
    { unfold Broadcast. by destruct (len =? 0). }
    destruct (slots_ sv !! i) as [sl|] eqn:Hi.
    + rewrite (Broadcast_slots d len sv i sl Hne Hi) in Hi'.
      apply (inj Some) in Hi'. subst sl'.
      pose proof (Hall i sl Hi) as Hok.
      destruct (active sl) eqn:Hact; [|done].
      destruct Hok as [Hon _]. rewrite Hact in Hon.
      destruct (Hon eq_refl) as (H1 & H2 & H3 & H4).
      split; [|by cbn [active]]. intros _. cbn [session thread active].
      destruct (Send_shape (Some d) len (session sl)) as (v & -> & _).
      by repeat split.
    + exfalso. apply lookup_ge_None in Hi.
      apply lookup_lt_Some in Hi'.
      assert (length (slots_ (Broadcast (Some d) len sv))
              = length (slots_ sv)) as Hl.
      { unfold Broadcast. destruct (len =? 0); [done|].
        cbn [set_slots slots_]. by rewrite length_fmap. }
      lia.
Qed.

Lemma server_step_wf reg ev sv :
  server_wf sv →
  ∃ sv', server_step reg ev sv = Some sv' ∧ server_wf sv' ∧
         srv_config_ sv' = srv_config_ sv.
Proof.
  intros Hwf. destruct ev as [fd|idx input|d len]; cbn [server_step].
  - destruct (Z.ltb_spec fd 0) as [|Hfd]; [by exists sv|].
    destruct (AcceptOne_cases fd sv Hwf)
      as [[Heq _]|(i & sl & Heq & Hi & Hlt & Hact & _)].
    + rewrite Heq. by exists sv.
    + pose proof (AcceptOne_wf fd sv Hwf Hfd) as [_ Hwf'].
      rewrite Heq in *. cbn [snd] in Hwf'.
      eexists. split; [done|]. split; [exact Hwf'|done].
  - destruct (slots_ sv !! idx) as [sl|] eqn:Hi; [|by exists sv].
    destruct (active sl) eqn:Hact; [|by exists sv].
    eexists. split; [done|]. split; [by eapply SessionLoop_wf|].
    unfold SessionLoop. by rewrite Hi.
  - eexists. split; [done|]. split; [by apply Broadcast_wf|].
    unfold Broadcast. destruct d; [|done]. by destruct (len =? 0).
Qed.

Lemma server_run_wf reg evs : ∀ sv,
  server_wf sv →
  ∃ sv', server_run reg evs sv = Some sv' ∧ server_wf sv' ∧
         srv_config_ sv' = srv_config_ sv.
Proof.
  induction evs as [|ev evs IH]; intros sv Hwf; [by exists sv|].
  cbn [server_run].
  destruct (server_step_wf reg ev sv Hwf) as (sv1 & -> & Hwf1 & Hc1).
  destruct (IH sv1 Hwf1) as (sv' & -> & Hwf' & Hc').
  exists sv'. split; [done|]. split; [done|]. congruence.
Qed.

Lemma filter_none {A} (P : A → Prop) `{∀ x, Decision (P x)} (l : list A) :
  Forall (λ x, ¬ P x) l → filter P l = [].
Proof.
  induction 1 as [|x l Hx Hl IH]; [done|]. by rewrite filter_cons_False.
Qed.

Lemma active_count_le sv : server_wf sv → active_count sv ≤ slot_limit sv.
Proof.
  intros [Hlen Hall]. unfold active_count.
  rewrite <- (take_drop (slot_limit sv) (slots_ sv)), list.filter_app.
  rewrite length_app.
  rewrite (filter_none _ (drop (slot_limit sv) (slots_ sv))).
  - cbn [length].
    pose proof (length_filter (λ sl, active sl = true)
                  (take (slot_limit sv) (slots_ sv))) as Hf.
    rewrite length_take in Hf. lia.
  - apply Forall_lookup. intros i sl Hi Hact.
    rewrite lookup_drop in Hi.
    destruct (Hall _ sl Hi) as [Hon _]. destruct (Hon Hact) as [Hlt _]. lia.
Qed.

(** X24: the session pool stays sound whatever happens.  From a newly
    constructed server, any sequence of accepted connections, ending
    sessions and broadcasts leaves the process running (no joinable thread
    is ever assigned to) and the eight slots well formed: an active slot
    lies below the configured limit and has its thread and an open socket,
    a slot that is not active has its socket closed, and the number of
    active sessions never exceeds min(max_sessions, 8). *)
Theorem X24_pool_invariant reg config evs :
  ∃ sv, server_run reg evs (server_new config) = Some sv ∧
        server_wf sv ∧ srv_config_ sv = config ∧
        active_count sv ≤ min (max_sessions config) kMaxSessions.
Proof.
  destruct (server_run_wf reg evs (server_new config) (server_new_wf config))
    as (sv & Hrun & Hwf & Hc).
  exists sv. split; [done|]. split; [done|]. split; [done|].
  pose proof (active_count_le sv Hwf) as Hle.
  unfold slot_limit in Hle. by rewrite Hc in Hle.
Qed.

(** X25: what an accepted connection gets.  When every slot below the
    limit is active, the connection is answered with the text
    [Server full.] and the server is left as it was.  Otherwise a session
    is started in the first slot that is not active: it is initialised with
    the descriptor and the configuration of the server, with the default
    banner when the server has none, it asks for a login exactly when both
    credentials are configured, and the other slots are not touched. *)
Theorem X25_accept fd sv :
  server_wf sv → (0 ≤ fd)%Z →
  ((∀ i sl, i < slot_limit sv → slots_ sv !! i = Some sl → active sl = true) →
   AcceptOne fd sv = (Rejected msg_server_full, sv)) ∧
  (∀ i sl,
     i < slot_limit sv → slots_ sv !! i = Some sl → active sl = false →
     (∀ j y, j < i → slots_ sv !! j = Some y → active y = true) →
     fst (AcceptOne fd sv) = Started i ∧
     (∀ j, j ≠ i → slots_ (snd (AcceptOne fd sv)) !! j = slots_ sv !! j) ∧
     ∃ sl', slots_ (snd (AcceptOne fd sv)) !! i = Some sl' ∧
            active sl' = true ∧ thread sl' = true ∧
            session sl' = Init fd (session_config (srv_config_ sv))
                            (session sl) ∧
            sock_fd_ (session sl') = fd ∧
            username (config_ (session sl')) = srv_username (srv_config_ sv) ∧
            password (config_ (session sl')) = srv_password (srv_config_ sv) ∧
            prompt (config_ (session sl')) = srv_prompt (srv_config_ sv) ∧
            banner (config_ (session sl'))
              = Some (default default_banner (srv_banner (srv_config_ sv))) ∧
            (auth_ (session sl') = kNeedUser ↔
             is_Some (srv_username (srv_config_ sv)) ∧
             is_Some (srv_password (srv_config_ sv)))).
Proof.
  intros Hwf Hfd.
  destruct (AcceptOne_cases fd sv Hwf)
    as [[Heq Hfull]|(i & sl & Heq & Hi & Hlt & Hact & Hmin)]; rewrite Heq.
  - split; [done|]. intros i sl Hlt Hi Hact.
    specialize (Hfull i sl Hlt Hi). congruence.
  - split.
    { intros Hfull. specialize (Hfull i sl Hlt Hi). congruence. }
    intros i' sl' Hlt' Hi' Hact' Hmin'.
    assert (i' = i) as ->.
    { destruct (Nat.lt_trichotomy i' i) as [Hl|[->|Hl]]; [|done|].
      - specialize (Hmin i' sl' Hl Hi'). congruence.
      - specialize (Hmin' i sl Hl Hi). congruence. }
    assert (sl' = sl) as -> by congruence.
    cbn [fst snd set_slots slots_].
    assert (i < length (slots_ sv)) as Hil by (by eapply lookup_lt_Some).
    split; [done|].
    split; [intros j Hj; by rewrite list_lookup_insert_ne|].
    eexists. split; [by apply list_lookup_insert_eq|].
    cbn [active thread session]. unfold session_config.
    cbn [Init sock_fd_ config_ auth_ username password prompt banner].
    do 7 (split; [done|]).
    split; [by destruct (srv_banner (srv_config_ sv))|].
    destruct (srv_username _) as [u|], (srv_password _) as [p|];
      (split; [intros ?|intros [[? ?] [? ?]]]); try done; split; by eexists.
Qed.

Lemma X25_accept_witness :
  AcceptOne 9 (busy_server 2) = (Rejected msg_server_full, busy_server 2).
Proof.
  refine (proj1 (X25_accept 9 (busy_server 2) _ _) _).
  - split; [done|]. intros i sl Hi.
    assert (i < 8) as Hlt by (apply lookup_lt_Some in Hi; exact Hi).
    do 8 (destruct i as [|i]; [cbn in Hi; apply (inj Some) in Hi; subst sl;
                               split; cbn; intros; try done; try lia;
                               repeat split; try done; cbn; lia|]).
    lia.
  - lia.
  - intros i sl Hlt Hi. cbn in Hlt.
    do 2 (destruct i as [|i]; [cbn in Hi; by apply (inj Some) in Hi; subst sl|]).
    lia.
Defined.

(** X26: Broadcast reaches the active sessions and only them.  With a
    null pointer or a zero length it does nothing.  Otherwise the slots keep
    their number, their activity and their threads; a slot that is not
    active is untouched; an active session that is transmitting gets the
    first len bytes of the data (len being within the data), and an active
    session whose output is paused gets nothing. *)
Theorem X26_broadcast d len sv :
  Broadcast None len sv = sv ∧
  Broadcast (Some d) 0 sv = sv ∧
  (len ≠ 0 →
   length (slots_ (Broadcast (Some d) len sv)) = length (slots_ sv) ∧
   ∀ i sl, slots_ sv !! i = Some sl →
     ∃ sl', slots_ (Broadcast (Some d) len sv) !! i = Some sl' ∧
            active sl' = active sl ∧ thread sl' = thread sl ∧
            (active sl = false → sl' = sl) ∧
            (active sl = true → sending (session sl) → len ≤ length d →
             sent_ (session sl') = sent_ (session sl) ++ take len d) ∧
            (active sl = true → output_paused_ (session sl) = true →
             session sl' = session sl)).
Proof.
  split; [done|]. split; [done|]. intros Hlen. split.
  - unfold Broadcast. destruct (Nat.eqb_spec len 0) as [|_]; [done|].
    cbn [set_slots slots_]. by rewrite length_fmap.
  - intros i sl Hi. rewrite (Broadcast_slots d len sv i sl Hlen Hi).
    eexists. split; [done|].
    destruct (active sl) eqn:Hact; cbn [active thread session].
    + repeat split; try done.
      * intros _ Hs _. by rewrite Send_sending.
      * intros _ Hp. by apply Send_paused.
    + by repeat split.
Qed.

Lemma X26_broadcast_witness :
  length (slots_ (Broadcast (Some (chars "hi")) 2 (busy_server 2)))
  = length (slots_ (busy_server 2)).
Proof.
  refine (proj1 (proj2 (proj2 (X26_broadcast (chars "hi") 2 (busy_server 2)))
                   _)).
  discriminate.
Defined.

(** ** The read loop from end to end *)

Lemma RunLoop_app reg a : ∀ b s,
  RunLoop reg (a ++ b) s = RunLoop reg b (RunLoop reg a s).
Proof.
  induction a as [|x a IH]; intros b s; [done|]. cbn [app RunLoop].
  destruct (running_ s) eqn:Hr; [apply IH|]. by rewrite RunLoop_stopped.
Qed.

Lemma RunStep_consumed reg b s iac' :
  FilterIac (iac_ s) b = (iac', 0%Z) → RunStep reg b s = set_iac iac' s.
Proof. intros H. unfold RunStep. by rewrite H. Qed.

(** X27: an option negotiation sent by the peer in the middle of a session
    never reaches the line editor: the read loop is in the same state after
    the three bytes as before them, whatever follows. *)
Theorem X27_negotiation_ignored reg cmd opt rest s :
  phase (iac_ s) = kNormal → (251 ≤ cmd ≤ 254)%Z →
  RunLoop reg ([255; cmd; opt]%Z ++ rest) s = RunLoop reg rest s.
Proof.
  intros Hph Hcmd. destruct (running_ s) eqn:Hrun;
    [|by rewrite !RunLoop_stopped].
  destruct (iac_ s) as [ph pb] eqn:Hiac. cbn in Hph. subst ph.
  cbn [app RunLoop]. rewrite Hrun.
  rewrite (RunStep_consumed reg 255 s {| phase := kIac; prev_byte := pb |})
    by (by rewrite Hiac).
  cbn [running_ set_iac]. rewrite Hrun.
  rewrite (RunStep_consumed reg cmd _ {| phase := kNego; prev_byte := pb |})
    by (cbn [iac_]; by apply FilterIac_iac_nego).
  cbn [running_ set_iac]. rewrite Hrun.
  rewrite (RunStep_consumed reg opt _ {| phase := kNormal; prev_byte := pb |})
    by done.
  f_equal. rewrite <- Hiac. by destruct s.
Qed.

Lemma X27_negotiation_ignored_witness :
  RunLoop test_registry ([255; 253; 31]%Z ++ typed "ok")
    (RunLoop test_registry (chars "fa") (Init 3 open_config session_new))
  = RunLoop test_registry (typed "ok")
      (RunLoop test_registry (chars "fa") (Init 3 open_config session_new)).
Proof.
  refine (X27_negotiation_ignored test_registry 253 31 (typed "ok")
            (RunLoop test_registry (chars "fa")
               (Init 3 open_config session_new)) _ _).
  - reflexivity.
  - lia.
Defined.

Lemma outputs_sending outs : ∀ s,
  sending s →
  foldl (λ acc call, SessionOutput call acc) s outs
  = set_sent (sent_ s ++ concat ((λ call, take (Z.to_nat (snd call))
                                            (fst call)) <$> outs)) s.
Proof.
  induction outs as [|call outs IH]; intros s Hs.
  - cbn. by rewrite app_nil_r, set_sent_same.
  - cbn [foldl fmap list_fmap concat]. unfold SessionOutput at 2.
    rewrite Send_sending by done.
    rewrite IH by (destruct Hs; by split). fld. by rewrite <- app_assoc.
Qed.

Lemma PrintHelp_text r :
  Forall help_fits (live r) →
  concat ((λ call, take (Z.to_nat (snd call)) (fst call))
          <$> PrintHelp r true)
  = help_header ++ concat (help_line <$> live r).
Proof.
  intros Hfit. unfold PrintHelp. cbn [negb fmap list_fmap concat fst snd].
  f_equal. fold (live r).
  induction Hfit as [|e l He Hl IH]; [done|].
  rewrite bind_cons, fmap_app, concat_app, IH, fmap_cons.
  rewrite emit128_one by apply help_line_ne.
  cbn [app fmap list_fmap concat fst snd]. rewrite app_nil_r.
  f_equal.
  rewrite Nat2Z.id. unfold help_fits in He.
  rewrite take_app_le by (rewrite length_take; lia).
  rewrite take_take. by rewrite take_ge by lia.
Qed.

Lemma ExecuteCommand_help reg s :
  c_str (cmd_buf_ s) = chars "help" → sending s →
  Forall help_fits (live reg) →
  ExecuteCommand reg s
  = set_sent (sent_ s ++ help_header ++ concat (help_line <$> live reg))
      (PushHistory (Some (cmd_buf_ s)) s).
Proof.
  intros Hcmd Hs Hfit. unfold ExecuteCommand.
  destruct (PushHistory_editor (Some (cmd_buf_ s)) s) as (Hb & _).
  rewrite Hb.
  assert (streq (cmd_buf_ s) (chars "exit") = false) as ->
    by (apply streq_false; by rewrite Hcmd).
  assert (streq (cmd_buf_ s) (chars "quit") = false) as ->
    by (apply streq_false; by rewrite Hcmd).
  cbn [orb].
  set (exec_buf := <[kMaxCmdLen - 1 := 0%Z]>
                     (strncpy (zeros kMaxCmdLen) (cmd_buf_ s)
                        (kMaxCmdLen - 1))).
  assert (c_str exec_buf = chars "help") as Hexec.
  { unfold exec_buf.
    destruct (strncpy_terminated (zeros kMaxCmdLen) (cmd_buf_ s)
                (kMaxCmdLen - 1)) as (-> & _); [by vm_compute|].
    by rewrite Hcmd. }
  rewrite (Execute_help reg exec_buf true []).
  - cbn [ex_out].
    destruct (PushHistory_shape (Some (cmd_buf_ s)) s) as (h & w & c & ->).
    rewrite outputs_sending by (destruct Hs; by split).
    rewrite PrintHelp_text by done. done.
  - unfold tokenize. by rewrite Hexec.
  - unfold tokenize. rewrite Hexec. by vm_compute.
Qed.

Lemma help_typable :
  Forall (λ c, plain_byte c = true ∧ c ≠ 0%Z ∧ c ≠ 255%Z) (chars "help").
Proof.
  change (chars "help") with [104; 101; 108; 112]%Z.
  repeat (constructor; [split; [reflexivity|split; discriminate]|]).
  constructor.
Qed.

Lemma help_plain : Forall (λ c, plain_byte c = true) (chars "help").
Proof. eapply Forall_impl; [|exact help_typable]. cbn. tauto. Qed.

(** X28: the help command from the keyboard to the wire.  An authorized
    session with an empty line that receives the four letters and Enter
    transmits the echo of the letters, CR LF, the header, one line for each
    registered command in registration order and the prompt, provided each
    of these lines fits the 128 byte buffer; the line is stored in the
    history and the editor is empty again. *)
Theorem X28_help_end_to_end reg s :
  running_ s = true → phase (iac_ s) = kNormal → arrow_ s = kNone →
  auth_ s = kAuthorized → line_wf s → cmd_len_ s = 0 → sending s →
  Forall help_fits (live reg) →
  sent_ (RunLoop reg (chars "help" ++ [13%Z]) s)
  = sent_ s ++ chars "help" ++ CRLF ++ help_header
    ++ concat (help_line <$> live reg)
    ++ c_str (default [] (prompt (config_ s))) ∧
  cmd_len_ (RunLoop reg (chars "help" ++ [13%Z]) s) = 0 ∧
  running_ (RunLoop reg (chars "help" ++ [13%Z]) s) = true ∧
  (history_wf s →
   c_str <$> GetHistory 0 (RunLoop reg (chars "help" ++ [13%Z]) s)
   = Some (chars "help")).
Proof.
  intros Hrun Hph Ha Hauth Hwf H0 Hs Hfit.
  rewrite RunLoop_app.
  rewrite (RunLoop_typing reg (chars "help"));
    [|done|done|done|exact help_typable|rewrite H0; vm_compute; lia].
  destruct (typing_shape reg (chars "help") s)
    as (b & v & -> & Hbl & Htk & Hz & _ & Ho);
    [done|exact help_plain|done|rewrite H0; vm_compute; lia|].
  rewrite H0 in *. rewrite (Ho Hs). clear Ho.
  assert (line_text s = []) as Hlt by (unfold line_text; by rewrite H0).
  rewrite Hlt in Htk. cbn [app Nat.add length chars] in Htk, Hz.
  assert (echo_of s <$> chars "help" = chars "help") as ->
    by (unfold echo_of; by rewrite Hauth).
  set (s1 := set_sent (sent_ s ++ chars "help")
               (set_cmd_buf b (set_cmd_len (0 + length (chars "help")) s))).
  assert (line_wf s1) as Hwf1
    by (unfold line_wf, s1; fld; split; [done|split; [vm_compute; lia|exact Hz]]).
  assert (c_str (cmd_buf_ s1) = chars "help") as Hcs.
  { rewrite line_c_str; [done|done|]. unfold line_text, s1. fld.
    cbn [Nat.add length chars]. rewrite Htk. exact chars_help_nonzero. }
  destruct Hs as [Hfd Hp].
  cbn [RunLoop]. change (running_ s1) with (running_ s). rewrite Hrun.
  rewrite RunStep_data by done.
  rewrite ProcessChar_enter by done.
  change (auth_ s1) with (auth_ s). rewrite Hauth.
  change (0 <? cmd_len_ s1) with true. cbv iota.
  rewrite line_terminated by done.
  rewrite (Send_sending _ _ s1) by done.
  change (take 2 CRLF) with CRLF.
  rewrite ExecuteCommand_help; [|done|by split|done].
  assert (c_str b = chars "help") as Hcb by exact Hcs.
  subst s1. fld.
  split; [|split; [|split]].
  - match goal with |- context [PushHistory ?d ?t] =>
      destruct (PushHistory_shape d t) as (h & w & c & ->) end.
    rewrite ShowPrompt_sending by (by split).
    unfold prompt_text. fld. rewrite Hauth.
    by rewrite <- !app_assoc.
  - by repeat shape_step.
  - by repeat shape_step.
  - intros Hhw.
    match goal with |- context [PushHistory ?d ?t] =>
      assert (history_rep (PushHistory d t)
                (history_push b
                   ((λ i, c_str (default [] (GetHistory (Z.of_nat i) s)))
                    <$> seq 0 (history_count_ s)))) as Hrep1
    end.
    { apply PushHistory_rep. split; [done|]. split.
      - by rewrite length_fmap, length_seq.
      - intros i.
        match goal with |- context [GetHistory ?k ?t] =>
          change (GetHistory k t) with (GetHistory k s) end.
        rewrite list_lookup_fmap.
        destruct (decide (i < history_count_ s)) as [Hi|Hi].
        + rewrite lookup_seq_lt by done.
          cbn [fmap option_fmap option_map Nat.add].
          destruct (GetHistory_is_Some (Z.of_nat i) s) as [row ->]; [lia|].
          done.
        + rewrite lookup_seq_ge by lia. cbn [fmap option_fmap option_map].
          rewrite GetHistory_nat. by destruct (decide (i < history_count_ s)). }
    pose proof (history_rep_head _ _ Hrep1) as Hhead.
    rewrite history_push_head in Hhead
      by (rewrite Hcb; vm_compute; (discriminate || lia)).
    rewrite Hcb in Hhead. rewrite <- Hhead.
    f_equal. apply GetHistory_ext; by repeat shape_step.
Qed.

Lemma X28_help_end_to_end_witness :
  cmd_len_ (RunLoop test_registry (chars "help" ++ [13%Z])
              (Init 3 open_config session_new)) = 0.
Proof.
  refine (proj1 (proj2 (X28_help_end_to_end test_registry
                          (Init 3 open_config session_new)
                          _ _ _ _ _ _ _ _))).
  - reflexivity.
  - reflexivity.
  - reflexivity.
  - reflexivity.
  - apply Init_wf.
  - reflexivity.
  - split; [vm_compute; discriminate|reflexivity].
  - vm_compute. repeat constructor; vm_compute; lia.
Defined.

(** ** Browsing the history *)

(** [ReplaceLineWith] with any text: at most 255 characters are taken. *)
Lemma ReplaceLineWith_line row s :
  length (cmd_buf_ s) = kMaxCmdLen →
  ∃ b v, ReplaceLineWith (Some row) s
         = set_sent v (set_cmd_buf b
                         (set_cmd_len (min (strlen row) (kMaxCmdLen - 1)) s)) ∧
         length b = kMaxCmdLen ∧
         take (min (strlen row) (kMaxCmdLen - 1)) b
           = take (kMaxCmdLen - 1) (c_str row) ∧
         b !! min (strlen row) (kMaxCmdLen - 1) = Some 0%Z.
Proof.
  intros Hlen. unfold ReplaceLineWith.
  pose proof (strlen_le row) as Hle.
  assert ((if kMaxCmdLen <=? strlen row then kMaxCmdLen - 1 else strlen row)
          = min (strlen row) (kMaxCmdLen - 1)) as ->.
  { destruct (Nat.leb_spec kMaxCmdLen (strlen row)); unfold kMaxCmdLen in *;
      lia. }
  set (len := min (strlen row) (kMaxCmdLen - 1)).
  assert (len ≤ kMaxCmdLen - 1) as Hl1 by (unfold len; lia).
  assert (len ≤ strlen row) as Hl2 by (unfold len; lia).
  destruct (erase_line_shape (cmd_len_ s) s) as (v0 & -> & _). fld.
  assert (length (take len row) = len) as Htl
    by (rewrite length_take; lia).
  set (b := <[len := 0%Z]> (memcpy (cmd_buf_ s) row len)).
  assert (length b = kMaxCmdLen) as Hbl.
  { unfold b, memcpy. rewrite length_insert, length_app, length_drop.
    unfold kMaxCmdLen in *. lia. }
  assert (take len b = take (kMaxCmdLen - 1) (c_str row)) as Htk.
  { unfold b, memcpy. rewrite take_insert_ge by lia.
    rewrite take_app_le by lia. rewrite take_take, Nat.min_id.
    destruct (c_str_split row) as (tl & Hrow & _).
    rewrite Hrow at 1. rewrite take_app_le by (fold (strlen row); lia).
    unfold len. fold (strlen row).
    destruct (Nat.le_ge_cases (strlen row) (kMaxCmdLen - 1)) as [H|H].
    - rewrite Nat.min_l by done.
      rewrite !take_ge; [done|fold (strlen row); lia..].
    - by rewrite Nat.min_r by done. }
  assert (b !! len = Some 0%Z) as Hz.
  { unfold b. apply list_lookup_insert_eq. unfold memcpy.
    rewrite length_app, length_drop. unfold kMaxCmdLen in *. lia. }
  match goal with |- context [Send ?d ?n ?t] =>
    destruct (Send_shape d n t) as (v & -> & _) end.
  by exists b, v.
Qed.

Lemma arrow_seq reg c s :
  arrow_ s = kNone →
  process_all reg [27%Z; 91%Z; c] s = HandleArrow c (set_arrow kBracket s).
Proof.
  intros Ha. unfold process_all. cbn [foldl].
  assert (ProcessChar reg 27 s = set_arrow kEsc s) as ->
    by (unfold ProcessChar; by rewrite Ha).
  assert (ProcessChar reg 91 (set_arrow kEsc s) = set_arrow kBracket s) as ->
    by done.
  done.
Qed.

Lemma history_rep_row s h k entry :
  history_rep s h → h !! k = Some entry →
  k < history_count_ s ∧
  ∃ row, GetHistory (Z.of_nat k) s = Some row ∧ c_str row = entry.
Proof.
  intros (Hwf & Hl & Hg) Hk. split.
  - rewrite <- Hl. by eapply lookup_lt_Some.
  - specialize (Hg k). rewrite Hk in Hg.
    destruct (GetHistory (Z.of_nat k) s) as [row|]; [|done].
    exists row. split; [done|]. cbn in Hg. by apply (inj Some) in Hg.
Qed.

(** The line recalled from entry [k]. *)
Lemma recall_entry s h k row :
  length (cmd_buf_ s) = kMaxCmdLen → history_rep s h →
  GetHistory (Z.of_nat k) s = Some row →
  line_text (ReplaceLineWith (Some row)
               (set_history_nav (Z.of_nat k) (set_arrow kNone s)))
    = take (kMaxCmdLen - 1) (c_str row) ∧
  history_nav_ (ReplaceLineWith (Some row)
                  (set_history_nav (Z.of_nat k) (set_arrow kNone s)))
    = Z.of_nat k ∧
  arrow_ (ReplaceLineWith (Some row)
            (set_history_nav (Z.of_nat k) (set_arrow kNone s))) = kNone ∧
  line_wf (ReplaceLineWith (Some row)
             (set_history_nav (Z.of_nat k) (set_arrow kNone s))) ∧
  history_rep (ReplaceLineWith (Some row)
                 (set_history_nav (Z.of_nat k) (set_arrow kNone s))) h.
Proof.
  intros Hlen Hrep Hget.
  destruct (ReplaceLineWith_line row
              (set_history_nav (Z.of_nat k) (set_arrow kNone s)))
    as (b & v & -> & Hbl & Htk & Hz); [done|].
  unfold line_text, line_wf. fld.
  split; [done|]. split; [done|]. split; [done|].
  split; [split; [done|split; [lia|done]]|].
  by apply (history_rep_ext s).
Qed.

(** X29: the arrow keys browse the history list.  With the stored lines
    listed most recent first, the Up arrow on cursor k-1 puts entry k on the
    line and the cursor on k; the Down arrow on cursor k+1 puts entry k on
    the line and the cursor on k; the Down arrow on cursor 0 empties the
    line and resets the cursor.  The line shows at most 255 characters of
    the entry, stays terminated, and the history itself is not changed. *)
Theorem X29_history_browsing reg s h :
  arrow_ s = kNone → length (cmd_buf_ s) = kMaxCmdLen → history_rep s h →
  (∀ k entry,
     history_nav_ s = (Z.of_nat k - 1)%Z → h !! k = Some entry →
     line_text (process_all reg [27; 91; 65]%Z s)
       = take (kMaxCmdLen - 1) entry ∧
     history_nav_ (process_all reg [27; 91; 65]%Z s) = Z.of_nat k ∧
     line_wf (process_all reg [27; 91; 65]%Z s) ∧
     history_rep (process_all reg [27; 91; 65]%Z s) h) ∧
  (∀ k entry,
     history_nav_ s = Z.of_nat (S k) → h !! k = Some entry →
     line_text (process_all reg [27; 91; 66]%Z s)
       = take (kMaxCmdLen - 1) entry ∧
     history_nav_ (process_all reg [27; 91; 66]%Z s) = Z.of_nat k ∧
     line_wf (process_all reg [27; 91; 66]%Z s) ∧
     history_rep (process_all reg [27; 91; 66]%Z s) h) ∧
  (history_nav_ s = 0%Z →
   line_text (process_all reg [27; 91; 66]%Z s) = [] ∧
   cmd_len_ (process_all reg [27; 91; 66]%Z s) = 0 ∧
   history_nav_ (process_all reg [27; 91; 66]%Z s) = (-1)%Z ∧
   line_wf (process_all reg [27; 91; 66]%Z s) ∧
   history_rep (process_all reg [27; 91; 66]%Z s) h).
Proof.
  intros Ha Hlen Hrep. split; [|split].
  - intros k entry Hnav Hk. rewrite arrow_seq by done.
    destruct (history_rep_row s h k entry Hrep Hk) as (Hlt & row & Hget & <-).
    unfold HandleArrow. fld. cbn [Z.eqb Pos.eqb]. rewrite Hnav.
    replace (Z.of_nat k - 1 + 1)%Z with (Z.of_nat k) by lia.
    destruct (Z.ltb_spec (Z.of_nat k) (Z.of_nat (history_count_ s)));
      [|lia].
    rewrite (GetHistory_ext _ s) by done. rewrite Hget.
    assert (set_history_nav (Z.of_nat k) (set_arrow kNone (set_arrow kBracket s))
            = set_history_nav (Z.of_nat k) (set_arrow kNone s)) as -> by done.
    destruct (recall_entry s h k row Hlen Hrep Hget) as (H1 & H2 & _ & H4 & H5).
    done.
  - intros k entry Hnav Hk. rewrite arrow_seq by done.
    destruct (history_rep_row s h k entry Hrep Hk) as (Hlt & row & Hget & <-).
    unfold HandleArrow. fld. cbn [Z.eqb Pos.eqb]. rewrite Hnav.
    destruct (Z.ltb_spec 0 (Z.of_nat (S k))); [|lia].
    replace (Z.of_nat (S k) - 1)%Z with (Z.of_nat k) by lia.
    rewrite (GetHistory_ext _ s) by done. rewrite Hget.
    assert (set_history_nav (Z.of_nat k) (set_arrow kNone (set_arrow kBracket s))
            = set_history_nav (Z.of_nat k) (set_arrow kNone s)) as -> by done.
    destruct (recall_entry s h k row Hlen Hrep Hget) as (H1 & H2 & _ & H4 & H5).
    done.
  - intros Hnav. rewrite arrow_seq by done.
    unfold HandleArrow. fld. cbn [Z.eqb Pos.eqb]. rewrite Hnav.
    cbn [Z.ltb Z.compare Z.eqb].
    destruct (ReplaceLineWith_line [0%Z]
                (set_history_nav (-1) (set_arrow kNone (set_arrow kBracket s))))
      as (b & v & -> & Hbl & Htk & Hz); [done|].
    change (strlen [0%Z]) with 0 in *. cbn [Nat.min] in *.
    unfold line_text, line_wf. fld.
    split; [done|]. split; [done|]. split; [done|].
    split; [split; [done|split; [lia|done]]|].
    by apply (history_rep_ext s).
Qed.

Lemma X29_history_browsing_witness :
  line_text (process_all test_registry [27; 91; 65]%Z
               (process_all test_registry (typed "ok" ++ typed "fail")
                  (Init 3 open_config session_new)))
  = take (kMaxCmdLen - 1) (chars "fail").
Proof.
  refine (proj1 (proj1 (X29_history_browsing test_registry
            (process_all test_registry (typed "ok" ++ typed "fail")
               (Init 3 open_config session_new))
            [chars "fail"; chars "ok"] _ _ _) 0 (chars "fail") _ _)).
  - reflexivity.
  - reflexivity.
  - split; [|split].
    + vm_compute. repeat split; try lia.
      repeat (constructor; [reflexivity|]). constructor.
    + reflexivity.
    + intros i. do 3 (destruct i as [|i]; [reflexivity|]).
      rewrite GetHistory_nat. reflexivity.
  - reflexivity.
  - reflexivity.
Defined.

(** ** The help listing on the wire *)

Lemma PrintHelp_wire r :
  concat ((λ call, take (Z.to_nat (snd call)) (fst call))
          <$> PrintHelp r true)
  = help_header ++ concat (help_sent <$> live r).
Proof.
  unfold PrintHelp. cbn [negb fmap list_fmap concat fst snd].
  f_equal. fold (live r).
  induction (live r) as [|e l IH]; [done|].
  rewrite bind_cons, fmap_app, concat_app, IH, fmap_cons.
  rewrite emit128_one by apply help_line_ne.
  cbn [app fmap list_fmap concat fst snd]. rewrite app_nil_r.
  f_equal. rewrite Nat2Z.id. unfold help_sent.
  destruct (decide (length (help_line e) ≤ 127)) as [Hfit|Hlong].
  - rewrite take_app_le by (rewrite length_take; lia).
    rewrite take_take. by rewrite take_ge by lia.
  - apply take_ge. rewrite length_app, length_take. cbn [length]. lia.
Qed.

Lemma contains_concat {A} (f : A → list Z) (e : A) (l : list A) :
  e ∈ l → contains (f e) (concat (f <$> l)).
Proof.
  intros (l1 & l2 & ->)%list_elem_of_split.
  rewrite fmap_app, fmap_cons, concat_app. cbn [concat].
  by exists (concat (f <$> l1)), (concat (f <$> l2)).
Qed.

Lemma ExecuteCommand_wire reg s :
  c_str (cmd_buf_ s) = chars "help" → sending s →
  sent_ (ExecuteCommand reg s)
  = sent_ s ++ help_header ++ concat (help_sent <$> live reg).
Proof.
  intros Hcmd Hs. unfold ExecuteCommand.
  destruct (PushHistory_editor (Some (cmd_buf_ s)) s) as (Hb & _).
  rewrite Hb.
  assert (streq (cmd_buf_ s) (chars "exit") = false) as ->
    by (apply streq_false; by rewrite Hcmd).
  assert (streq (cmd_buf_ s) (chars "quit") = false) as ->
    by (apply streq_false; by rewrite Hcmd).
  cbn [orb].
  set (exec_buf := <[kMaxCmdLen - 1 := 0%Z]>
                     (strncpy (zeros kMaxCmdLen) (cmd_buf_ s)
                        (kMaxCmdLen - 1))).
  assert (c_str exec_buf = chars "help") as Hexec.
  { unfold exec_buf.
    destruct (strncpy_terminated (zeros kMaxCmdLen) (cmd_buf_ s)
                (kMaxCmdLen - 1)) as (-> & _); [by vm_compute|].
    by rewrite Hcmd. }
  rewrite (Execute_help reg exec_buf true []).
  - cbn [ex_out].
    destruct (PushHistory_shape (Some (cmd_buf_ s)) s) as (h & w & c & ->).
    rewrite outputs_sending by (destruct Hs; by split).
    by rewrite PrintHelp_wire.
  - unfold tokenize. by rewrite Hexec.
  - unfold tokenize. rewrite Hexec. by vm_compute.
Qed.

(** X30: the help listing of any registry on the wire.  A transmitting
    session whose line is the word help sends, after what it sent before,
    the header and something for every registered command: its help line
    when that has at most 127 characters, and otherwise the first 127
    characters of the line followed by a NUL byte, the terminator of the
    128 byte buffer. *)
Theorem X30_help_on_the_wire reg s :
  c_str (cmd_buf_ s) = chars "help" → sending s →
  (sent_ s ++ help_header) `prefix_of` sent_ (ExecuteCommand reg s) ∧
  (∀ e, e ∈ live reg → length (help_line e) ≤ 127 →
        contains (help_line e) (sent_ (ExecuteCommand reg s))) ∧
  (∀ e, e ∈ live reg → 127 < length (help_line e) →
        contains (take 127 (help_line e) ++ [0%Z])
                 (sent_ (ExecuteCommand reg s))).
Proof.
  intros Hcmd Hs. rewrite ExecuteCommand_wire by done.
  split; [|split].
  - rewrite app_assoc. by apply prefix_app_r.
  - intros e He Hfit.
    destruct (contains_concat help_sent e (live reg) He) as (l & r & ->).
    exists (sent_ s ++ help_header ++ l), r. unfold help_sent.
    destruct (decide (length (help_line e) ≤ 127)); [|lia].
    by rewrite <- !app_assoc.
  - intros e He Hlong.
    destruct (contains_concat help_sent e (live reg) He) as (l & r & ->).
    exists (sent_ s ++ help_header ++ l), r. unfold help_sent.
    destruct (decide (length (help_line e) ≤ 127)); [lia|].
    by rewrite <- !app_assoc.
Qed.

Lemma X30_help_on_the_wire_witness :
  contains
    (take 127 (help_line {| name := Some (chars "x" ++ [0%Z]);
                            desc := Some (long_desc ++ [0%Z]);
                            fn := Some (λ _ _ _, 0%Z); ctx := 0 |})
     ++ [0%Z])
    (sent_ (ExecuteCommand long_desc_registry
              (RunLoop long_desc_registry (chars "help")
                 (Init 3 open_config session_new)))).
Proof.
  refine (proj2 (proj2 (X30_help_on_the_wire long_desc_registry
                          (RunLoop long_desc_registry (chars "help")
                             (Init 3 open_config session_new)) _ _))
            _ _ _).
  - reflexivity.
  - split; [vm_compute; discriminate|reflexivity].
  - vm_compute. apply list_elem_of_here.
  - vm_compute. lia.
Defined.
